(** * S3 concurrent transfer scripts: a shallow embedding

    The two scripts [s3_concurrent_downloader.py] and
    [s3_concurrent_uploader.py] drive the AWS CLI from a thread pool.  This
    file embeds them as state-passing functions over an explicit [World]
    (the operating system, the AWS CLI, the clock and the thread scheduler)
    and proves properties of the result, the counters and the work list.

    Conventions of the embedding:
    - a Python [str] is the [string] of its UTF-8 encoding; [str.split],
      [str.strip] and [str.isspace] work on its characters ([Str.chars]),
      and white space is what Python takes for it, U+0085, U+00A0, U+2028
      or U+3000 included; separators that are ASCII characters are looked
      for byte by byte;
    - a Python [int] is a [Z]; a Python [float] is a binary64 number
      ([Float.float]), and its arithmetic rounds to nearest, ties to even;
    - an exception is a value of [exn]; a function that may raise returns
      [A + exn] next to the state it leaves behind;
    - [print] appends an f-string to a log and never fails. *)

From Stdlib Require Import String Ascii List ZArith Lia DecimalString SpecFloat.
From stdpp Require Import gmap strings.
Import ListNotations.
Open Scope string_scope.
Open Scope Z_scope.

(* [++] is list concatenation throughout; strings are joined with [+:+]. *)
Disable Notation "_ ++ _" : string_scope.

(** ** Python strings *)

Module Str.

(** A byte below 0x80 encodes a character by itself. *)
Definition is_ascii (c : ascii) : bool := (nat_of_ascii c <? 128)%nat.

(** The bytes 0x80-0xBF continue the encoding of a character. *)
Definition is_continuation (c : ascii) : bool :=
  let n := nat_of_ascii c in (128 <=? n)%nat && (n <? 192)%nat.

(** The characters of a [str], each with its encoding: a byte from 0x80
    on takes the continuation bytes that follow it. *)
Fixpoint chars (s : string) : list string :=
  match s with
  | EmptyString => []
  | String c s' =>
      match chars s' with
      | String c' ch :: rest =>
          if negb (is_ascii c) && is_continuation c'
          then String c (String c' ch) :: rest
          else String c EmptyString :: String c' ch :: rest
      | rest => String c EmptyString :: rest
      end
  end.

(** [ord(ch)] for the encoding of one character; [-1] for bytes that
    encode none. *)
Definition code_point (ch : string) : Z :=
  let byte (c : ascii) : Z := Z.of_nat (nat_of_ascii c) in
  match ch with
  | String a EmptyString => if byte a <? 128 then byte a else -1
  | String a (String b EmptyString) =>
      if (194 <=? byte a) && (byte a <? 224) && is_continuation b
      then (byte a - 192) * 64 + (byte b - 128) else -1
  | String a (String b (String c EmptyString)) =>
      let n := (byte a - 224) * 4096 + (byte b - 128) * 64 + (byte c - 128) in
      if (224 <=? byte a) && (byte a <? 240) && is_continuation b && is_continuation c
         && (2048 <=? n)
      then n else -1
  | String a (String b (String c (String d EmptyString))) =>
      let n := (byte a - 240) * 262144 + (byte b - 128) * 4096 + (byte c - 128) * 64
               + (byte d - 128) in
      if (240 <=? byte a) && (byte a <? 248) && is_continuation b && is_continuation c
         && is_continuation d && (65536 <=? n)
      then n else -1
  | _ => -1
  end.

(** [ch.isspace()] on one character: tab, newline, vertical tab, form
    feed, carriage return, the separators U+001C-U+001F, space, U+0085,
    U+00A0, U+1680, U+2000-U+200A, U+2028, U+2029, U+202F, U+205F and
    U+3000. *)
Definition isspace (ch : string) : bool :=
  let n := code_point ch in
  ((9 <=? n) && (n <=? 13))
  || ((28 <=? n) && (n <=? 32))
  || (n =? 133) || (n =? 160) || (n =? 5760)
  || ((8192 <=? n) && (n <=? 8202))
  || (n =? 8232) || (n =? 8233) || (n =? 8239) || (n =? 8287) || (n =? 12288).

Definition is_char (a c : ascii) : bool := Ascii.eqb a c.

(** The character of ["\n"]. *)
Definition newline : ascii := ascii_of_nat 10.

(** Truth value of a string: non-empty. *)
Definition truthy (s : string) : bool :=
  match s with EmptyString => false | String _ _ => true end.

(** [s.lstrip(chars)], with [p] the membership test of [chars]. *)
Fixpoint lstrip_by (p : ascii -> bool) (s : string) : string :=
  match s with
  | EmptyString => EmptyString
  | String c s' => if p c then lstrip_by p s' else s
  end.

(** [s.rstrip(chars)]. *)
Fixpoint rstrip_by (p : ascii -> bool) (s : string) : string :=
  match s with
  | EmptyString => EmptyString
  | String c s' =>
      match rstrip_by p s' with
      | EmptyString => if p c then EmptyString else String c EmptyString
      | r => String c r
      end
  end.

(** The characters of [s.lstrip()] and of [s.rstrip()]. *)
Fixpoint lstrip_chars (l : list string) : list string :=
  match l with
  | [] => []
  | ch :: l' => if isspace ch then lstrip_chars l' else l
  end.

Fixpoint rstrip_chars (l : list string) : list string :=
  match l with
  | [] => []
  | ch :: l' =>
      match rstrip_chars l' with
      | [] => if isspace ch then [] else [ch]
      | r => ch :: r
      end
  end.

(** [s.strip()] *)
Definition strip (s : string) : string :=
  fold_right String.append EmptyString (rstrip_chars (lstrip_chars (chars s))).

(** [s.rstrip("/")] *)
Definition rstrip_slash (s : string) : string := rstrip_by (is_char "/") s.

(** [s.split(sep)] for a one-character separator: never an empty list. *)
Fixpoint split_on (sep : ascii) (s : string) : list string :=
  match s with
  | EmptyString => [EmptyString]
  | String c s' =>
      if Ascii.eqb c sep then EmptyString :: split_on sep s'
      else match split_on sep s' with
           | [] => [String c EmptyString]
           | w :: ws => String c w :: ws
           end
  end.

(** The maximal runs of characters that are not white space. *)
Fixpoint split_chars (l : list string) : list string :=
  match l with
  | [] => []
  | ch :: l' =>
      if isspace ch then split_chars l'
      else match l' with
           | [] => [ch]
           | ch' :: _ =>
               if isspace ch' then ch :: split_chars l'
               else match split_chars l' with
                    | [] => [ch]
                    | w :: ws => (ch +:+ w) :: ws
                    end
           end
  end.

(** [s.split()] *)
Definition split (s : string) : list string := split_chars (chars s).

(** [sep.join(l)] *)
Fixpoint join (sep : string) (l : list string) : string :=
  match l with
  | [] => EmptyString
  | [x] => x
  | x :: rest => x +:+ sep +:+ join sep rest
  end.

(** [c * n] for a one-character string. *)
Fixpoint repeat_char (c : ascii) (n : nat) : string :=
  match n with
  | O => EmptyString
  | S n' => String c (repeat_char c n')
  end.

(** [sub in s] *)
Fixpoint contains (sub s : string) : bool :=
  String.prefix sub s
  || match s with
     | EmptyString => false
     | String _ s' => contains sub s'
     end.

(** [str(n)] for an [int]. *)
Definition of_int (z : Z) : string := NilZero.string_of_int (Z.to_int z).

End Str.

(** ** [pathlib]: pure POSIX paths *)

(** A path is its root ([""], ["/"] or ["//"]) and its components; a
    component is never empty, never ["."] and holds no ["/"]. *)
Record Path := { root : string; parts : list string }.

Module Pathlib.

(** [_PosixFlavour.splitroot]: exactly two leading slashes are kept. *)
Definition splitroot (part : string) : string * string :=
  match part with
  | String "/" _ =>
      let stripped := Str.lstrip_by (Str.is_char "/") part in
      if (String.length part - String.length stripped =? 2)%nat
      then ("//", stripped) else ("/", stripped)
  | _ => ("", part)
  end.

Definition keep_part (x : string) : bool :=
  Str.truthy x && negb (String.eqb x ".").

(** [Path(s)] *)
Definition of_str (s : string) : Path :=
  let '(r, rel) := splitroot s in
  {| root := r; parts := filter keep_part (Str.split_on "/" rel) |}.

(** [str(p)] *)
Definition to_str (p : Path) : string :=
  let s := root p +:+ Str.join "/" (parts p) in
  if Str.truthy s then s else ".".

(** [p.name]: the final component, [""] when there is none. *)
Definition name (p : Path) : string := List.last (parts p) "".

(** [p.parent] *)
Definition parent (p : Path) : Path :=
  {| root := root p; parts := removelast (parts p) |}.

(** [p / key]: a rooted [key] replaces [p]. *)
Definition truediv (p : Path) (key : string) : Path :=
  let k := of_str key in
  if Str.truthy (root k) then k
  else {| root := root p; parts := parts p ++ parts k |}.

End Pathlib.

(** ** Binary floating point *)

Module Float.

(** A [float]: a signed zero, an infinity, not-a-number, or
    [(-1)^s * m * 2^e] with [m < 2^53] and [-1074 <= e <= 971]. *)
Definition float : Type := spec_float.

(** Nearest integer to [a / b] for [b > 0], ties to even. *)
Definition round_half_even (a b : Z) : Z :=
  let fl := a / b in
  let r := a mod b in
  match (2 * r ?= b) with
  | Lt => fl
  | Gt => fl + 1
  | Eq => if Z.even fl then fl else fl + 1
  end.

(** [2^k] for [k >= 0], and 1 otherwise: [2^k] is the fraction
    [pow2 k / pow2 (- k)] for every [k]. *)
Definition pow2 (k : Z) : Z := 2 ^ Z.max 0 k.

(** The exponent [e] with [2^e <= a / b < 2^(e+1)], for [a, b > 0]. *)
Definition ilog2 (a b : Z) : Z :=
  let e := Z.log2 a - Z.log2 b in
  if a * pow2 (- e) <? b * pow2 e then e - 1 else e.

(** The float nearest to [a / b] for [a >= 0] and [b > 0], with the sign
    [neg]: 53 bits of mantissa, fewer below [2^-1022], an infinity from
    [2^1024 - 2^970] on. *)
Definition round (neg : bool) (a b : Z) : float :=
  if a =? 0 then S754_zero neg else
  let e := ilog2 a b in
  let E := Z.max (e - 52) (-1074) in
  let m := round_half_even (a * pow2 (- E)) (b * pow2 E) in
  let '(m, E) := if m =? 2 ^ 53 then (2 ^ 52, E + 1) else (m, E) in
  if m =? 0 then S754_zero neg
  else if 971 <? E then S754_infinity neg
  else S754_finite neg (Z.to_pos m) E.

(** [z] with the sign [neg]. *)
Definition signed (neg : bool) (z : Z) : Z := if neg then - z else z.

(** [float(z)] for an [int] within the range of a float.  Beyond it
    Python raises [OverflowError]; the integers converted here are counts
    of list items. *)
Definition of_int (z : Z) : float := round (z <? 0) (Z.abs z) 1.

(** The float nearest to the quotient of two [int]s, [b] not zero. *)
Definition div_int (a b : Z) : float :=
  round (xorb (a <? 0) (b <? 0)) (Z.abs a) (Z.abs b).

(** [x * y] *)
Definition mul (x y : float) : float :=
  match x, y with
  | S754_nan, _ | _, S754_nan => S754_nan
  | S754_infinity _, S754_zero _ | S754_zero _, S754_infinity _ => S754_nan
  | S754_infinity sx, S754_infinity sy
  | S754_infinity sx, S754_finite sy _ _
  | S754_finite sx _ _, S754_infinity sy => S754_infinity (xorb sx sy)
  | S754_zero sx, S754_zero sy
  | S754_zero sx, S754_finite sy _ _
  | S754_finite sx _ _, S754_zero sy => S754_zero (xorb sx sy)
  | S754_finite sx mx ex, S754_finite sy my ey =>
      round (xorb sx sy) (Zpos mx * Zpos my * pow2 (ex + ey)) (pow2 (- (ex + ey)))
  end.

(** [x - y] *)
Definition sub (x y : float) : float :=
  match x, y with
  | S754_nan, _ | _, S754_nan => S754_nan
  | S754_infinity sx, S754_infinity sy => if Bool.eqb sx sy then S754_nan else x
  | S754_infinity _, _ => x
  | _, S754_infinity sy => S754_infinity (negb sy)
  | S754_zero sx, S754_zero sy => S754_zero (sx && negb sy)
  | S754_zero _, S754_finite sy my ey => S754_finite (negb sy) my ey
  | S754_finite _ _ _, S754_zero _ => x
  | S754_finite sx mx ex, S754_finite sy my ey =>
      let e := Z.min ex ey in
      let n := signed sx (Zpos mx * 2 ^ (ex - e)) - signed sy (Zpos my * 2 ^ (ey - e)) in
      if n =? 0 then S754_zero false
      else round (n <? 0) (Z.abs n * pow2 e) (pow2 (- e))
  end.

(** [x / y] for [y] other than zero. *)
Definition div (x y : float) : float :=
  match x, y with
  | S754_nan, _ | _, S754_nan => S754_nan
  | S754_infinity _, S754_infinity _ | S754_zero _, S754_zero _ => S754_nan
  | S754_infinity sx, S754_zero sy
  | S754_infinity sx, S754_finite sy _ _
  | S754_finite sx _ _, S754_zero sy => S754_infinity (xorb sx sy)
  | S754_zero sx, S754_infinity sy
  | S754_zero sx, S754_finite sy _ _
  | S754_finite sx _ _, S754_infinity sy => S754_zero (xorb sx sy)
  | S754_finite sx mx ex, S754_finite sy my ey =>
      round (xorb sx sy) (Zpos mx * pow2 (ex - ey)) (Zpos my * pow2 (ey - ex))
  end.

Definition is_finite (x : float) : bool :=
  match x with S754_zero _ | S754_finite _ _ _ => true | _ => false end.

Definition sign (x : float) : bool :=
  match x with
  | S754_zero s | S754_infinity s | S754_finite s _ _ => s
  | S754_nan => false
  end.

(** The magnitude of a finite [x] as a fraction: numerator and
    denominator. *)
Definition frac (x : float) : Z * Z :=
  match x with
  | S754_finite _ m e => (Zpos m * pow2 e, pow2 (- e))
  | _ => (0, 1)
  end.

Definition is_zero (x : float) : bool :=
  match x with S754_zero _ => true | _ => false end.

Definition is_infinite (x : float) : bool :=
  match x with S754_infinity _ => true | _ => false end.

End Float.

(** ** f-strings and [print] *)

(** One piece of an f-string: text (literal or an interpolated [str]), an
    [int], or a [float] under the format [{x:w.df}]. *)
Inductive frag :=
| Lit (s : string)
| FInt (z : Z)
| FFloat (w d : nat) (x : Float.float).

Definition fstring := list frag.

Module Fmt.

(** The magnitude of a finite [x] in units of [10^-d], rounded to the
    nearest integer, ties to even. *)
Definition scaled (d : nat) (x : Float.float) : Z :=
  let '(a, b) := Float.frac x in Float.round_half_even (a * 10 ^ Z.of_nat d) b.

Definition pad_left (c : ascii) (w : nat) (s : string) : string :=
  Str.repeat_char c (w - String.length s) +:+ s.

(** [format(x, "w.df")] for [d >= 1]: the sign, then [inf], [nan] or the
    decimal digits of the rounded magnitude, right-aligned in [w] columns. *)
Definition fixed (w d : nat) (x : Float.float) : string :=
  let sign := if Float.sign x then "-" else "" in
  pad_left " " w
    (sign +:+
     match x with
     | S754_nan => "nan"
     | S754_infinity _ => "inf"
     | _ =>
         let n := scaled d x in
         let p := 10 ^ Z.of_nat d in
         Str.of_int (n / p) +:+ "." +:+ pad_left "0" d (Str.of_int (n mod p))
     end).

Definition render_frag (f : frag) : string :=
  match f with
  | Lit s => s
  | FInt z => Str.of_int z
  | FFloat w d x => fixed w d x
  end.

(** The text an f-string evaluates to. *)
Definition render (f : fstring) : string :=
  fold_right (fun x acc => render_frag x +:+ acc) "" f.

End Fmt.

(** ** Exceptions *)

(** The exceptions the scripts can meet.  [TimeoutExpired] is
    [subprocess.TimeoutExpired]; [OtherException] stands for every other
    subclass of [Exception] (an [OSError], a [KeyError], a plain
    [Exception]), identified by its [str()].  [KeyboardInterrupt] and
    [SystemExit] derive from [BaseException] only. *)
Inductive exn :=
| TimeoutExpired (msg : string)
| ZeroDivisionError
| ValueError (msg : string)
| OtherException (msg : string)
| KeyboardInterrupt
| SystemExit (code : Z).

(** [isinstance(e, Exception)] *)
Definition is_Exception (e : exn) : bool :=
  match e with
  | KeyboardInterrupt | SystemExit _ => false
  | _ => true
  end.

Definition is_TimeoutExpired (e : exn) : bool :=
  match e with TimeoutExpired _ => true | _ => false end.

Definition is_KeyboardInterrupt (e : exn) : bool :=
  match e with KeyboardInterrupt => true | _ => false end.

(** [str(e)] *)
Definition str_exn (e : exn) : string :=
  match e with
  | TimeoutExpired msg | ValueError msg | OtherException msg => msg
  | ZeroDivisionError => "division by zero"
  | KeyboardInterrupt => ""
  | SystemExit code => Str.of_int code
  end.

(** ** Computations with state and exceptions *)

(** A statement sequence run from a state: its value or the exception it
    raised, and the state it leaves.  Assignments made before a [raise]
    stay made. *)
Definition M (St A : Type) : Type := St -> (A + exn) * St.

#[global] Instance M_ret {St} : MRet (M St) := fun A a s => (inl a, s).

#[global] Instance M_bind {St} : MBind (M St) := fun A B f c s =>
  match c s with
  | (inl a, s') => f a s'
  | (inr e, s') => (inr e, s')
  end.

Definition raise {St A} (e : exn) : M St A := fun s => (inr e, s).

Definition get {St} : M St St := fun s => (inl s, s).

Definition modify {St} (f : St -> St) : M St unit := fun s => (inl tt, f s).

(** [try: body  except ...:]; [handlers e] is the first [except] clause
    that matches [e], if any. *)
Definition try_except {St A} (body : M St A) (handlers : exn -> option (M St A)) : M St A :=
  fun s =>
    match body s with
    | (inl a, s') => (inl a, s')
    | (inr e, s') =>
        match handlers e with
        | Some h => h s'
        | None => (inr e, s')
        end
    end.

(** [a / b] on two [int]s: true division, the float nearest to the
    quotient; [OverflowError] when that is beyond the range of a float. *)
Definition truediv {St} (a b : Z) : M St Float.float :=
  if b =? 0 then raise ZeroDivisionError
  else
    let x := Float.div_int a b in
    if Float.is_infinite x
    then raise (OtherException "integer division result too large for a float")
    else mret x.

(** ** The world outside the interpreter *)

(** Which thread makes a call: the main thread, or the pool worker that
    runs the task submitted [task]-th (from 0). *)
Inductive caller := MainThread | Worker (task : nat).

(** What [subprocess.run(cmd, capture_output=True, text=True,
    timeout=..., check=False)] does. *)
Inductive run_result :=
| CompletedProcess (returncode : Z) (out err : string)
| Raises (e : exn).

(** Every answer the scripts get from outside: child processes, the file
    system, the clock, the library matchers, and the two orders the
    thread pool leaves open. *)
Record World := {
  sys_run : caller -> list string -> Z -> run_result;
    (* subprocess.run: caller, argv, timeout in seconds *)
  sys_mkdir : caller -> string -> option exn;
    (* Path.mkdir(parents=True, exist_ok=True): None when it returns *)
  sys_isfile : string -> bool;          (* os.path.isfile, Path.is_file *)
  sys_exists : string -> bool;          (* Path.exists *)
  sys_glob : string -> list string;     (* glob.glob *)
  sys_path_glob : bool -> string -> string -> list Path + exn;
    (* list(Path(dir).rglob(pattern)) when the flag is set, else .glob(pattern) *)
  sys_fnmatch : string -> string -> bool;  (* fnmatch.fnmatch(name, pattern) *)
  sys_time : nat -> Float.float;                (* the n-th reading of time.time() *)
  argparse_help : string;               (* what parser.print_help() prints *)
  lock_order : list nat;
    (* which running task reaches its counter update next *)
  completion_order : list nat
    (* which finished future as_completed yields next *)
}.

(** A call to [subprocess.run], as made. *)
Record call := { call_by : caller; call_argv : list string; call_timeout : Z }.

(** The observable side of a process: what it printed, the child
    processes it started, and how often it read the clock. *)
Record IO := { stdout : list fstring; spawned : list call; clock_reads : nat }.

Definition IO0 : IO := {| stdout := []; spawned := []; clock_reads := 0 |}.

(** An object of class [Obj] and the process it lives in. *)
Record Proc (Obj : Type) := { self : Obj; io : IO }.
Arguments self {Obj} _.
Arguments io {Obj} _.

Section Effects.
Context {Obj : Type} (w : World).

Definition modify_self (f : Obj -> Obj) : M (Proc Obj) unit :=
  modify (fun p => {| self := f (self p); io := io p |}).

Definition get_self : M (Proc Obj) Obj := p ← get; mret (self p).

(** [print(f"...")] *)
Definition print (line : fstring) : M (Proc Obj) unit :=
  modify (fun p =>
    {| self := self p;
       io := {| stdout := stdout (io p) ++ [line];
                spawned := spawned (io p);
                clock_reads := clock_reads (io p) |} |}).

(** [subprocess.run(cmd, capture_output=True, text=True, timeout=t,
    check=False)]: the completed process as (returncode, stdout, stderr). *)
Definition subprocess_run (who : caller) (cmd : list string) (t : Z)
  : M (Proc Obj) (Z * string * string) :=
  modify (fun p =>
    {| self := self p;
       io := {| stdout := stdout (io p);
                spawned := spawned (io p)
                           ++ [{| call_by := who; call_argv := cmd; call_timeout := t |}];
                clock_reads := clock_reads (io p) |} |});;
  match sys_run w who cmd t with
  | CompletedProcess rc out err => mret (rc, out, err)
  | Raises e => raise e
  end.

(** [path.mkdir(parents=True, exist_ok=True)] *)
Definition mkdir (who : caller) (path : Path) : M (Proc Obj) unit :=
  match sys_mkdir w who (Pathlib.to_str path) with
  | None => mret tt
  | Some e => raise e
  end.

(** [time.time()] *)
Definition time_time : M (Proc Obj) Float.float :=
  p ← get;
  modify (fun p =>
    {| self := self p;
       io := {| stdout := stdout (io p);
                spawned := spawned (io p);
                clock_reads := S (clock_reads (io p)) |} |});;
  mret (sys_time w (clock_reads (io p))).

End Effects.

(** ** [concurrent.futures] *)

Module ThreadPool.

(** The order in which [pending] items are taken when at most [window]
    of them, the first ones, are eligible at a time and [order] picks
    among the eligible. *)
Fixpoint schedule {A} (fuel window : nat) (order : list nat) (pending : list A) : list A :=
  match fuel with
  | O => []
  | S fuel' =>
      match Nat.min window (length pending) with
      | O => []
      | S _ as n =>
          let k := (hd 0%nat order mod n)%nat in
          match pending !! k with
          | None => []
          | Some x => x :: schedule fuel' window (tl order) (delete k pending)
          end
      end
  end.

Section Pool.
Context {St Item R : Type}.

(** A submitted task: its submission index and its argument. *)
Definition task : Type := nat * Item.

(** A finished future: the task, and the value returned or the
    exception raised by the call. *)
Definition future : Type := task * (R + exn).

(** The submitted callable. *)
Variable fn : nat -> Item -> M St R.

(** [ThreadPoolExecutor(max_workers=n)] *)
Definition executor_init (max_workers : Z) : M St nat :=
  if max_workers <=? 0 then raise (ValueError "max_workers must be greater than 0")
  else mret (Z.to_nat max_workers).

(** [[executor.submit(fn, x) for x in items]] *)
Definition submit_all (items : list Item) : list task :=
  imap (fun i x => (i, x)) items.

(** The workers run the calls one after another in the order [ts];
    an exception ends its own call only and is kept in the future.

    A call of the scripts touches state that other calls see only inside
    [with self.lock:], where it moves a counter and prints; the rest of
    it reads fields that are not assigned during a run, and makes calls
    to the outside whose answers the [World] gives task by task.  So a
    run of the pool is the sequence of its calls in the order of their
    locked sections.  The child processes are logged in that order too,
    which need not be the order in which they were started. *)
Fixpoint run_tasks (ts : list task) : St -> list future * St :=
  match ts with
  | [] => fun s => ([], s)
  | (i, x) :: rest => fun s =>
      let '(r, s1) := fn i x s in
      let '(fs, s2) := run_tasks rest s1 in
      (((i, x), r) :: fs, s2)
  end.

(** The pool at work: tasks start in submission order, at most
    [max_workers] are running, and [lock_order] picks which running
    task completes next.  Returns the futures in the order in which
    [as_completed] yields them. *)
Definition run_pool (max_workers : nat) (lock_order completion_order : list nat)
    (items : list Item) : St -> list future * St :=
  fun s =>
    let ts := submit_all items in
    let '(fs, s') := run_tasks (schedule (length ts) max_workers lock_order ts) s in
    (schedule (length fs) (length fs) completion_order fs, s').

End Pool.

End ThreadPool.

(** ** Values shared by the two scripts *)

(** One entry of the error list: [{"file": ..., "error": ...}]. *)
Record error_entry := { file : string; error : option string }.

(** A value of the summary dict. *)
Inductive value :=
| VInt (z : Z)
| VFloat (x : Float.float)
| VErrors (l : list error_entry).

(** What a per-file function returns: [(success, file, error_message)]. *)
Definition outcome : Type := bool * string * option string.

(** [a or b] on strings *)
Definition or_str (a b : string) : string := if Str.truthy a then a else b.

(** [if x:] for an optional string ([None] or a [str]) *)
Definition opt_truthy (x : option string) : bool :=
  match x with Some s => Str.truthy s | None => false end.

(** [cmd.extend(["--profile", profile])] under [if profile:] *)
Definition extend_profile (cmd : list string) (profile : option string) : list string :=
  match profile with
  | Some p => if Str.truthy p then cmd ++ ["--profile"; p] else cmd
  | None => cmd
  end.

(** [results[key]], compared with or printed as an [int]. *)
Definition getitem_int {St} (results : gmap string value) (key : string) : M St Z :=
  match results !! key with
  | Some (VInt z) => mret z
  | Some _ => raise (OtherException "TypeError")
  | None => raise (OtherException key)
  end.

(** The loop over [as_completed(...)]:
    [success, file, error_msg = future.result()], which raises again what
    the call raised, then [errors.append(...)] when [not success]. *)
Fixpoint collect_errors {St} (fs : list (@ThreadPool.future string outcome))
    (errors : list error_entry) : M St (list error_entry) :=
  match fs with
  | [] => mret errors
  | (_, inr e) :: _ => raise e
  | (_, inl (success, f, error_msg)) :: rest =>
      collect_errors rest
        (if success then errors else errors ++ [{| file := f; error := error_msg |}])
  end.

Definition dashes : string := Str.repeat_char "-" 60.

(** ** [s3_concurrent_downloader.py] *)

Module Downloader.

(** The fields of an [S3Downloader].  [self.lock] has no field: the
    statements it guards run without interleaving, see [ThreadPool]. *)
Record S3Downloader := {
  bucket_name : string;
  max_workers : Z;
  output_dir : Path;
  aws_profile : option string;
  downloaded_count : Z;
  failed_count : Z;
  total_files : Z
}.

Definition set_downloaded_count (v : Z) (d : S3Downloader) : S3Downloader :=
  {| bucket_name := bucket_name d; max_workers := max_workers d;
     output_dir := output_dir d; aws_profile := aws_profile d;
     downloaded_count := v; failed_count := failed_count d;
     total_files := total_files d |}.

Definition set_failed_count (v : Z) (d : S3Downloader) : S3Downloader :=
  {| bucket_name := bucket_name d; max_workers := max_workers d;
     output_dir := output_dir d; aws_profile := aws_profile d;
     downloaded_count := downloaded_count d; failed_count := v;
     total_files := total_files d |}.

Definition set_total_files (v : Z) (d : S3Downloader) : S3Downloader :=
  {| bucket_name := bucket_name d; max_workers := max_workers d;
     output_dir := output_dir d; aws_profile := aws_profile d;
     downloaded_count := downloaded_count d; failed_count := failed_count d;
     total_files := v |}.

Record Args := {
  arg_bucket : string;
  arg_output : string;
  arg_prefix : string;
  arg_pattern : option string;
  arg_workers : Z;
  arg_profile : option string
}.

Section WithWorld.
Variable w : World.

Abbreviation Run := (M (Proc S3Downloader)).

Definition _check_aws_cli : Run unit :=
  try_except
    (let cmd := ["aws"; "--version"] in
     '(returncode, out, _) ← subprocess_run w MainThread cmd 10;
     (if negb (returncode =? 0)
      then raise (OtherException "AWS CLI not found or not working")
      else mret tt);;
     print [Lit "✓ AWS CLI detected: "; Lit (Str.strip out)])
    (fun e =>
       if is_Exception e then Some (
         print [Lit "❌ Error: AWS CLI is required but not available: "; Lit (str_exn e)];;
         raise (SystemExit 1))
       else None).

(** [S3Downloader(bucket_name, max_workers, output_dir, aws_profile)] *)
Definition __init__ (bucket : string) (workers : Z) (out_dir : string)
    (profile : option string) : IO -> (S3Downloader + exn) * IO :=
  fun io0 =>
    let self0 :=
      {| bucket_name := bucket; max_workers := workers;
         output_dir := Pathlib.of_str out_dir; aws_profile := profile;
         downloaded_count := 0; failed_count := 0; total_files := 0 |} in
    let '(r, p) :=
      (mkdir w MainThread (output_dir self0);; _check_aws_cli)
        {| self := self0; io := io0 |} in
    match r with
    | inl _ => (inl (self p), io p)
    | inr e => (inr e, io p)
    end.

Definition _build_aws_list_command (d : S3Downloader) (s3_prefix : string) : list string :=
  let s3_path :=
    if Str.truthy s3_prefix
    then "s3://" +:+ bucket_name d +:+ "/" +:+ Str.rstrip_slash s3_prefix +:+ "/"
    else "s3://" +:+ bucket_name d +:+ "/" in
  let cmd := ["aws"; "s3"; "ls"; s3_path; "--recursive"] in
  extend_profile cmd (aws_profile d).

Definition _build_aws_download_command (d : S3Downloader) (s3_key : string)
    (local_file : Path) : list string :=
  let s3_path := "s3://" +:+ bucket_name d +:+ "/" +:+ s3_key in
  let cmd := ["aws"; "s3"; "cp"; s3_path; Pathlib.to_str local_file] in
  extend_profile cmd (aws_profile d).

(** The body of [for line in result.stdout.strip().split("\n")]. *)
Definition parse_line (pattern : option string) (s3_files : list string)
    (line : string) : list string :=
  if Str.truthy (Str.strip line) then
    let parts := Str.split line in
    if (4 <=? length parts)%nat then
      let file_key := Str.join " " (drop 3 parts) in
      match pattern with
      | Some pat =>
          if Str.truthy pat
             && negb (sys_fnmatch w (Pathlib.name (Pathlib.of_str file_key)) pat)
          then s3_files
          else s3_files ++ [file_key]
      | None => s3_files ++ [file_key]
      end
    else s3_files
  else s3_files.

(** The parsing loop of [_list_s3_files] on the text of the listing. *)
Definition parse_listing (pattern : option string) (out : string) : list string :=
  fold_left (parse_line pattern) (Str.split_on Str.newline (Str.strip out)) [].

Definition _list_s3_files (s3_prefix : string) (pattern : option string)
  : Run (list string) :=
  try_except
    (d ← get_self;
     let cmd := _build_aws_list_command d s3_prefix in
     '(returncode, out, err) ← subprocess_run w MainThread cmd 1800;
     if negb (returncode =? 0) then
       let error_msg := or_str (Str.strip err) (Str.strip out) in
       print [Lit "❌ Error listing S3 objects: "; Lit error_msg];;
       mret []
     else
       mret (parse_listing pattern out))
    (fun e =>
       if is_Exception e then Some (
         print [Lit "❌ Error listing S3 files: "; Lit (str_exn e)];;
         mret [])
       else None).

(** [(self.downloaded_count + self.failed_count) / self.total_files * 100] *)
Definition progress_expr : Run Float.float :=
  d ← get_self;
  x ← truediv (downloaded_count d + failed_count d) (total_files d);
  mret (Float.mul x (Float.of_int 100)).

(** [self._download_file(s3_key)], run as task [i] of the pool. *)
Definition _download_file (i : nat) (s3_key : string) : Run outcome :=
  try_except
    (d ← get_self;
     let local_file := Pathlib.truediv (output_dir d) (Pathlib.name (Pathlib.of_str s3_key)) in
     mkdir w (Worker i) (Pathlib.parent local_file);;
     let cmd := _build_aws_download_command d s3_key local_file in
     '(returncode, out, err) ← subprocess_run w (Worker i) cmd 3600;
     if returncode =? 0 then
       modify_self (fun d => set_downloaded_count (downloaded_count d + 1) d);;
       progress ← progress_expr;
       print [Lit "✓ ["; FFloat 5 1 progress; Lit "%] Downloaded: "; Lit s3_key;
              Lit " -> "; Lit (Pathlib.to_str local_file)];;
       mret (true, s3_key, None)
     else
       let error_msg := or_str (Str.strip err) (Str.strip out) in
       modify_self (fun d => set_failed_count (failed_count d + 1) d);;
       progress ← progress_expr;
       print [Lit "❌ ["; FFloat 5 1 progress; Lit "%] Failed: "; Lit s3_key;
              Lit " - "; Lit error_msg];;
       mret (false, s3_key, Some error_msg))
    (fun e =>
       if is_TimeoutExpired e then Some (
         let error_msg := "Download timeout (1 hour exceeded)" in
         modify_self (fun d => set_failed_count (failed_count d + 1) d);;
         progress ← progress_expr;
         print [Lit "❌ ["; FFloat 5 1 progress; Lit "%] Timeout: "; Lit s3_key;
                Lit " - "; Lit error_msg];;
         mret (false, s3_key, Some error_msg))
       else if is_Exception e then Some (
         let error_msg := str_exn e in
         modify_self (fun d => set_failed_count (failed_count d + 1) d);;
         progress ← progress_expr;
         print [Lit "❌ ["; FFloat 5 1 progress; Lit "%] Error: "; Lit s3_key;
                Lit " - "; Lit error_msg];;
         mret (false, s3_key, Some error_msg))
       else None).

(** The futures of one pool run over [s3_files], as yielded by
    [as_completed]. *)
Definition run_downloads (workers : nat) (s3_files : list string)
  : Run (list (@ThreadPool.future string outcome)) :=
  fun p =>
    let '(fs, p') :=
      ThreadPool.run_pool _download_file workers (lock_order w) (completion_order w)
        s3_files p in
    (inl fs, p').

(** [download_files] from [if not s3_files:] on, once the listing
    has returned [s3_files]. *)
Definition download_listed (s3_files : list string) (s3_prefix : string)
    (pattern : option string) : Run (gmap string value) :=
  match s3_files with
  | [] =>
      print [Lit "❌ No files found to download"];;
      mret (<["success" := VInt 0]> (<["failed" := VInt 0]> (<["errors" := VErrors []]> ∅)))
  | _ :: _ =>
      modify_self (set_total_files (Z.of_nat (length s3_files)));;
      modify_self (set_downloaded_count 0);;
      modify_self (set_failed_count 0);;
      d ← get_self;
      print [Lit "🚀 Starting download of "; FInt (total_files d);
             Lit " files from s3://"; Lit (bucket_name d); Lit "/"];;
      print [Lit "📊 Using "; FInt (max_workers d); Lit " concurrent workers"];;
      print [Lit "📁 Output directory: "; Lit (Pathlib.to_str (output_dir d))];;
      (if Str.truthy s3_prefix
       then print [Lit "📁 S3 prefix: "; Lit s3_prefix; Lit "/"] else mret tt);;
      (if opt_truthy pattern
       then print [Lit "🔍 File pattern: "; Lit (default "" pattern)] else mret tt);;
      print [Lit dashes];;
      start_time ← time_time w;
      workers ← ThreadPool.executor_init (max_workers d);
      futures ← run_downloads workers s3_files;
      errors ← collect_errors futures [];
      now ← time_time w;
      let elapsed_time := Float.sub now start_time in
      d ← get_self;
      print [Lit dashes];;
      print [Lit "📈 Download Summary:"];;
      print [Lit "   ✓ Successful: "; FInt (downloaded_count d)];;
      print [Lit "   ❌ Failed: "; FInt (failed_count d)];;
      print [Lit "   ⏱️  Total time: "; FFloat 0 2 elapsed_time; Lit " seconds"];;
      (if 0 <? downloaded_count d then
         let avg_time := Float.div elapsed_time (Float.of_int (downloaded_count d)) in
         print [Lit "   📊 Average time per file: "; FFloat 0 2 avg_time; Lit " seconds"]
       else mret tt);;
      mret (<["success" := VInt (downloaded_count d)]>
            (<["failed" := VInt (failed_count d)]>
             (<["errors" := VErrors errors]>
              (<["total_time" := VFloat elapsed_time]> ∅))))
  end.

Definition download_files (s3_prefix : string) (pattern : option string)
  : Run (gmap string value) :=
  d ← get_self;
  print [Lit "🔍 Listing files in s3://"; Lit (bucket_name d); Lit "/";
         Lit (or_str s3_prefix "")];;
  s3_files ← _list_s3_files s3_prefix pattern;
  download_listed s3_files s3_prefix pattern.

(** [main()] after [parser.parse_args()]; the process ends with the
    [SystemExit] raised here. *)
Definition main (args : Args) : IO -> (unit + exn) * IO :=
  fun io0 =>
    match __init__ (arg_bucket args) (arg_workers args) (arg_output args)
            (arg_profile args) io0 with
    | (inr e, io1) => (inr e, io1)
    | (inl downloader, io1) =>
        let '(r, p) :=
          try_except
            (results ← download_files (arg_prefix args) (arg_pattern args);
             failed ← getitem_int results "failed";
             if 0 <? failed then
               print [Lit "
⚠️  Some downloads failed. Check the errors above."];;
               raise (SystemExit 1)
             else
               success ← getitem_int results "success";
               print [Lit "
🎉 All "; FInt success; Lit " files downloaded successfully!"];;
               raise (SystemExit 0))
            (fun e =>
               if is_KeyboardInterrupt e then Some (
                 print [Lit "

⚠️  Download interrupted by user"];;
                 raise (SystemExit 1))
               else if is_Exception e then Some (
                 print [Lit "
❌ Unexpected error: "; Lit (str_exn e)];;
                 raise (SystemExit 1))
               else None)
            {| self := downloader; io := io1 |} in
        (r, io p)
    end.

End WithWorld.

End Downloader.

(** ** [s3_concurrent_uploader.py] *)

Module Uploader.

(** The fields of an [S3Uploader]; [s3_prefix] is stored with its
    trailing slashes removed. *)
Record S3Uploader := {
  bucket_name : string;
  max_workers : Z;
  s3_prefix : string;
  aws_profile : option string;
  uploaded_count : Z;
  failed_count : Z;
  total_files : Z
}.

Definition set_uploaded_count (v : Z) (u : S3Uploader) : S3Uploader :=
  {| bucket_name := bucket_name u; max_workers := max_workers u;
     s3_prefix := s3_prefix u; aws_profile := aws_profile u;
     uploaded_count := v; failed_count := failed_count u;
     total_files := total_files u |}.

Definition set_failed_count (v : Z) (u : S3Uploader) : S3Uploader :=
  {| bucket_name := bucket_name u; max_workers := max_workers u;
     s3_prefix := s3_prefix u; aws_profile := aws_profile u;
     uploaded_count := uploaded_count u; failed_count := v;
     total_files := total_files u |}.

Definition set_total_files (v : Z) (u : S3Uploader) : S3Uploader :=
  {| bucket_name := bucket_name u; max_workers := max_workers u;
     s3_prefix := s3_prefix u; aws_profile := aws_profile u;
     uploaded_count := uploaded_count u; failed_count := failed_count u;
     total_files := v |}.

Record Args := {
  arg_bucket : string;
  arg_files : option (list string);
  arg_directory : option string;
  arg_pattern : string;
  arg_recursive : bool;
  arg_workers : Z;
  arg_prefix : string;
  arg_profile : option string
}.

Section WithWorld.
Variable w : World.

Abbreviation Run := (M (Proc S3Uploader)).

Definition _check_aws_cli : Run unit :=
  try_except
    (let cmd := ["aws"; "--version"] in
     '(returncode, out, _) ← subprocess_run w MainThread cmd 10;
     (if negb (returncode =? 0)
      then raise (OtherException "AWS CLI not found or not working")
      else mret tt);;
     print [Lit "✓ AWS CLI detected: "; Lit (Str.strip out)])
    (fun e =>
       if is_Exception e then Some (
         print [Lit "❌ Error: AWS CLI is required but not available: "; Lit (str_exn e)];;
         raise (SystemExit 1))
       else None).

(** [S3Uploader(bucket_name, max_workers, s3_prefix, aws_profile)] *)
Definition __init__ (bucket : string) (workers : Z) (prefix : string)
    (profile : option string) : IO -> (S3Uploader + exn) * IO :=
  fun io0 =>
    let self0 :=
      {| bucket_name := bucket; max_workers := workers;
         s3_prefix := Str.rstrip_slash prefix; aws_profile := profile;
         uploaded_count := 0; failed_count := 0; total_files := 0 |} in
    let '(r, p) := _check_aws_cli {| self := self0; io := io0 |} in
    match r with
    | inl _ => (inl (self p), io p)
    | inr e => (inr e, io p)
    end.

Definition _build_aws_command (u : S3Uploader) (local_file s3_key : string) : list string :=
  let cmd := ["aws"; "s3"; "cp"; local_file; "s3://" +:+ bucket_name u +:+ "/" +:+ s3_key] in
  extend_profile cmd (aws_profile u).

(** The S3 key [_upload_file] builds for a path. *)
Definition make_s3_key (u : S3Uploader) (file_path : Path) : string :=
  if Str.truthy (s3_prefix u)
  then s3_prefix u +:+ "/" +:+ Pathlib.name file_path
  else Pathlib.name file_path.

(** [(self.uploaded_count + self.failed_count) / self.total_files * 100] *)
Definition progress_expr : Run Float.float :=
  u ← get_self;
  x ← truediv (uploaded_count u + failed_count u) (total_files u);
  mret (Float.mul x (Float.of_int 100)).

(** [self._upload_file(local_file)], run as task [i] of the pool. *)
Definition _upload_file (i : nat) (local_file : string) : Run outcome :=
  try_except
    (u ← get_self;
     let file_path := Pathlib.of_str local_file in
     let s3_key := make_s3_key u file_path in
     let cmd := _build_aws_command u (Pathlib.to_str file_path) s3_key in
     '(returncode, out, err) ← subprocess_run w (Worker i) cmd 3600;
     if returncode =? 0 then
       modify_self (fun u => set_uploaded_count (uploaded_count u + 1) u);;
       progress ← progress_expr;
       print [Lit "✓ ["; FFloat 5 1 progress; Lit "%] Uploaded: ";
              Lit (Pathlib.name file_path); Lit " -> s3://"; Lit (bucket_name u);
              Lit "/"; Lit s3_key];;
       mret (true, Pathlib.to_str file_path, None)
     else
       let error_msg := or_str (Str.strip err) (Str.strip out) in
       modify_self (fun u => set_failed_count (failed_count u + 1) u);;
       progress ← progress_expr;
       print [Lit "❌ ["; FFloat 5 1 progress; Lit "%] Failed: ";
              Lit (Pathlib.name file_path); Lit " - "; Lit error_msg];;
       mret (false, Pathlib.to_str file_path, Some error_msg))
    (fun e =>
       if is_TimeoutExpired e then Some (
         let error_msg := "Upload timeout (5 minutes exceeded)" in
         modify_self (fun u => set_failed_count (failed_count u + 1) u);;
         progress ← progress_expr;
         print [Lit "❌ ["; FFloat 5 1 progress; Lit "%] Timeout: "; Lit local_file;
                Lit " - "; Lit error_msg];;
         mret (false, local_file, Some error_msg))
       else if is_Exception e then Some (
         let error_msg := str_exn e in
         modify_self (fun u => set_failed_count (failed_count u + 1) u);;
         progress ← progress_expr;
         print [Lit "❌ ["; FFloat 5 1 progress; Lit "%] Error: "; Lit local_file;
                Lit " - "; Lit error_msg];;
         mret (false, local_file, Some error_msg))
       else None).

(** The loop that fills [valid_files]. *)
Fixpoint filter_valid (file_list valid_files : list string) : Run (list string) :=
  match file_list with
  | [] => mret valid_files
  | file_path :: rest =>
      if sys_isfile w file_path then filter_valid rest (valid_files ++ [file_path])
      else
        print [Lit "⚠️  Warning: File not found, skipping: "; Lit file_path];;
        filter_valid rest valid_files
  end.

(** The futures of one pool run over [valid_files], as yielded by
    [as_completed]. *)
Definition run_uploads (workers : nat) (valid_files : list string)
  : Run (list (@ThreadPool.future string outcome)) :=
  fun p =>
    let '(fs, p') :=
      ThreadPool.run_pool _upload_file workers (lock_order w) (completion_order w)
        valid_files p in
    (inl fs, p').

(** [upload_files] from [if not valid_files:] on. *)
Definition upload_valid (valid_files : list string) : Run (gmap string value) :=
  match valid_files with
  | [] =>
      print [Lit "❌ No valid files to upload"];;
      mret (<["success" := VInt 0]> (<["failed" := VInt 0]> (<["errors" := VErrors []]> ∅)))
  | _ :: _ =>
      modify_self (set_total_files (Z.of_nat (length valid_files)));;
      modify_self (set_uploaded_count 0);;
      modify_self (set_failed_count 0);;
      u ← get_self;
      print [Lit "🚀 Starting upload of "; FInt (total_files u);
             Lit " files to s3://"; Lit (bucket_name u); Lit "/"];;
      print [Lit "📊 Using "; FInt (max_workers u); Lit " concurrent workers"];;
      (if Str.truthy (s3_prefix u)
       then print [Lit "📁 S3 prefix: "; Lit (s3_prefix u); Lit "/"] else mret tt);;
      print [Lit dashes];;
      start_time ← time_time w;
      workers ← ThreadPool.executor_init (max_workers u);
      futures ← run_uploads workers valid_files;
      errors ← collect_errors futures [];
      now ← time_time w;
      let elapsed_time := Float.sub now start_time in
      u ← get_self;
      print [Lit dashes];;
      print [Lit "📈 Upload Summary:"];;
      print [Lit "   ✓ Successful: "; FInt (uploaded_count u)];;
      print [Lit "   ❌ Failed: "; FInt (failed_count u)];;
      print [Lit "   ⏱️  Total time: "; FFloat 0 2 elapsed_time; Lit " seconds"];;
      (if 0 <? uploaded_count u then
         let avg_time := Float.div elapsed_time (Float.of_int (uploaded_count u)) in
         print [Lit "   📊 Average time per file: "; FFloat 0 2 avg_time; Lit " seconds"]
       else mret tt);;
      mret (<["success" := VInt (uploaded_count u)]>
            (<["failed" := VInt (failed_count u)]>
             (<["errors" := VErrors errors]>
              (<["total_time" := VFloat elapsed_time]> ∅))))
  end.

Definition upload_files (file_list : list string) : Run (gmap string value) :=
  valid_files ← filter_valid file_list [];
  upload_valid valid_files.

Definition get_files_from_directory (directory pattern : string) (recursive : bool)
  : M (Proc unit) (list string) :=
  let dir_path := Pathlib.of_str directory in
  if negb (sys_exists w (Pathlib.to_str dir_path)) then
    print [Lit "❌ Directory not found: "; Lit directory];;
    mret []
  else
    match sys_path_glob w recursive (Pathlib.to_str dir_path) pattern with
    | inr e => raise e
    | inl files =>
        let files := filter (fun f => sys_isfile w (Pathlib.to_str f)) files in
        mret (map Pathlib.to_str files)
    end.

Fixpoint expand_loop (file_patterns all_files : list string) : M (Proc unit) (list string) :=
  match file_patterns with
  | [] => mret all_files
  | pattern :: rest =>
      if Str.contains "*" pattern || Str.contains "?" pattern then
        let matched_files := sys_glob w pattern in
        match matched_files with
        | _ :: _ => expand_loop rest (all_files ++ matched_files)
        | [] =>
            print [Lit "⚠️  Warning: No files matched pattern: "; Lit pattern];;
            expand_loop rest all_files
        end
      else expand_loop rest (all_files ++ [pattern])
  end.

Definition expand_file_patterns (file_patterns : list string) : M (Proc unit) (list string) :=
  expand_loop file_patterns [].

(** [list(dict.fromkeys(l))]: first occurrences, in order. *)
Definition fromkeys (l : list string) : list string :=
  fold_left (fun (acc : list string) x => if bool_decide (x ∈ acc) then acc else acc ++ [x]) l [].

(** The part of [main()] between [parser.parse_args()] and the
    construction of the uploader: the list of files to upload. *)
Definition gather_files (args : Args) : M (Proc unit) (list string) :=
  let files := default [] (arg_files args) in
  let has_files := match files with [] => false | _ => true end in
  let has_directory := opt_truthy (arg_directory args) in
  (if negb has_files && negb has_directory then
     print [Lit "❌ Error: Either --files or --directory must be specified"];;
     print [Lit (argparse_help w)];;
     raise (SystemExit 1)
   else mret tt);;
  let files_to_upload := [] in
  files_to_upload ←
    (if has_files then
       l ← expand_file_patterns files; mret (files_to_upload ++ l)
     else mret files_to_upload);
  files_to_upload ←
    (if has_directory then
       dir_files ← get_files_from_directory (default "" (arg_directory args))
                     (arg_pattern args) (arg_recursive args);
       mret (files_to_upload ++ dir_files)
     else mret files_to_upload);
  let files_to_upload := fromkeys files_to_upload in
  match files_to_upload with
  | [] =>
      print [Lit "❌ No files found to upload"];;
      raise (SystemExit 1)
  | _ :: _ => mret files_to_upload
  end.

Definition main (args : Args) : IO -> (unit + exn) * IO :=
  fun io0 =>
    match gather_files args {| self := tt; io := io0 |} with
    | (inr e, p0) => (inr e, io p0)
    | (inl files_to_upload, p0) =>
        match __init__ (arg_bucket args) (arg_workers args) (arg_prefix args)
                (arg_profile args) (io p0) with
        | (inr e, io1) => (inr e, io1)
        | (inl uploader, io1) =>
            let '(r, p) :=
              try_except
                (results ← upload_files files_to_upload;
                 failed ← getitem_int results "failed";
                 if 0 <? failed then
                   print [Lit "
⚠️  Some uploads failed. Check the errors above."];;
                   raise (SystemExit 1)
                 else
                   success ← getitem_int results "success";
                   print [Lit "
🎉 All "; FInt success; Lit " files uploaded successfully!"];;
                   raise (SystemExit 0))
                (fun e =>
                   if is_KeyboardInterrupt e then Some (
                     print [Lit "

⚠️  Upload interrupted by user"];;
                     raise (SystemExit 1))
                   else if is_Exception e then Some (
                     print [Lit "
❌ Unexpected error: "; Lit (str_exn e)];;
                     raise (SystemExit 1))
                   else None)
                {| self := uploader; io := io1 |} in
            (r, io p)
        end
    end.

End WithWorld.

End Uploader.

(** ** Vocabulary of the statements *)

(** The progress state held by an object: the counters of completed
    transfers and the size of the work list. *)
Class Tracker (Obj : Type) := {
  succeeded : Obj -> Z;
  failed : Obj -> Z;
  total : Obj -> Z
}.

#[global] Instance downloader_tracker : Tracker Downloader.S3Downloader := {|
  succeeded := Downloader.downloaded_count;
  failed := Downloader.failed_count;
  total := Downloader.total_files
|}.

#[global] Instance uploader_tracker : Tracker Uploader.S3Uploader := {|
  succeeded := Uploader.uploaded_count;
  failed := Uploader.failed_count;
  total := Uploader.total_files
|}.

(** [done / t * 100], as the progress expressions compute it from
    [done = succeeded + failed]. *)
Definition percent (done t : Z) : Float.float :=
  Float.mul (Float.div_int done t) (Float.of_int 100).

(** The percentage shown by a progress line, [f"... [{progress:5.1f}%] ..."]. *)
Definition progress_of_line (line : fstring) : option Float.float :=
  match line with
  | Lit _ :: FFloat 5 1 x :: _ => Some x
  | _ => None
  end.

(** Calls made from pool workers raise subclasses of [Exception] only:
    [KeyboardInterrupt] is delivered to the main thread, and nothing in a
    worker calls [sys.exit]. *)
Definition worker_exceptions (w : World) : Prop :=
  (forall i cmd t e, sys_run w (Worker i) cmd t = Raises e -> is_Exception e = true)
  /\ (forall i path e, sys_mkdir w (Worker i) path = Some e -> is_Exception e = true).

(** A finished future holds a returned outcome. *)
Definition returned (f : @ThreadPool.future string outcome) : option outcome :=
  match f with
  | (_, inl o) => Some o
  | (_, inr _) => None
  end.

Definition is_success (o : outcome) : bool := o.1.1.
Definition is_failure (o : outcome) : bool := negb o.1.1.

(** The error entry the collecting loop appends for a failed outcome. *)
Definition entry_of (o : outcome) : error_entry :=
  {| file := o.1.2; error := o.2 |}.

(** The three-key and four-key summaries. *)
Definition summary3 (s f : Z) (errors : list error_entry) : gmap string value :=
  <["success" := VInt s]> (<["failed" := VInt f]> (<["errors" := VErrors errors]> ∅)).

Definition summary4 (s f : Z) (errors : list error_entry) (elapsed : Float.float)
  : gmap string value :=
  <["success" := VInt s]> (<["failed" := VInt f]> (<["errors" := VErrors errors]>
    (<["total_time" := VFloat elapsed]> ∅))).

(** How the outside answers one transfer: the child process exits with
    status 0, or with another status and the diagnostic the script keeps,
    or a call of the attempt raises. *)
Inductive attempt :=
| Exit0
| ExitNonzero (error_msg : string)
| Raised (e : exn).

(** The outcome a per-file function builds from an attempt: [file_ok] is
    the name it reports after a completed process, [file_exc] the name it
    reports from an [except] clause. *)
Definition outcome_of (timeout_msg file_ok file_exc : string) (a : attempt) : outcome :=
  match a with
  | Exit0 => (true, file_ok, None)
  | ExitNonzero error_msg => (false, file_ok, Some error_msg)
  | Raised e =>
      if is_TimeoutExpired e then (false, file_exc, Some timeout_msg)
      else (false, file_exc, Some (str_exn e))
  end.

(** The child processes an attempt starts. *)
Definition started (a : option exn) (c : call) : list call :=
  match a with
  | Some _ => []
  | None => [c]
  end.

(** Where [_download_file] writes [s3_key], and the command it runs. *)
Definition download_target (d : Downloader.S3Downloader) (s3_key : string) : Path :=
  Pathlib.truediv (Downloader.output_dir d) (Pathlib.name (Pathlib.of_str s3_key)).

Definition download_command (d : Downloader.S3Downloader) (s3_key : string) : list string :=
  Downloader._build_aws_download_command d s3_key (download_target d s3_key).

Definition download_mkdir (w : World) (d : Downloader.S3Downloader) (i : nat)
    (s3_key : string) : option exn :=
  sys_mkdir w (Worker i) (Pathlib.to_str (Pathlib.parent (download_target d s3_key))).

Definition download_attempt (w : World) (d : Downloader.S3Downloader) (i : nat)
    (s3_key : string) : attempt :=
  match download_mkdir w d i s3_key with
  | Some e => Raised e
  | None =>
      match sys_run w (Worker i) (download_command d s3_key) 3600 with
      | CompletedProcess returncode out err =>
          if returncode =? 0 then Exit0
          else ExitNonzero (or_str (Str.strip err) (Str.strip out))
      | Raises e => Raised e
      end
  end.

(** The command [_upload_file] runs for [local_file]. *)
Definition upload_command (u : Uploader.S3Uploader) (local_file : string) : list string :=
  Uploader._build_aws_command u (Pathlib.to_str (Pathlib.of_str local_file))
    (Uploader.make_s3_key u (Pathlib.of_str local_file)).

Definition upload_attempt (w : World) (u : Uploader.S3Uploader) (i : nat)
    (local_file : string) : attempt :=
  match sys_run w (Worker i) (upload_command u local_file) 3600 with
  | CompletedProcess returncode out err =>
      if returncode =? 0 then Exit0
      else ExitNonzero (or_str (Str.strip err) (Str.strip out))
  | Raises e => Raised e
  end.

Definition download_timeout_msg : string := "Download timeout (1 hour exceeded)".
Definition upload_timeout_msg : string := "Upload timeout (5 minutes exceeded)".

(** The outcome of a submitted task, read off the world. *)
Definition download_result (w : World) (d : Downloader.S3Downloader)
    (t : nat * string) : outcome :=
  outcome_of download_timeout_msg t.2 t.2 (download_attempt w d t.1 t.2).

Definition upload_result (w : World) (u : Uploader.S3Uploader)
    (t : nat * string) : outcome :=
  outcome_of upload_timeout_msg (Pathlib.to_str (Pathlib.of_str t.2)) t.2
    (upload_attempt w u t.1 t.2).

(** The child processes a submitted task starts. *)
Definition download_calls (w : World) (d : Downloader.S3Downloader)
    (t : nat * string) : list call :=
  started (download_mkdir w d t.1 t.2)
    {| call_by := Worker t.1; call_argv := download_command d t.2; call_timeout := 3600 |}.

Definition upload_calls (u : Uploader.S3Uploader) (t : nat * string) : list call :=
  [{| call_by := Worker t.1; call_argv := upload_command u t.2; call_timeout := 3600 |}].

(** The fields a transfer reads; they are assigned in [__init__] only. *)
Definition download_config (d d' : Downloader.S3Downloader) : Prop :=
  Downloader.bucket_name d = Downloader.bucket_name d'
  /\ Downloader.output_dir d = Downloader.output_dir d'
  /\ Downloader.aws_profile d = Downloader.aws_profile d'
  /\ Downloader.max_workers d = Downloader.max_workers d'.

Definition upload_config (u u' : Uploader.S3Uploader) : Prop :=
  Uploader.bucket_name u = Uploader.bucket_name u'
  /\ Uploader.s3_prefix u = Uploader.s3_prefix u'
  /\ Uploader.aws_profile u = Uploader.aws_profile u'
  /\ Uploader.max_workers u = Uploader.max_workers u'.

(** The future of a task that returned [result t]. *)
Definition future_of (result : nat * string -> outcome) (t : nat * string)
  : @ThreadPool.future string outcome := (t, inl (result t)).

(** The percentages a run over [n] items shows, in order: [1/n*100],
    [2/n*100], ..., [n/n*100]. *)
Definition run_percentages (n : nat) : list Float.float :=
  (fun k => percent (Z.of_nat k + 1) (Z.of_nat n)) <$> seq 0 n.

(** [sys.maxsize]: no list is longer. *)
Definition sys_maxsize : Z := 2 ^ 63 - 1.

(** The quotient [done / t] is within the range of a float: the division
    does not raise [OverflowError]. *)
Definition in_float_range (done t : Z) : Prop :=
  Float.is_infinite (Float.div_int done t) = false.

(** What one call of a per-file function does to the progress state when
    the total is not zero and the counters it leaves have a quotient
    within the range of a float: it returns an outcome, moves exactly
    one counter by one, and prints one progress line computed from the
    counters it leaves. *)
Definition completes_one {Obj} `{Tracker Obj}
    (fn : nat -> string -> M (Proc Obj) outcome) : Prop :=
  forall i x p, total (self p) <> 0 ->
    in_float_range (succeeded (self p) + failed (self p) + 1) (total (self p)) ->
    exists o line p',
      fn i x p = (inl o, p')
      /\ total (self p') = total (self p)
      /\ succeeded (self p') = succeeded (self p) + (if is_success o then 1 else 0)
      /\ failed (self p') = failed (self p) + (if is_success o then 0 else 1)
      /\ stdout (io p') = stdout (io p) ++ [line]
      /\ progress_of_line line
         = Some (percent (succeeded (self p') + failed (self p')) (total (self p')))
      /\ clock_reads (io p') = clock_reads (io p).

(** A dispatch run over [n] items whose submitted tasks have the outcomes
    [results] returned a four-key summary that accounts for every item:
    [outs], the outcomes in the order collected, rearranges [results];
    [success] and [failed] count the successes and failures among them and
    add up to [n]; the error list holds one entry per failure, each with a
    reason. *)
Definition counted_run {Obj} (r : (gmap string value + exn) * Proc Obj)
    (results : list outcome) (n : nat) : Prop :=
  exists outs s f errors elapsed p',
    r = (inl (summary4 s f errors elapsed), p')
    /\ outs ≡ₚ results
    /\ length outs = n
    /\ s = Z.of_nat (length (filter is_success outs))
    /\ f = Z.of_nat (length (filter is_failure outs))
    /\ s + f = Z.of_nat n
    /\ errors = entry_of <$> filter is_failure outs
    /\ f = Z.of_nat (length errors)
    /\ Forall (fun e => is_Some (error e)) errors.

(** The object [main()] constructs from its arguments. *)
Definition downloader_of_args (args : Downloader.Args) : Downloader.S3Downloader :=
  {| Downloader.bucket_name := Downloader.arg_bucket args;
     Downloader.max_workers := Downloader.arg_workers args;
     Downloader.output_dir := Pathlib.of_str (Downloader.arg_output args);
     Downloader.aws_profile := Downloader.arg_profile args;
     Downloader.downloaded_count := 0; Downloader.failed_count := 0;
     Downloader.total_files := 0 |}.

(** The order in which the submitted tasks reach their counter update. *)
Definition completion_sequence (workers : nat) (w : World) (items : list string)
  : list (nat * string) :=
  ThreadPool.schedule (length (ThreadPool.submit_all items)) workers (lock_order w)
    (ThreadPool.submit_all items).

(** The state after the first [k] completions of a pool run entered in [p0]. *)
Definition after_completions {Obj} (fn : nat -> string -> M (Proc Obj) outcome)
    (order : list (nat * string)) (p0 : Proc Obj) (k : nat) : Proc Obj :=
  (ThreadPool.run_tasks fn (take k order) p0).2.

(** The progress state along a pool run over [items] entered in [p0]:
    every item completes; after [k] completions the counters add up to
    [k], within the total, and reach the total exactly when all items have
    completed; each completion adds one to exactly one counter; the state
    the run ends in is the state after the last completion. *)
Definition tracked_run {Obj} `{Tracker Obj} (fn : nat -> string -> M (Proc Obj) outcome)
    (workers : nat) (w : World) (items : list string) (p0 : Proc Obj) : Prop :=
  let order := completion_sequence workers w items in
  let state := after_completions fn order p0 in
  length order = length items
  /\ (ThreadPool.run_pool fn workers (lock_order w) (completion_order w) items p0).2
     = state (length items)
  /\ (forall k, (k <= length items)%nat ->
        total (self (state k)) = total (self p0)
        /\ 0 <= succeeded (self (state k))
        /\ 0 <= failed (self (state k))
        /\ succeeded (self (state k)) + failed (self (state k)) = Z.of_nat k
        /\ succeeded (self (state k)) + failed (self (state k)) <= total (self (state k))
        /\ (succeeded (self (state k)) + failed (self (state k)) = total (self (state k))
            <-> k = length items))
  /\ (forall k, (k < length items)%nat ->
        (succeeded (self (state (S k))) = succeeded (self (state k)) + 1
         /\ failed (self (state (S k))) = failed (self (state k)))
        \/ (succeeded (self (state (S k))) = succeeded (self (state k))
            /\ failed (self (state (S k))) = failed (self (state k)) + 1)).

(** The dispatch that ended with [r] started its pool in a state [p0]
    with both counters at zero and the total at the number of items; the
    progress state then went as [tracked_run] says; and the dispatch
    returned with the object in the state after the last completion. *)
Definition tracked_dispatch {Obj} `{Tracker Obj}
    (fn : nat -> string -> M (Proc Obj) outcome) (workers : nat) (w : World)
    (items : list string) (r : (gmap string value + exn) * Proc Obj) : Prop :=
  exists p0,
    succeeded (self p0) = 0 /\ failed (self p0) = 0
    /\ total (self p0) = Z.of_nat (length items)
    /\ tracked_run fn workers w items p0
    /\ self r.2
       = self (after_completions fn (completion_sequence workers w items) p0 (length items)).

(** What a dispatch run over [n] items, entered in [p] and ending in the
    state of [r], adds to the progress lines: the percentages [k/n*100]
    for [k = 1..n] in this order, all of them finite; the first is
    [1/n*100] and not zero, and the last is the float 100, shown as
    [100.0]. *)
Definition shown_percentages {Obj} (r : (gmap string value + exn) * Proc Obj)
    (p : Proc Obj) (n : nat) : Prop :=
  omap progress_of_line (stdout (io r.2))
  = omap progress_of_line (stdout (io p)) ++ run_percentages n
  /\ length (run_percentages n) = n
  /\ Forall (fun x => Float.is_finite x = true) (run_percentages n)
  /\ head (run_percentages n) = Some (percent 1 (Z.of_nat n))
  /\ Float.is_zero (percent 1 (Z.of_nat n)) = false
  /\ last (run_percentages n) = Some (percent (Z.of_nat n) (Z.of_nat n))
  /\ percent (Z.of_nat n) (Z.of_nat n) = Float.of_int 100
  /\ Fmt.render_frag (FFloat 5 1 (percent (Z.of_nat n) (Z.of_nat n))) = "100.0".

(** [n] is the number of tenths nearest to the magnitude of [x], the even
    one of the two when [x] lies half-way. *)
Definition nearest_tenths (x : Float.float) (n : Z) : Prop :=
  let '(a, b) := Float.frac x in
  2 * Z.abs (n * b - 10 * a) <= b
  /\ (2 * Z.abs (n * b - 10 * a) = b -> Z.even n = true).

(** [{x:5.1f}] shows [x] to the nearest tenth: the text is the sign, the
    decimal numeral of the whole tenths, a point and one digit,
    right-aligned in five columns. *)
Definition shown_to_one_decimal (x : Float.float) : Prop :=
  exists n,
    0 <= n
    /\ nearest_tenths x n
    /\ Fmt.render_frag (FFloat 5 1 x)
       = Fmt.pad_left " " 5
           ((if Float.sign x then "-" else "")
            +:+ Str.of_int (n / 10) +:+ "." +:+ Str.of_int (n mod 10)).

(** A call of a per-file function made in state [p] returned a failure
    for [item] with a reason, and counted it as a failure. *)
Definition caught {Obj} `{Tracker Obj} (r : (outcome + exn) * Proc Obj) (p : Proc Obj)
    (item : string) : Prop :=
  exists reason p',
    r = (inl (false, item, Some reason), p')
    /\ failed (self p') = failed (self p) + 1
    /\ succeeded (self p') = succeeded (self p).

(** [fn] catches what the attempt of an item raises: called in a state
    whose total is not zero and whose next quotient is within the range
    of a float, for an item whose attempt raises a subclass of
    [Exception], it returns a failure for the item and counts it. *)
Definition catches {Obj} `{Tracker Obj} (fn : nat -> string -> M (Proc Obj) outcome)
    (attempt_of : Obj -> nat -> string -> attempt) : Prop :=
  forall i item e p,
    is_Exception e = true ->
    total (self p) <> 0 ->
    in_float_range (succeeded (self p) + failed (self p) + 1) (total (self p)) ->
    attempt_of (self p) i item = Raised e ->
    caught (fn i item p) p item.

(** A dispatch run over [items] returned its summary and accounts for
    every item; every item whose attempt raised is listed among the
    errors, with a reason. *)
Definition failures_recorded {Obj} (r : (gmap string value + exn) * Proc Obj)
    (items : list string) (raised : nat -> string -> Prop) : Prop :=
  exists s f errors elapsed p',
    r = (inl (summary4 s f errors elapsed), p')
    /\ s + f = Z.of_nat (length items)
    /\ f = Z.of_nat (length errors)
    /\ (forall i item, items !! i = Some item -> raised i item ->
          exists reason, {| file := item; error := Some reason |} ∈ errors).

(** A dispatch run over [items] entered in [p] returned its summary and
    accounts for every item; every child process it started was given
    3600 seconds; every item whose process timed out is counted as a
    failure and listed among the errors with the reason [msg], which
    mentions a timeout. *)
Definition timeouts_recorded {Obj} (r : (gmap string value + exn) * Proc Obj)
    (p : Proc Obj) (items : list string) (timed_out : nat -> string -> Prop)
    (msg : string) : Prop :=
  exists s f errors elapsed p' calls,
    r = (inl (summary4 s f errors elapsed), p')
    /\ s + f = Z.of_nat (length items)
    /\ f = Z.of_nat (length errors)
    /\ spawned (io p') = spawned (io p) ++ calls
    /\ Forall (fun c => call_timeout c = 3600) calls
    /\ Str.contains "timeout" msg = true
    /\ (forall i item, items !! i = Some item -> timed_out i item ->
          1 <= f /\ {| file := item; error := Some msg |} ∈ errors).

(** The process of the [i]-th download, of [key], exceeds its timeout. *)
Definition download_times_out (w : World) (d : Downloader.S3Downloader) (i : nat)
    (key : string) : Prop :=
  download_mkdir w d i key = None
  /\ exists msg,
       sys_run w (Worker i) (download_command d key) 3600 = Raises (TimeoutExpired msg).

(** The process of the [i]-th upload, of [f], exceeds its timeout. *)
Definition upload_times_out (w : World) (u : Uploader.S3Uploader) (i : nat)
    (f : string) : Prop :=
  exists msg,
    sys_run w (Worker i) (upload_command u f) 3600 = Raises (TimeoutExpired msg).

(** [os.path.isfile] does not tell a path from the way [pathlib] writes
    it: dropping ["."] components and repeated or trailing slashes from
    the name of a regular file gives a name of that file. *)
Definition isfile_normalized (w : World) : Prop :=
  forall f, sys_isfile w f = true ->
            sys_isfile w (Pathlib.to_str (Pathlib.of_str f)) = true.

(** What [upload_files file_list], entered in [p] with result [r], does
    with the paths that are not regular files: every child process it
    starts has a regular file as its source, every error entry names a
    regular file, and the run is sized by the regular files alone.  With
    no regular file it returns the three-key zero summary, starts nothing
    and leaves the object as it was; otherwise the total, the counts and
    the percentages are those of a run over the regular files. *)
Definition upload_filtered (w : World) (r : (gmap string value + exn) * Proc Uploader.S3Uploader)
    (p : Proc Uploader.S3Uploader) (file_list : list string) : Prop :=
  let valid := filter (sys_isfile w) file_list in
  exists res p' calls errors,
    r = (inl res, p')
    /\ res !! "errors" = Some (VErrors errors)
    /\ spawned (io p') = spawned (io p) ++ calls
    /\ Forall (fun c => exists src, call_argv c !! 3%nat = Some src
                                   /\ sys_isfile w src = true) calls
    /\ Forall (fun e => sys_isfile w (file e) = true) errors
    /\ (valid = [] -> res = summary3 0 0 [] /\ calls = [] /\ self p' = self p)
    /\ (valid <> [] ->
        exists s f elapsed,
          res = summary4 s f errors elapsed
          /\ s + f = Z.of_nat (length valid)
          /\ f = Z.of_nat (length errors)
          /\ Uploader.total_files (self p') = Z.of_nat (length valid)
          /\ omap progress_of_line (stdout (io p'))
             = omap progress_of_line (stdout (io p)) ++ run_percentages (length valid)).

(** [path] is left out of the run that ended with [r] from [p]: no error
    entry names it, and no child process the run started has it as its
    source (the fourth word of [aws s3 cp <source> <destination>]). *)
Definition skipped (r : (gmap string value + exn) * Proc Uploader.S3Uploader)
    (p : Proc Uploader.S3Uploader) (path : string) : Prop :=
  (forall res p' errors,
     r = (inl res, p') -> res !! "errors" = Some (VErrors errors) ->
     path ∉ file <$> errors)
  /\ (forall c, c ∈ spawned (io r.2) ->
        c ∈ spawned (io p) \/ call_argv c !! 3%nat <> Some path).

(** [s] holds no character [sep]. *)
Fixpoint free_of (sep : ascii) (s : string) : bool :=
  match s with
  | EmptyString => true
  | String c s' => negb (Ascii.eqb c sep) && free_of sep s'
  end.

(** The encoding of one character as [Str.chars] cuts it: a single byte
    below 0x80, or bytes from 0x80 on, none of which is a space. *)
Definition encoded_char (ch : string) : Prop :=
  match ch with
  | EmptyString => False
  | String c r => if Str.is_ascii c then r = "" else free_of " " ch = true
  end.




(** A line of [aws s3 ls --recursive]: date, time, the size right-aligned
    behind [pad] further spaces, and the key. *)
Definition ls_line (date time : string) (pad : nat) (size key : string) : string :=
  date +:+ " " +:+ time +:+ " " +:+ Str.repeat_char " " pad +:+ size +:+ " " +:+ key.

(** ** A sample run *)

(** [aws --version] and the listing succeed, the listing is empty; task 0
    transfers, task 1 times out, every other task is refused. *)
Definition sample_world : World := {|
  sys_run := fun who cmd t =>
    match who with
    | MainThread =>
        match cmd with
        | ["aws"; "--version"] => CompletedProcess 0 "aws-cli/2.15.0" ""
        | _ => CompletedProcess 0 "" ""
        end
    | Worker 0 => CompletedProcess 0 "" ""
    | Worker 1 => Raises (TimeoutExpired "timed out after 3600 seconds")
    | Worker _ => CompletedProcess 1 "" "fatal error: Access Denied"
    end;
  sys_mkdir := fun _ _ => None;
  sys_isfile := fun f => String.eqb f "a.txt" || String.eqb f "b.txt" || String.eqb f "c.txt";
  sys_exists := fun _ => true;
  sys_glob := fun _ => [];
  sys_path_glob := fun _ _ _ => inl [];
  sys_fnmatch := fun _ _ => true;
  sys_time := fun n => Float.of_int (Z.of_nat n);
  argparse_help := "usage: s3_concurrent_uploader.py";
  lock_order := [1; 0]%nat;
  completion_order := [2; 0]%nat
|}.

Definition sample_downloader : Proc Downloader.S3Downloader := {|
  self := {| Downloader.bucket_name := "my-bucket"; Downloader.max_workers := 2;
             Downloader.output_dir := Pathlib.of_str "./downloads";
             Downloader.aws_profile := None;
             Downloader.downloaded_count := 0; Downloader.failed_count := 0;
             Downloader.total_files := 0 |};
  io := IO0
|}.

Definition sample_uploader : Proc Uploader.S3Uploader := {|
  self := {| Uploader.bucket_name := "my-bucket"; Uploader.max_workers := 2;
             Uploader.s3_prefix := "uploads"; Uploader.aws_profile := None;
             Uploader.uploaded_count := 0; Uploader.failed_count := 0;
             Uploader.total_files := 0 |};
  io := IO0
|}.

Definition sample_args : Downloader.Args := {|
  Downloader.arg_bucket := "my-bucket";
  Downloader.arg_output := "./downloads";
  Downloader.arg_prefix := "";
  Downloader.arg_pattern := None;
  Downloader.arg_workers := 5;
  Downloader.arg_profile := None
|}.

(** The sample objects as a pool run over three keys, or over four files,
    finds them. *)
Definition sample_download_run : Proc Downloader.S3Downloader :=
  {| self := Downloader.set_total_files 3 (self sample_downloader); io := IO0 |}.

Definition sample_upload_run : Proc Uploader.S3Uploader :=
  {| self := Uploader.set_total_files 4 (self sample_uploader); io := IO0 |}.


(** A listing of three objects and a line that is none; the second key
    is [b  c.txt], with two spaces. *)
Definition sample_listing : string :=
  ls_line "2023-12-01" "10:30:45" 4 "123456" "path/to/a.txt" +:+ String Str.newline
  (ls_line "2023-12-01" "10:30:46" 8 "12" "b  c.txt" +:+ String Str.newline
  ("bad line" +:+ String Str.newline
  (ls_line "2023-12-02" "09:00:00" 7 "512" "d.txt" +:+ String Str.newline ""))).

(** [sample_world] with that listing. *)
Definition sample_listing_world : World := {|
  sys_run := fun who cmd t =>
    match who, cmd with
    | MainThread, ["aws"; "s3"; "ls"; _; "--recursive"] => CompletedProcess 0 sample_listing ""
    | _, _ => sys_run sample_world who cmd t
    end;
  sys_mkdir := sys_mkdir sample_world;
  sys_isfile := sys_isfile sample_world;
  sys_exists := sys_exists sample_world;
  sys_glob := sys_glob sample_world;
  sys_path_glob := sys_path_glob sample_world;
  sys_fnmatch := sys_fnmatch sample_world;
  sys_time := sys_time sample_world;
  argparse_help := argparse_help sample_world;
  lock_order := lock_order sample_world;
  completion_order := completion_order sample_world
|}.

Definition sample_upload_args : Uploader.Args := {|
  Uploader.arg_bucket := "my-bucket";
  Uploader.arg_files := Some ["missing.txt"];
  Uploader.arg_directory := None;
  Uploader.arg_pattern := "*";
  Uploader.arg_recursive := false;
  Uploader.arg_workers := 5;
  Uploader.arg_prefix := "";
  Uploader.arg_profile := None
|}.

Definition sample_keys : list string := ["logs/a.txt"; "logs/b.txt"; "c.txt"].
Definition sample_files : list string := ["a.txt"; "missing.txt"; "b.txt"; "c.txt"].

(** ** Samples of text *)

(** The string of the given bytes. *)
Definition utf8 (bytes : list Z) : string :=
  string_of_list_ascii ((fun b => ascii_of_nat (Z.to_nat b)) <$> bytes).

(** U+00A0, U+0085, U+2028 and U+3000, which are white space, and
    U+200B, which is not. *)
Definition no_break_space : string := utf8 [194; 160].
Definition next_line : string := utf8 [194; 133].
Definition line_separator : string := utf8 [226; 128; 168].
Definition ideographic_space : string := utf8 [227; 128; 128].
Definition zero_width_space : string := utf8 [226; 128; 139].

(** ** Samples of floating-point arithmetic *)

(** [float(z)] by the Standard Library's IEEE 754 operations. *)
Definition binary64_of_int (z : Z) : spec_float := binary_normalize 53 1024 z 0 false.

(** The same float, bit for bit. *)
Definition same_float (x y : spec_float) : bool :=
  match x, y with
  | S754_zero a, S754_zero b | S754_infinity a, S754_infinity b => Bool.eqb a b
  | S754_nan, S754_nan => true
  | S754_finite a m e, S754_finite b m' e' => Bool.eqb a b && (m =? m')%positive && (e =? e')
  | _, _ => false
  end.

(** The pairs of integers from [-n] to [n]. *)
Definition sample_pairs (n : nat) : list (Z * Z) :=
  a ← seq 0 (2 * n + 1); b ← seq 0 (2 * n + 1);
  [(Z.of_nat a - Z.of_nat n, Z.of_nat b - Z.of_nat n)].

(** ** Vocabulary of the further properties *)

(** [p] after it printed [lines]. *)
Definition logged {Obj} (p : Proc Obj) (lines : list fstring) : Proc Obj :=
  {| self := self p;
     io := {| stdout := stdout (io p) ++ lines;
              spawned := spawned (io p);
              clock_reads := clock_reads (io p) |} |}.

(** [p] after it printed [lines] and started the child processes [calls]. *)
Definition called {Obj} (p : Proc Obj) (lines : list fstring) (calls : list call) : Proc Obj :=
  {| self := self p;
     io := {| stdout := stdout (io p) ++ lines;
              spawned := spawned (io p) ++ calls;
              clock_reads := clock_reads (io p) |} |}.

(** The call [_check_aws_cli] makes, and the call [_list_s3_files] makes
    for a prefix. *)
Definition version_call : call :=
  {| call_by := MainThread; call_argv := ["aws"; "--version"]; call_timeout := 10 |}.

Definition list_call (d : Downloader.S3Downloader) (s3_prefix : string) : call :=
  {| call_by := MainThread;
     call_argv := Downloader._build_aws_list_command d s3_prefix;
     call_timeout := 1800 |}.

(** The process after a successful [_check_aws_cli]. *)
Definition checked (io0 : IO) (version : string) : IO :=
  {| stdout := stdout io0 ++ [[Lit "✓ AWS CLI detected: "; Lit (Str.strip version)]];
     spawned := spawned io0 ++ [version_call];
     clock_reads := clock_reads io0 |}.

(** The first line [download_files] prints. *)
Definition listing_line (d : Downloader.S3Downloader) (s3_prefix : string) : fstring :=
  [Lit "🔍 Listing files in s3://"; Lit (Downloader.bucket_name d); Lit "/";
   Lit (or_str s3_prefix "")].

(** [aws --version] does not exit with status 0: it exits with another
    status, or the call raises an [Exception]. *)
Definition cli_check_fails (w : World) : Prop :=
  match sys_run w MainThread ["aws"; "--version"] 10 with
  | CompletedProcess returncode _ _ => returncode <> 0
  | Raises e => is_Exception e = true
  end.

(** Likewise for the [aws s3 ls] of [d] under a prefix. *)
Definition listing_fails (w : World) (d : Downloader.S3Downloader) (s3_prefix : string) : Prop :=
  match sys_run w MainThread (Downloader._build_aws_list_command d s3_prefix) 1800 with
  | CompletedProcess returncode _ _ => returncode <> 0
  | Raises e => is_Exception e = true
  end.

(** [main()], started in [io0], ended with [sys.exit(code)] after it had
    started the child processes [calls], these and no other. *)
Definition exits_after (r : (unit + exn) * IO) (io0 : IO) (code : Z) (calls : list call)
  : Prop :=
  r.1 = inr (SystemExit code) /\ spawned r.2 = spawned io0 ++ calls.

(** [main()], started in [io0], ended with [sys.exit(0)] when every one
    of [results] is a success and with [sys.exit(1)] otherwise, after it
    had started the child processes [setup] and then those of the [tasks],
    each task once, in some order. *)
Definition exits_by_failures (r : (unit + exn) * IO) (io0 : IO) (setup : list call)
    (results : list outcome) (tasks : list (nat * string))
    (calls : nat * string -> list call) : Prop :=
  r.1 = inr (SystemExit (if forallb is_success results then 0 else 1))
  /\ exists order,
       order ≡ₚ tasks /\ spawned r.2 = spawned io0 ++ setup ++ (order ≫= calls).

(** The uploader [main()] constructs from its arguments. *)
Definition uploader_of_args (args : Uploader.Args) : Uploader.S3Uploader :=
  {| Uploader.bucket_name := Uploader.arg_bucket args;
     Uploader.max_workers := Uploader.arg_workers args;
     Uploader.s3_prefix := Str.rstrip_slash (Uploader.arg_prefix args);
     Uploader.aws_profile := Uploader.arg_profile args;
     Uploader.uploaded_count := 0; Uploader.failed_count := 0;
     Uploader.total_files := 0 |}.

(** The key a line of the listing stands for: its fields from the fourth
    on, joined by single spaces; a line of fewer than four fields stands
    for none. *)
Definition key_of_line (line : string) : option string :=
  let parts := Str.split line in
  if (4 <=? length parts)%nat then Some (Str.join " " (drop 3 parts)) else None.

(** The pattern test of the listing, on the basename of the key; there is
    none without a pattern, nor with the empty one. *)
Definition matches (w : World) (pattern : option string) (key : string) : bool :=
  match pattern with
  | Some pat => negb (Str.truthy pat) || sys_fnmatch w (Pathlib.name (Pathlib.of_str key)) pat
  | None => true
  end.


(** An argument of [--files] is a glob pattern when it holds [*] or [?];
    it then stands for what [glob.glob] finds, and otherwise for itself. *)
Definition has_wildcard (pattern : string) : bool :=
  Str.contains "*" pattern || Str.contains "?" pattern.

Definition expansion (w : World) (pattern : string) : list string :=
  if has_wildcard pattern then sys_glob w pattern else [pattern].

(** A glob pattern that matches nothing, and the warning printed for it. *)
Definition unmatched (w : World) (pattern : string) : bool :=
  has_wildcard pattern && bool_decide (sys_glob w pattern = []).

Definition unmatched_warning (pattern : string) : fstring :=
  [Lit "⚠️  Warning: No files matched pattern: "; Lit pattern].

(** What [get_files_from_directory] returns or raises. *)
Definition directory_files (w : World) (directory pattern : string) (recursive : bool)
  : list string + exn :=
  let dir := Pathlib.to_str (Pathlib.of_str directory) in
  if sys_exists w dir then
    match sys_path_glob w recursive dir pattern with
    | inl files => inl (Pathlib.to_str <$> filter (fun f => sys_isfile w (Pathlib.to_str f)) files)
    | inr e => inr e
    end
  else inl [].

(** The value of [files_to_upload] in [main()] after the duplicates are
    removed: the expansions of [--files], then the files of
    [--directory]. *)
Definition found_files (w : World) (args : Uploader.Args) : list string + exn :=
  let named := default [] (Uploader.arg_files args) ≫= expansion w in
  if opt_truthy (Uploader.arg_directory args) then
    match directory_files w (default "" (Uploader.arg_directory args))
            (Uploader.arg_pattern args) (Uploader.arg_recursive args) with
    | inl dir_files => inl (Uploader.fromkeys (named ++ dir_files))
    | inr e => inr e
    end
  else inl (Uploader.fromkeys named).

(** [f] is a regular file of the directory of [--directory]: the
    directory is named and exists, and [f] is the text of a path that
    [glob], or [rglob] under [--recursive], finds in it for [--pattern]
    and that is a regular file. *)
Definition in_directory (w : World) (args : Uploader.Args) (f : string) : Prop :=
  let dir := Pathlib.to_str (Pathlib.of_str (default "" (Uploader.arg_directory args))) in
  opt_truthy (Uploader.arg_directory args) = true
  /\ sys_exists w dir = true
  /\ exists paths path,
       sys_path_glob w (Uploader.arg_recursive args) dir (Uploader.arg_pattern args)
       = inl paths
       /\ path ∈ paths
       /\ sys_isfile w (Pathlib.to_str path) = true
       /\ f = Pathlib.to_str path.

(** How the part of [main()] before the uploader is constructed ends:
    with the files to upload, or with [sys.exit(1)] when there are none. *)
Definition gathered (w : World) (args : Uploader.Args) : list string + exn :=
  match found_files w args with
  | inl [] => inr (SystemExit 1)
  | r => r
  end.

(** The dispatch that ended with [r] from [p] raised the [ValueError] of
    [ThreadPoolExecutor] over [n] items: it had set the total and reset
    the counters, had read the clock once and had started nothing. *)
Definition pool_refused {Obj} `{Tracker Obj} (r : (gmap string value + exn) * Proc Obj)
    (p : Proc Obj) (n : nat) : Prop :=
  r.1 = inr (ValueError "max_workers must be greater than 0")
  /\ spawned (io r.2) = spawned (io p)
  /\ clock_reads (io r.2) = S (clock_reads (io p))
  /\ total (self r.2) = Z.of_nat n
  /\ succeeded (self r.2) = 0
  /\ failed (self r.2) = 0.

(** The call of a per-file function that ended with [r] from [p] raised
    [ZeroDivisionError]: it printed nothing, counted a failure (twice
    when the child process had failed), and kept a success it had
    counted. *)
Definition division_by_zero {Obj} `{Tracker Obj} (r : (outcome + exn) * Proc Obj)
    (p : Proc Obj) : Prop :=
  r.1 = inr ZeroDivisionError
  /\ stdout (io r.2) = stdout (io p)
  /\ failed (self p) + 1 <= failed (self r.2)
  /\ succeeded (self p) <= succeeded (self r.2)
  /\ total (self r.2) = 0.

(** [w] with other picks of the thread scheduler. *)
Definition with_schedule (w : World) (lock completion : list nat) : World := {|
  sys_run := sys_run w;
  sys_mkdir := sys_mkdir w;
  sys_isfile := sys_isfile w;
  sys_exists := sys_exists w;
  sys_glob := sys_glob w;
  sys_path_glob := sys_path_glob w;
  sys_fnmatch := sys_fnmatch w;
  sys_time := sys_time w;
  argparse_help := argparse_help w;
  lock_order := lock;
  completion_order := completion
|}.

(** [p] with an object of [n] workers. *)
Definition downloader_with_workers (n : Z) (p : Proc Downloader.S3Downloader)
  : Proc Downloader.S3Downloader :=
  {| self := {| Downloader.bucket_name := Downloader.bucket_name (self p);
                Downloader.max_workers := n;
                Downloader.output_dir := Downloader.output_dir (self p);
                Downloader.aws_profile := Downloader.aws_profile (self p);
                Downloader.downloaded_count := Downloader.downloaded_count (self p);
                Downloader.failed_count := Downloader.failed_count (self p);
                Downloader.total_files := Downloader.total_files (self p) |};
     io := io p |}.

Definition uploader_with_workers (n : Z) (p : Proc Uploader.S3Uploader)
  : Proc Uploader.S3Uploader :=
  {| self := {| Uploader.bucket_name := Uploader.bucket_name (self p);
                Uploader.max_workers := n;
                Uploader.s3_prefix := Uploader.s3_prefix (self p);
                Uploader.aws_profile := Uploader.aws_profile (self p);
                Uploader.uploaded_count := Uploader.uploaded_count (self p);
                Uploader.failed_count := Uploader.failed_count (self p);
                Uploader.total_files := Uploader.total_files (self p) |};
     io := io p |}.

(** Two runs returned four-key summaries with the same [success] and the
    same [failed], and with the same error entries up to their order. *)
Definition same_counts {Obj} (r r' : (gmap string value + exn) * Proc Obj) : Prop :=
  exists s f errors errors' elapsed elapsed' p2 p2',
    r = (inl (summary4 s f errors elapsed), p2)
    /\ r' = (inl (summary4 s f errors' elapsed'), p2')
    /\ errors ≡ₚ errors'.

(** The run over [n] items that ended with [r] returned
    [{success: n, failed: 0, errors: [], total_time: ...}]. *)
Definition clean_run {Obj} (r : (gmap string value + exn) * Proc Obj) (n : nat) : Prop :=
  exists elapsed p2, r = (inl (summary4 (Z.of_nat n) 0 [] elapsed), p2).

(** The run over [n] items that ended with [r] returned
    [{success: 0, failed: n, errors: [...], total_time: ...}] with [n]
    error entries, each with a reason, whose file names are [named]. *)
Definition failed_run {Obj} (r : (gmap string value + exn) * Proc Obj) (n : nat)
    (named : list string -> Prop) : Prop :=
  exists errors elapsed p2,
    r = (inl (summary4 0 (Z.of_nat n) errors elapsed), p2)
    /\ length errors = n
    /\ Forall (fun e => is_Some (error e)) errors
    /\ named (file <$> errors).

(** ** Further sample worlds *)

(** [aws] is not installed. *)
Definition broken_cli_world : World := {|
  sys_run := fun who cmd t => CompletedProcess 127 "" "aws: command not found";
  sys_mkdir := sys_mkdir sample_world;
  sys_isfile := sys_isfile sample_world;
  sys_exists := sys_exists sample_world;
  sys_glob := sys_glob sample_world;
  sys_path_glob := sys_path_glob sample_world;
  sys_fnmatch := sys_fnmatch sample_world;
  sys_time := sys_time sample_world;
  argparse_help := argparse_help sample_world;
  lock_order := lock_order sample_world;
  completion_order := completion_order sample_world
|}.

(** The bucket does not exist: [aws s3 ls] exits with status 255. *)
Definition failing_listing_world : World := {|
  sys_run := fun who cmd t =>
    match who, cmd with
    | MainThread, ["aws"; "s3"; "ls"; _; "--recursive"] =>
        CompletedProcess 255 "" "An error occurred (NoSuchBucket)"
    | _, _ => sys_run sample_world who cmd t
    end;
  sys_mkdir := sys_mkdir sample_world;
  sys_isfile := sys_isfile sample_world;
  sys_exists := sys_exists sample_world;
  sys_glob := sys_glob sample_world;
  sys_path_glob := sys_path_glob sample_world;
  sys_fnmatch := sys_fnmatch sample_world;
  sys_time := sys_time sample_world;
  argparse_help := argparse_help sample_world;
  lock_order := lock_order sample_world;
  completion_order := completion_order sample_world
|}.

(** Ctrl-C while [aws s3 ls] runs. *)
Definition interrupted_listing_world : World := {|
  sys_run := fun who cmd t =>
    match who, cmd with
    | MainThread, ["aws"; "s3"; "ls"; _; "--recursive"] => Raises KeyboardInterrupt
    | _, _ => sys_run sample_world who cmd t
    end;
  sys_mkdir := sys_mkdir sample_world;
  sys_isfile := sys_isfile sample_world;
  sys_exists := sys_exists sample_world;
  sys_glob := sys_glob sample_world;
  sys_path_glob := sys_path_glob sample_world;
  sys_fnmatch := sys_fnmatch sample_world;
  sys_time := sys_time sample_world;
  argparse_help := argparse_help sample_world;
  lock_order := lock_order sample_world;
  completion_order := completion_order sample_world
|}.

(** [sample_listing_world] where every transfer is refused, and where
    every transfer goes through. *)
Definition refusing_world : World := {|
  sys_run := fun who cmd t =>
    match who with
    | MainThread => sys_run sample_listing_world who cmd t
    | Worker _ => CompletedProcess 1 "" "fatal error: Access Denied"
    end;
  sys_mkdir := sys_mkdir sample_world;
  sys_isfile := sys_isfile sample_world;
  sys_exists := sys_exists sample_world;
  sys_glob := sys_glob sample_world;
  sys_path_glob := sys_path_glob sample_world;
  sys_fnmatch := sys_fnmatch sample_world;
  sys_time := sys_time sample_world;
  argparse_help := argparse_help sample_world;
  lock_order := lock_order sample_world;
  completion_order := completion_order sample_world
|}.

Definition obliging_world : World := {|
  sys_run := fun who cmd t =>
    match who with
    | MainThread => sys_run sample_listing_world who cmd t
    | Worker _ => CompletedProcess 0 "" ""
    end;
  sys_mkdir := sys_mkdir sample_world;
  sys_isfile := sys_isfile sample_world;
  sys_exists := sys_exists sample_world;
  sys_glob := sys_glob sample_world;
  sys_path_glob := sys_path_glob sample_world;
  sys_fnmatch := sys_fnmatch sample_world;
  sys_time := sys_time sample_world;
  argparse_help := argparse_help sample_world;
  lock_order := lock_order sample_world;
  completion_order := completion_order sample_world
|}.

(** A working directory with [a.txt], [b.txt] and [c.txt], and a
    directory [data] that holds [d.txt] and a subdirectory. *)
Definition sample_directory_world : World := {|
  sys_run := sys_run sample_world;
  sys_mkdir := sys_mkdir sample_world;
  sys_isfile := fun f => sys_isfile sample_world f || String.eqb f "data/d.txt";
  sys_exists := fun d => String.eqb d "data";
  sys_glob := fun pattern => if String.eqb pattern "*.txt" then ["a.txt"; "b.txt"] else [];
  sys_path_glob := fun recursive d pattern =>
    inl [Pathlib.of_str "data/d.txt"; Pathlib.of_str "data/sub"];
  sys_fnmatch := sys_fnmatch sample_world;
  sys_time := sys_time sample_world;
  argparse_help := argparse_help sample_world;
  lock_order := lock_order sample_world;
  completion_order := completion_order sample_world
|}.

Definition sample_directory_args : Uploader.Args := {|
  Uploader.arg_bucket := "my-bucket";
  Uploader.arg_files := Some ["*.txt"; "*.jpg"; "c.txt"; "a.txt"];
  Uploader.arg_directory := Some "data";
  Uploader.arg_pattern := "*";
  Uploader.arg_recursive := false;
  Uploader.arg_workers := 2;
  Uploader.arg_prefix := "uploads/";
  Uploader.arg_profile := None
|}.

Definition sample_upload_files_args : Uploader.Args := {|
  Uploader.arg_bucket := "my-bucket";
  Uploader.arg_files := Some ["a.txt"; "notes/b.txt"; "a.txt"];
  Uploader.arg_directory := None;
  Uploader.arg_pattern := "*";
  Uploader.arg_recursive := false;
  Uploader.arg_workers := 2;
  Uploader.arg_prefix := "uploads/";
  Uploader.arg_profile := None
|}.

(** Neither [--files] nor [--directory]. *)
Definition no_files_args : Uploader.Args := {|
  Uploader.arg_bucket := "my-bucket";
  Uploader.arg_files := None;
  Uploader.arg_directory := None;
  Uploader.arg_pattern := "*";
  Uploader.arg_recursive := false;
  Uploader.arg_workers := 5;
  Uploader.arg_prefix := "";
  Uploader.arg_profile := None
|}.

(** [--workers 0] *)
Definition zero_workers_args : Downloader.Args := {|
  Downloader.arg_bucket := "my-bucket";
  Downloader.arg_output := "./downloads";
  Downloader.arg_prefix := "";
  Downloader.arg_pattern := None;
  Downloader.arg_workers := 0;
  Downloader.arg_profile := None
|}.

Definition zero_workers_upload_args : Uploader.Args := {|
  Uploader.arg_bucket := "my-bucket";
  Uploader.arg_files := Some ["a.txt"; "notes/b.txt"; "a.txt"];
  Uploader.arg_directory := None;
  Uploader.arg_pattern := "*";
  Uploader.arg_recursive := false;
  Uploader.arg_workers := 0;
  Uploader.arg_prefix := "uploads/";
  Uploader.arg_profile := None
|}.

(** * Properties *)

(** ** Floating point *)

Section FloatFacts.
Import Float.


Lemma pow2_pos k : 0 < pow2 k.
Proof. unfold pow2. apply Z.pow_pos_nonneg; lia. Qed.

Lemma pow2_nonneg k : 0 <= k -> pow2 k = 2 ^ k /\ pow2 (- k) = 1.
Proof.
  intros Hk. unfold pow2. rewrite Z.max_r by lia. split; [done|].
  rewrite Z.max_l by lia. done.
Qed.

Lemma pow2_neg k : k <= 0 -> pow2 k = 1 /\ pow2 (- k) = 2 ^ (- k).
Proof.
  intros Hk. unfold pow2. rewrite Z.max_l by lia. split; [done|].
  rewrite Z.max_r by lia. done.
Qed.

(** [2^k] as the fraction [pow2 k / pow2 (-k)]: shifting by [j]. *)
Lemma pow2_shift k j :
  0 <= j -> pow2 k * pow2 (- (k - j)) = 2 ^ j * (pow2 (k - j) * pow2 (- k)).
Proof.
  intros Hj.
  destruct (Z.le_gt_cases 0 k) as [Hk|Hk]; destruct (Z.le_gt_cases 0 (k - j)) as [Hkj|Hkj].
  - destruct (pow2_nonneg k Hk) as [-> ->]. destruct (pow2_nonneg (k - j) Hkj) as [-> ->].
    rewrite !Z.mul_1_r, <-Z.pow_add_r by lia. f_equal. lia.
  - destruct (pow2_nonneg k Hk) as [-> ->].
    destruct (pow2_neg (k - j) ltac:(lia)) as [-> ->].
    rewrite Z.mul_1_l, Z.mul_1_r, <-Z.pow_add_r by lia. f_equal. lia.
  - lia.
  - destruct (pow2_neg k ltac:(lia)) as [-> ->].
    destruct (pow2_neg (k - j) ltac:(lia)) as [-> ->].
    rewrite Z.mul_1_l, Z.mul_1_l, <-Z.pow_add_r by lia. f_equal. lia.
Qed.

Lemma ilog2_lower a b :
  0 < a -> 0 < b -> b * pow2 (ilog2 a b) <= a * pow2 (- ilog2 a b).
Proof.
  intros Ha Hb. unfold ilog2. cbn zeta.
  pose proof (Z.log2_spec a Ha) as [Hla Hua]. pose proof (Z.log2_spec b Hb) as [Hlb Hub].
  pose proof (Z.log2_nonneg a). pose proof (Z.log2_nonneg b).
  set (la := Z.log2 a) in *. set (lb := Z.log2 b) in *.
  destruct (Z.ltb_spec (a * pow2 (- (la - lb))) (b * pow2 (la - lb))) as [Hlt|Hge]; [|done].
  destruct (Z.le_gt_cases 0 (la - lb - 1)) as [Hk|Hk].
  - destruct (pow2_nonneg _ Hk) as [-> ->].
    assert (b * 2 ^ (la - lb - 1) < 2 ^ la); [|lia].
    assert (2 ^ la = 2 ^ Z.succ lb * 2 ^ (la - lb - 1)) as ->.
    { rewrite <-Z.pow_add_r by lia. f_equal. lia. }
    apply Z.mul_lt_mono_pos_r; [|done].
    apply Z.pow_pos_nonneg; lia.
  - destruct (pow2_neg (la - lb - 1) ltac:(lia)) as [-> ->].
    assert (2 ^ Z.succ lb <= a * 2 ^ (- (la - lb - 1))); [|lia].
    assert (2 ^ Z.succ lb = 2 ^ la * 2 ^ (- (la - lb - 1))) as ->.
    { rewrite <-Z.pow_add_r by lia. f_equal. lia. }
    apply Z.mul_le_mono_nonneg_r; [|done].
    apply Z.pow_nonneg; lia.
Qed.

Lemma ilog2_upper a b :
  0 < a -> 0 < b -> a * pow2 (- (ilog2 a b + 1)) < b * pow2 (ilog2 a b + 1).
Proof.
  intros Ha Hb. unfold ilog2. cbn zeta.
  pose proof (Z.log2_spec a Ha) as [Hla Hua]. pose proof (Z.log2_spec b Hb) as [Hlb Hub].
  pose proof (Z.log2_nonneg a). pose proof (Z.log2_nonneg b).
  set (la := Z.log2 a) in *. set (lb := Z.log2 b) in *.
  destruct (Z.ltb_spec (a * pow2 (- (la - lb))) (b * pow2 (la - lb))) as [Hlt|Hge].
  - by replace (la - lb - 1 + 1) with (la - lb) by lia.
  - destruct (Z.le_gt_cases 0 (la - lb + 1)) as [Hk|Hk].
    + destruct (pow2_nonneg _ Hk) as [-> ->].
      assert (2 ^ Z.succ la <= b * 2 ^ (la - lb + 1)); [|lia].
      assert (2 ^ Z.succ la = 2 ^ lb * 2 ^ (la - lb + 1)) as ->.
      { rewrite <-Z.pow_add_r by lia. f_equal. lia. }
      apply Z.mul_le_mono_nonneg_r; [|done].
      apply Z.pow_nonneg; lia.
    + destruct (pow2_neg (la - lb + 1) ltac:(lia)) as [-> ->].
      assert (a * 2 ^ (- (la - lb + 1)) < 2 ^ lb); [|lia].
      assert (2 ^ lb = 2 ^ Z.succ la * 2 ^ (- (la - lb + 1))) as ->.
      { rewrite <-Z.pow_add_r by lia. f_equal. lia. }
      apply Z.mul_lt_mono_pos_r; [|done].
      apply Z.pow_pos_nonneg; lia.
Qed.

Lemma round_half_even_bounds a b :
  0 < b -> a / b <= round_half_even a b <= a / b + 1.
Proof.
  intros Hb. unfold round_half_even.
  destruct (2 * (a mod b) ?= b); [destruct (Z.even (a / b))| |]; lia.
Qed.

Lemma round_half_even_exact q b : 0 < b -> round_half_even (q * b) b = q.
Proof.
  intros Hb. unfold round_half_even. rewrite Z.div_mul, Z.mod_mul by lia.
  destruct (2 * 0 ?= b) eqn:Hc; [|done|].
  - apply Z.compare_eq in Hc. lia.
  - apply Z.compare_gt_iff in Hc. lia.
Qed.

(** The mantissa before the carry, in the normal range. *)
Lemma round_mantissa a b e :
  0 < a -> 0 < b -> e = ilog2 a b ->
  2 ^ 52 <= round_half_even (a * pow2 (- (e - 52))) (b * pow2 (e - 52)) <= 2 ^ 53.
Proof.
  intros Ha Hb ->. set (e := ilog2 a b).
  pose proof (ilog2_lower a b Ha Hb) as Hl. pose proof (ilog2_upper a b Ha Hb) as Hu.
  fold e in Hl, Hu.
  pose proof (pow2_pos e). pose proof (pow2_pos (- e)).
  pose proof (pow2_pos (e - 52)). pose proof (pow2_pos (- (e - 52))).
  pose proof (pow2_pos (e + 1)). pose proof (pow2_pos (- (e + 1))).
  pose proof (pow2_shift e 52 ltac:(lia)) as Hs.
  pose proof (pow2_shift (e + 1) 53 ltac:(lia)) as Hs'.
  replace (e + 1 - 53) with (e - 52) in Hs' by lia.
  set (A := a * pow2 (- (e - 52))). set (B := b * pow2 (e - 52)).
  assert (0 < B) by (unfold B; lia).
  assert (2 ^ 52 * B <= A) as HAB.
  { apply (Z.mul_le_mono_pos_r _ _ (pow2 e * pow2 (- e))); [lia|]. unfold A, B. nia. }
  assert (A < 2 ^ 53 * B) as HAB'.
  { apply (Z.mul_lt_mono_pos_r (pow2 (e + 1) * pow2 (- (e + 1)))); [lia|]. unfold A, B. nia. }
  pose proof (round_half_even_bounds A B ltac:(done)) as [Hlo Hhi].
  split.
  - etrans; [|exact Hlo]. apply Z.div_le_lower_bound; lia.
  - etrans; [exact Hhi|]. assert (A / B < 2 ^ 53); [|lia].
    apply Z.div_lt_upper_bound; lia.
Qed.

(** In the normal range the result has a full mantissa. *)
Lemma round_normal neg a b :
  0 < a -> 0 < b -> -1022 <= ilog2 a b ->
  exists m E,
    round neg a b = (if 971 <? E then S754_infinity neg else S754_finite neg (Z.to_pos m) E)
    /\ 2 ^ 52 <= m < 2 ^ 53
    /\ ilog2 a b - 52 <= E <= ilog2 a b - 51.
Proof.
  intros Ha Hb He. unfold round. rewrite (proj2 (Z.eqb_neq a 0)) by lia. cbn zeta.
  rewrite Z.max_l by lia.
  pose proof (round_mantissa a b _ Ha Hb eq_refl) as Hm.
  set (m := round_half_even _ _) in *.
  destruct (Z.eqb_spec m (2 ^ 53)) as [Hc|Hc].
  - exists (2 ^ 52), (ilog2 a b - 52 + 1). split; [done|]. lia.
  - exists m, (ilog2 a b - 52). rewrite (proj2 (Z.eqb_neq m 0)) by lia. split; [done|]. lia.
Qed.

Lemma ilog2_nonpos a b : 0 < a -> a <= b -> ilog2 a b <= 0.
Proof.
  intros Ha Hab. pose proof (ilog2_lower a b Ha ltac:(lia)) as Hl.
  destruct (Z.le_gt_cases (ilog2 a b) 0) as [|Hk]; [done|].
  destruct (pow2_nonneg (ilog2 a b) ltac:(lia)) as [Hp Hq]. rewrite Hp, Hq in Hl.
  assert (2 ^ 1 <= 2 ^ ilog2 a b) by (apply Z.pow_le_mono_r; lia). nia.
Qed.

Lemma ilog2_ge a b k :
  0 < a -> 0 < b -> 0 <= k -> b <= a * 2 ^ k -> - k <= ilog2 a b.
Proof.
  intros Ha Hb Hk Hab. pose proof (ilog2_upper a b Ha Hb) as Hu.
  destruct (Z.le_gt_cases (- k) (ilog2 a b)) as [|Hlt]; [done|].
  destruct (pow2_neg (ilog2 a b + 1) ltac:(lia)) as [Hp Hq]. rewrite Hp, Hq in Hu.
  assert (2 ^ k <= 2 ^ (- (ilog2 a b + 1))) by (apply Z.pow_le_mono_r; lia). nia.
Qed.

(** A quotient of two positive integers that is at most 1 is finite. *)
Lemma div_int_finite a b : 0 < a -> a <= b -> is_infinite (div_int a b) = false.
Proof.
  intros Ha Hab. unfold div_int, round.
  rewrite !Z.abs_eq by lia. rewrite (proj2 (Z.eqb_neq a 0)) by lia. cbn zeta.
  pose proof (ilog2_nonpos a b Ha Hab) as He.
  destruct (_ =? 2 ^ 53); destruct (_ =? 0); try done.
  all: match goal with |- context [971 <? ?E] => destruct (Z.ltb_spec 971 E); [lia|done] end.
Qed.

Lemma div_int_same n : 0 < n -> div_int n n = S754_finite false (Z.to_pos (2 ^ 52)) (-52).
Proof.
  intros Hn. unfold div_int, round. rewrite Z.abs_eq by lia.
  rewrite (proj2 (Z.eqb_neq n 0)), (proj2 (Z.ltb_ge n 0)) by lia. cbn [xorb].
  assert (ilog2 n n = 0) as ->.
  { unfold ilog2. rewrite Z.sub_diag. change (pow2 (- 0)) with 1. change (pow2 0) with 1.
    by rewrite Z.ltb_irrefl. }
  cbn zeta. change (Z.max (0 - 52) (-1074)) with (-52).
  change (pow2 (- -52)) with (2 ^ 52). change (pow2 (-52)) with 1.
  rewrite Z.mul_1_r, Z.mul_comm, round_half_even_exact by done. reflexivity.
Qed.

Lemma mul_one_hundred :
  mul (S754_finite false (Z.to_pos (2 ^ 52)) (-52)) (of_int 100) = of_int 100.
Proof. vm_compute. reflexivity. Qed.

Lemma ilog2_lt a b k :
  0 < a -> 0 < b -> 0 <= k -> a < b * 2 ^ k -> ilog2 a b < k.
Proof.
  intros Ha Hb Hk Hab. pose proof (ilog2_lower a b Ha Hb) as Hl.
  destruct (Z.lt_ge_cases (ilog2 a b) k) as [|Hge]; [done|].
  destruct (pow2_nonneg (ilog2 a b) ltac:(lia)) as [Hp Hq]. rewrite Hp, Hq in Hl.
  assert (2 ^ k <= 2 ^ ilog2 a b) by (apply Z.pow_le_mono_r; lia). nia.
Qed.

(** A percentage [k / n * 100] with [0 < k <= n], for a list of any
    length Python can hold: a float with a full mantissa. *)
Lemma percent_normal k n :
  0 < k -> k <= n -> n <= 2 ^ 63 ->
  exists m E,
    mul (div_int k n) (of_int 100) = S754_finite false (Z.to_pos m) E
    /\ 2 ^ 52 <= m < 2 ^ 53.
Proof.
  intros Hk Hkn Hn. unfold div_int. rewrite !Z.abs_eq by lia.
  rewrite (proj2 (Z.ltb_ge k 0)), (proj2 (Z.ltb_ge n 0)) by lia. cbn [xorb].
  assert (- (1022) <= ilog2 k n) as He.
  { apply (ilog2_ge _ _ 1022); [lia..|].
    assert (2 ^ 63 <= 1 * 2 ^ 1022) by (vm_compute; discriminate).
    assert (1 * 2 ^ 1022 <= k * 2 ^ 1022); [|lia].
    apply Z.mul_le_mono_nonneg_r; lia. }
  destruct (round_normal false k n ltac:(lia) ltac:(lia) He) as (m & E & -> & Hm & HE).
  pose proof (ilog2_nonpos k n ltac:(lia) ltac:(lia)) as He'.
  destruct (Z.ltb_spec 971 E); [lia|].
  change (of_int 100) with (S754_finite false 7036874417766400 (-46)).
  unfold mul. cbn [xorb].
  destruct (pow2_neg (E + -46) ltac:(lia)) as [-> ->].
  rewrite Z2Pos.id, Z.mul_1_r by lia.
  assert (0 < 2 ^ (- (E + -46))) as Hbpos by (apply Z.pow_pos_nonneg; lia).
  assert (2 ^ 97 <= 2 ^ (- (E + -46))) as Hb97 by (apply Z.pow_le_mono_r; lia).
  assert (2 ^ (- (E + -46)) <= 2 ^ 1120) as Hb1120 by (apply Z.pow_le_mono_r; lia).
  assert (- (1022) <= ilog2 (m * 7036874417766400) (2 ^ (- (E + -46)))) as He2.
  { apply (ilog2_ge _ _ 1022); [lia|done|lia|].
    assert (2 ^ 1120 <= 2 ^ 52 * 7036874417766400 * 2 ^ 1022) by (vm_compute; discriminate).
    etrans; [exact Hb1120|]. etrans; [eassumption|].
    apply Z.mul_le_mono_nonneg_r; [apply Z.pow_nonneg; lia|]. lia. }
  assert (ilog2 (m * 7036874417766400) (2 ^ (- (E + -46))) < 10) as He3.
  { apply ilog2_lt; [lia|done|lia|].
    assert (m * 7036874417766400 < 2 ^ 97 * 2 ^ 10).
    { assert (2 ^ 53 * 7036874417766400 <= 2 ^ 97 * 2 ^ 10) by (vm_compute; discriminate). nia. }
    assert (2 ^ 97 * 2 ^ 10 <= 2 ^ (- (E + -46)) * 2 ^ 10); [|lia].
    apply Z.mul_le_mono_nonneg_r; lia. }
  assert (0 < m * 7036874417766400) as Hapos by lia.
  destruct (round_normal false _ _ Hapos Hbpos He2) as (m2 & E2 & -> & Hm2 & HE2).
  destruct (Z.ltb_spec 971 E2); [lia|]. by exists m2, E2.
Qed.

Lemma round_half_even_nearest a b :
  0 < b -> 2 * Z.abs (round_half_even a b * b - a) <= b.
Proof.
  intros Hb. unfold round_half_even.
  pose proof (Z.div_mod a b ltac:(lia)) as Hdm.
  pose proof (Z.mod_pos_bound a b Hb) as Hmod.
  destruct (Z.compare_spec (2 * (a mod b)) b) as [Heq|Hlt|Hgt].
  - destruct (Z.even (a / b)); nia.
  - nia.
  - nia.
Qed.

Lemma round_half_even_tie a b :
  0 < b -> 2 * Z.abs (round_half_even a b * b - a) = b ->
  Z.even (round_half_even a b) = true.
Proof.
  intros Hb. unfold round_half_even.
  pose proof (Z.div_mod a b ltac:(lia)) as Hdm.
  pose proof (Z.mod_pos_bound a b Hb) as Hmod.
  destruct (Z.compare_spec (2 * (a mod b)) b) as [Heq|Hlt|Hgt].
  - destruct (Z.even (a / b)) eqn:Hev; [done|]. intros _.
    by rewrite Z.even_add, Hev.
  - nia.
  - nia.
Qed.

Lemma round_half_even_nonneg a b : 0 <= a -> 0 < b -> 0 <= round_half_even a b.
Proof.
  intros Ha Hb. pose proof (round_half_even_bounds a b Hb).
  pose proof (Z.div_pos a b Ha Hb). lia.
Qed.

Lemma frac_pos x : 0 <= (frac x).1 /\ 0 < (frac x).2.
Proof.
  destruct x as [| | |s m e]; cbn; try lia.
  pose proof (pow2_pos e). pose proof (pow2_pos (- e)). lia.
Qed.

End FloatFacts.

Lemma in_float_range_intro a b : 0 < a -> a <= b -> in_float_range a b.
Proof. apply div_int_finite. Qed.

(** ** The thread pool *)

Section ScheduleFacts.
Context {A : Type}.

(** Every pending item is taken exactly once, whatever the picks. *)
Lemma schedule_perm fuel window order (pending : list A) :
  (1 <= window)%nat -> (length pending <= fuel)%nat ->
  ThreadPool.schedule fuel window order pending ≡ₚ pending.
Proof.
  intros Hw. revert order pending.
  induction fuel as [|fuel IH]; intros order pending Hl.
  - destruct pending; simpl in *; [done | lia].
  - destruct pending as [|x l]; [by destruct window|].
    cbn [ThreadPool.schedule].
    destruct (Nat.min window (length (x :: l))) as [|n] eqn:Hn;
      [simpl in Hn; lia|].
    assert (hd 0%nat order mod S n < length (x :: l))%nat as Hk.
    { pose proof (Nat.mod_upper_bound (hd 0%nat order) (S n)). lia. }
    destruct (lookup_lt_is_Some_2 _ _ Hk) as [y Hy]. rewrite Hy.
    rewrite IH.
    + symmetry. by apply delete_Permutation.
    + rewrite length_delete by eauto. simpl in *. lia.
Qed.

Lemma schedule_fmap {B} (f : A -> B) fuel window order (pending : list A) :
  ThreadPool.schedule fuel window order (f <$> pending)
  = f <$> ThreadPool.schedule fuel window order pending.
Proof.
  revert order pending. induction fuel as [|fuel IH]; intros order pending; [done|].
  cbn [ThreadPool.schedule]. rewrite length_fmap.
  destruct (Nat.min window (length pending)) as [|n]; [done|].
  rewrite list_lookup_fmap.
  destruct (pending !! _) as [x|]; [|done].
  cbn [fmap option_fmap option_map]. by rewrite <-list_fmap_delete, IH.
Qed.

Lemma schedule_length fuel window order (pending : list A) :
  (1 <= window)%nat -> (length pending <= fuel)%nat ->
  length (ThreadPool.schedule fuel window order pending) = length pending.
Proof. intros Hw Hl. by rewrite schedule_perm. Qed.

End ScheduleFacts.

Section RunTasksFacts.
Context {St Item R : Type} (fn : nat -> Item -> M St R).

Lemma run_tasks_app ts1 ts2 s :
  ThreadPool.run_tasks fn (ts1 ++ ts2) s
  = let '(f1, s1) := ThreadPool.run_tasks fn ts1 s in
    let '(f2, s2) := ThreadPool.run_tasks fn ts2 s1 in
    (f1 ++ f2, s2).
Proof.
  revert s. induction ts1 as [|[i x] ts1 IH]; intros s; simpl.
  - by destruct (ThreadPool.run_tasks fn ts2 s).
  - destruct (fn i x s) as [r s1]. rewrite IH.
    destruct (ThreadPool.run_tasks fn ts1 s1) as [f1 s2].
    by destruct (ThreadPool.run_tasks fn ts2 s2).
Qed.

(** The futures come out in the order the calls were run. *)
Lemma run_tasks_fst ts s : (ThreadPool.run_tasks fn ts s).1.*1 = ts.
Proof.
  revert s. induction ts as [|[i x] ts IH]; intros s; simpl; [done|].
  destruct (fn i x s) as [r s1]. specialize (IH s1).
  destruct (ThreadPool.run_tasks fn ts s1) as [fs s2]. simpl in *. by f_equal.
Qed.

Lemma submit_all_length (items : list Item) :
  length (ThreadPool.submit_all items) = length items.
Proof. apply length_imap. Qed.

Lemma submit_all_snd (items : list Item) : (ThreadPool.submit_all items).*2 = items.
Proof.
  unfold ThreadPool.submit_all.
  enough (forall (g : nat -> nat), (imap (fun i x => (g i, x)) items).*2 = items) as Hg
    by apply (Hg id).
  induction items as [|x l IH]; intros g; simpl; [done|].
  f_equal. apply (IH (g ∘ S)).
Qed.

End RunTasksFacts.

(** ** Accounting over a pool run *)

Lemma collect_errors_returned {St} (fs : list (@ThreadPool.future string outcome))
    (acc : list error_entry) (s : St) :
  Forall (fun f => is_Some (returned f)) fs ->
  collect_errors fs acc s
  = (inl (acc ++ (entry_of <$> filter is_failure (omap returned fs))), s).
Proof.
  revert acc. induction fs as [|[t [[[ok f] msg]|e]] fs IH]; intros acc Hall.
  - simpl. by rewrite app_nil_r.
  - inversion_clear Hall as [|? ? _ Hfs]. cbn [collect_errors].
    rewrite IH by done. cbn [omap list_omap returned].
    destruct ok.
    + by rewrite filter_cons_False by (cbv; tauto).
    + rewrite filter_cons_True by done. by rewrite fmap_cons, <-app_assoc.
  - inversion_clear Hall as [|? ? Hf _]. by destruct Hf.
Qed.

Lemma success_or_failure (outs : list outcome) :
  (length (filter is_success outs) + length (filter is_failure outs))%nat = length outs.
Proof.
  induction outs as [|[[[] f] msg] outs IH]; [done| |].
  - rewrite filter_cons_True by done. rewrite filter_cons_False by (cbv; tauto).
    simpl. lia.
  - rewrite filter_cons_False by (cbv; tauto). rewrite filter_cons_True by done.
    simpl. lia.
Qed.

Section Accounting.
Context {Obj : Type} `{Tracker Obj}.
Variable fn : nat -> string -> M (Proc Obj) outcome.
Hypothesis fn_completes : completes_one fn.

(** Running the calls of [ts] one after another from a state whose
    total leaves room for them. *)
Lemma run_tasks_accounting ts p :
  0 <= succeeded (self p) + failed (self p) ->
  succeeded (self p) + failed (self p) + Z.of_nat (length ts) <= total (self p) ->
  exists fs lines p',
    ThreadPool.run_tasks fn ts p = (fs, p')
    /\ fs.*1 = ts
    /\ Forall (fun f => is_Some (returned f)) fs
    /\ total (self p') = total (self p)
    /\ succeeded (self p')
       = succeeded (self p) + Z.of_nat (length (filter is_success (omap returned fs)))
    /\ failed (self p')
       = failed (self p) + Z.of_nat (length (filter is_failure (omap returned fs)))
    /\ stdout (io p') = stdout (io p) ++ lines
    /\ length lines = length ts
    /\ (forall k line, lines !! k = Some line ->
          progress_of_line line
          = Some (percent (succeeded (self p) + failed (self p) + Z.of_nat k + 1)
                          (total (self p))))
    /\ clock_reads (io p') = clock_reads (io p).
Proof.
  revert p. induction ts as [|[i x] ts IH]; intros p Hlo Hhi.
  - exists [], [], p. simpl. rewrite app_nil_r.
    repeat split; try done; try lia.
  - cbn [length] in Hhi.
    destruct (fn_completes i x p) as (o & line & p1 & Hfn & Ht1 & Hs1 & Hf1 & Ho1 & Hp1 & Hc1);
      [lia|apply in_float_range_intro; lia|].
    destruct (IH p1) as (fs & lines & p2 & Hrun & Hfst & Hall & Ht2 & Hs2 & Hf2 & Ho2 & Hlen & Hp2 & Hc2);
      [rewrite Hs1, Hf1; destruct (is_success o); lia
      |rewrite Hs1, Hf1, Ht1; destruct (is_success o); lia|].
    exists (((i, x), inl o) :: fs), (line :: lines), p2.
    cbn [ThreadPool.run_tasks]. rewrite Hfn, Hrun.
    split; [done|]. split; [simpl; by f_equal|].
    split; [constructor; [by eexists | done]|].
    split; [congruence|].
    cbn [omap list_omap returned].
    split; [|split; [|split; [|split; [|split]]]].
    + rewrite Hs2, Hs1. destruct o as [[[] f] msg]; cbn [is_success fst].
      * rewrite filter_cons_True by done. simpl length. lia.
      * rewrite filter_cons_False by (cbv; tauto). lia.
    + rewrite Hf2, Hf1. destruct o as [[[] f] msg]; cbn [is_success fst].
      * rewrite filter_cons_False by (cbv; tauto). lia.
      * rewrite filter_cons_True by done. simpl length. lia.
    + rewrite Ho2, Ho1, <-app_assoc. done.
    + simpl. by rewrite Hlen.
    + intros [|k] l Hl; simpl in Hl.
      * injection Hl as <-. rewrite Hp1, Ht1. do 2 f_equal.
        rewrite Hs1, Hf1. destruct (is_success o); lia.
      * rewrite (Hp2 _ _ Hl), Ht1. do 2 f_equal.
        rewrite Hs1, Hf1. destruct (is_success o); lia.
    + congruence.
Qed.

(** A whole pool run: every submitted task ends in a returned outcome,
    and the counters move by the numbers of successes and failures. *)
Lemma run_pool_accounting workers lo co items p :
  0 <= succeeded (self p) + failed (self p) ->
  succeeded (self p) + failed (self p) + Z.of_nat (length items) <= total (self p) ->
  (1 <= workers)%nat ->
  exists fs lines p',
    ThreadPool.run_pool fn workers lo co items p = (fs, p')
    /\ fs.*1 ≡ₚ ThreadPool.submit_all items
    /\ length fs = length items
    /\ Forall (fun f => is_Some (returned f)) fs
    /\ total (self p') = total (self p)
    /\ succeeded (self p')
       = succeeded (self p) + Z.of_nat (length (filter is_success (omap returned fs)))
    /\ failed (self p')
       = failed (self p) + Z.of_nat (length (filter is_failure (omap returned fs)))
    /\ stdout (io p') = stdout (io p) ++ lines
    /\ length lines = length items
    /\ (forall k line, lines !! k = Some line ->
          progress_of_line line
          = Some (percent (succeeded (self p) + failed (self p) + Z.of_nat k + 1)
                          (total (self p))))
    /\ clock_reads (io p') = clock_reads (io p).
Proof.
  intros Hlo Hhi Hw. unfold ThreadPool.run_pool.
  set (ts := ThreadPool.submit_all items).
  set (order := ThreadPool.schedule (length ts) workers lo ts).
  assert (order ≡ₚ ts) as Horder by (by apply schedule_perm).
  assert (length order = length items) as Hlo'.
  { unfold order. rewrite schedule_length by done. apply submit_all_length. }
  destruct (run_tasks_accounting order p Hlo ltac:(by rewrite Hlo'))
    as (fs & lines & p' & Hrun & Hfst & Hall & Ht' & Hs' & Hf' & Ho' & Hlen & Hp' & Hc').
  rewrite Hrun.
  set (fs' := ThreadPool.schedule (length fs) (length fs) co fs).
  assert (fs' ≡ₚ fs) as Hfs'.
  { destruct fs as [|f0 fs0]; [done|]. apply schedule_perm; simpl; lia. }
  assert (length fs = length items) as Hlfs.
  { pose proof (f_equal length Hfst) as Hl. rewrite length_fmap in Hl.
    etrans; [exact Hl|]. unfold order.
    rewrite schedule_length by done. apply submit_all_length. }
  exists fs', lines, p'.
  split; [done|]. split; [by rewrite Hfs', Hfst|].
  split; [by rewrite Hfs'|]. split; [by rewrite Hfs'|].
  split; [done|]. split; [by rewrite Hfs'|]. split; [by rewrite Hfs'|].
  split; [done|]. split; [|done].
  rewrite Hlen. unfold order.
  rewrite schedule_length by done. apply submit_all_length.
Qed.

End Accounting.
(** ** One transfer *)

Ltac munfold :=
  unfold get_self, modify_self, print, mkdir, subprocess_run, time_time, truediv,
    try_except, mbind, M_bind, mret, M_ret, get, modify, raise in *.

Section DownloadFile.
Import Downloader.
Variable w : World.

Lemma _download_file_spec i key p :
  total_files (self p) <> 0 ->
  in_float_range (downloaded_count (self p) + failed_count (self p) + 1)
    (total_files (self p)) ->
  (forall e, download_attempt w (self p) i key = Raised e -> is_Exception e = true) ->
  let a := download_attempt w (self p) i key in
  let o := outcome_of download_timeout_msg key key a in
  exists line p',
    _download_file w i key p = (inl o, p')
    /\ self p' = (if is_success o
                  then set_downloaded_count (downloaded_count (self p) + 1) (self p)
                  else set_failed_count (failed_count (self p) + 1) (self p))
    /\ stdout (io p') = stdout (io p) ++ [line]
    /\ progress_of_line line
       = Some (percent (downloaded_count (self p') + failed_count (self p'))
                       (total_files (self p')))
    /\ spawned (io p')
       = spawned (io p)
         ++ started (download_mkdir w (self p) i key)
              {| call_by := Worker i; call_argv := download_command (self p) key;
                 call_timeout := 3600 |}
    /\ clock_reads (io p') = clock_reads (io p).
Proof.
  intros Ht Hr Hexc a o. subst o a. revert Hexc.
  apply Z.eqb_neq in Ht.
  pose proof Hr as Hr'. unfold in_float_range in Hr, Hr'.
  replace (downloaded_count (self p) + failed_count (self p) + 1)
    with (downloaded_count (self p) + 1 + failed_count (self p)) in Hr by lia.
  replace (downloaded_count (self p) + failed_count (self p) + 1)
    with (downloaded_count (self p) + (failed_count (self p) + 1)) in Hr' by lia.
  unfold download_attempt, _download_file, progress_expr.
  munfold. cbn [self io].
  fold (download_target (self p) key). fold (download_command (self p) key).
  fold (download_mkdir w (self p) i key).
  destruct (download_mkdir w (self p) i key) as [e|].
  - intros Hexc. specialize (Hexc e eq_refl).
    destruct e; try discriminate Hexc; cbn -[Float.div_int Float.mul Float.of_int]; rewrite ?Ht; cbn -[Float.div_int Float.mul Float.of_int]; rewrite ?Hr, ?Hr'; cbn -[Float.div_int Float.mul Float.of_int]; 
     (do 2 eexists; repeat split; cbn; rewrite ?app_nil_r; reflexivity).
  - cbn [self io stdout spawned clock_reads].
    destruct (sys_run w (Worker i) (download_command (self p) key) 3600) as [rc out err|e].
    + destruct (rc =? 0); intros _; cbn -[Float.div_int Float.mul Float.of_int]; rewrite ?Ht; cbn -[Float.div_int Float.mul Float.of_int]; rewrite ?Hr, ?Hr'; cbn -[Float.div_int Float.mul Float.of_int];
      (do 2 eexists; repeat split; cbn; reflexivity).
    + intros Hexc. specialize (Hexc e eq_refl).
      destruct e; try discriminate Hexc; cbn -[Float.div_int Float.mul Float.of_int]; rewrite ?Ht; cbn -[Float.div_int Float.mul Float.of_int]; rewrite ?Hr, ?Hr'; cbn -[Float.div_int Float.mul Float.of_int]; 
     (do 2 eexists; repeat split; cbn; rewrite ?app_nil_r; reflexivity).
Qed.
End DownloadFile.

Section UploadFile.
Import Uploader.
Variable w : World.

Lemma _upload_file_spec i local_file p :
  total_files (self p) <> 0 ->
  in_float_range (uploaded_count (self p) + failed_count (self p) + 1)
    (total_files (self p)) ->
  (forall e, upload_attempt w (self p) i local_file = Raised e -> is_Exception e = true) ->
  let a := upload_attempt w (self p) i local_file in
  let o := outcome_of upload_timeout_msg
             (Pathlib.to_str (Pathlib.of_str local_file)) local_file a in
  exists line p',
    _upload_file w i local_file p = (inl o, p')
    /\ self p' = (if is_success o
                  then set_uploaded_count (uploaded_count (self p) + 1) (self p)
                  else set_failed_count (failed_count (self p) + 1) (self p))
    /\ stdout (io p') = stdout (io p) ++ [line]
    /\ progress_of_line line
       = Some (percent (uploaded_count (self p') + failed_count (self p'))
                       (total_files (self p')))
    /\ spawned (io p')
       = spawned (io p)
         ++ [{| call_by := Worker i; call_argv := upload_command (self p) local_file;
                call_timeout := 3600 |}]
    /\ clock_reads (io p') = clock_reads (io p).
Proof.
  intros Ht Hr Hexc a o. subst o a. revert Hexc.
  apply Z.eqb_neq in Ht.
  pose proof Hr as Hr'. unfold in_float_range in Hr, Hr'.
  replace (uploaded_count (self p) + failed_count (self p) + 1)
    with (uploaded_count (self p) + 1 + failed_count (self p)) in Hr by lia.
  replace (uploaded_count (self p) + failed_count (self p) + 1)
    with (uploaded_count (self p) + (failed_count (self p) + 1)) in Hr' by lia.
  unfold upload_attempt, _upload_file, progress_expr.
  munfold. cbn [self io stdout spawned clock_reads].
  fold (upload_command (self p) local_file).
  destruct (sys_run w (Worker i) (upload_command (self p) local_file) 3600)
    as [rc out err|e].
  - destruct (rc =? 0); intros _; cbn -[Float.div_int Float.mul Float.of_int]; rewrite ?Ht; cbn -[Float.div_int Float.mul Float.of_int]; rewrite ?Hr, ?Hr'; cbn -[Float.div_int Float.mul Float.of_int];
      (do 2 eexists; repeat split; cbn; reflexivity).
  - intros Hexc. specialize (Hexc e eq_refl).
    destruct e; try discriminate Hexc; cbn -[Float.div_int Float.mul Float.of_int]; rewrite ?Ht; cbn -[Float.div_int Float.mul Float.of_int]; rewrite ?Hr, ?Hr'; cbn -[Float.div_int Float.mul Float.of_int];
      (do 2 eexists; repeat split; cbn; reflexivity).
Qed.
End UploadFile.

Lemma download_attempt_exceptions w d i key e :
  worker_exceptions w -> download_attempt w d i key = Raised e -> is_Exception e = true.
Proof.
  intros [Hrun Hmk]. unfold download_attempt, download_mkdir.
  destruct (sys_mkdir _ _ _) as [e'|] eqn:Hm.
  - intros [= <-]. eauto.
  - destruct (sys_run _ _ _ _) as [rc out err|e'] eqn:Hr.
    + by destruct (rc =? 0).
    + intros [= <-]. eauto.
Qed.

Lemma upload_attempt_exceptions w u i f e :
  worker_exceptions w -> upload_attempt w u i f = Raised e -> is_Exception e = true.
Proof.
  intros [Hrun _]. unfold upload_attempt.
  destruct (sys_run _ _ _ _) as [rc out err|e'] eqn:Hr.
  - by destruct (rc =? 0).
  - intros [= <-]. eauto.
Qed.

Lemma download_completes_one w :
  worker_exceptions w -> completes_one (Downloader._download_file w).
Proof.
  intros Hw i key p Ht Hr.
  destruct (_download_file_spec w i key p Ht Hr) as (line & p' & Hrun & Hself & Hout & Hline & _ & Hclock).
  { intros e. by apply download_attempt_exceptions. }
  eexists _, line, p'. split; [exact Hrun|].
  cbn [total succeeded failed downloader_tracker] in *.
  rewrite Hself in Hline. rewrite Hself.
  destruct (is_success _); repeat split; try done; cbn; try lia.
Qed.

Lemma upload_completes_one w :
  worker_exceptions w -> completes_one (Uploader._upload_file w).
Proof.
  intros Hw i f p Ht Hr.
  destruct (_upload_file_spec w i f p Ht Hr) as (line & p' & Hrun & Hself & Hout & Hline & _ & Hclock).
  { intros e. by apply upload_attempt_exceptions. }
  eexists _, line, p'. split; [exact Hrun|].
  cbn [total succeeded failed uploader_tracker] in *.
  rewrite Hself in Hline. rewrite Hself.
  destruct (is_success _); repeat split; try done; cbn; try lia.
Qed.

(** ** A pool run of downloads *)

Section DownloadRun.
Import Downloader.
Variable w : World.
Hypothesis Hw : worker_exceptions w.

Lemma download_config_result d d' t :
  download_config d d' -> download_result w d t = download_result w d' t.
Proof.
  intros (Hb & Ho & Ha & _).
  unfold download_result, download_attempt, download_mkdir, download_command,
    download_target, _build_aws_download_command.
  by rewrite Hb, Ho, Ha.
Qed.

Lemma download_config_calls d d' t :
  download_config d d' -> download_calls w d t = download_calls w d' t.
Proof.
  intros (Hb & Ho & Ha & _).
  unfold download_calls, download_mkdir, download_command,
    download_target, _build_aws_download_command.
  by rewrite Hb, Ho, Ha.
Qed.

(** The calls run one after another: each future holds the outcome
    read off the world, and the child processes are those of the tasks. *)
Lemma run_tasks_download ts p :
  0 <= downloaded_count (self p) + failed_count (self p) ->
  downloaded_count (self p) + failed_count (self p) + Z.of_nat (length ts) <= total_files (self p) ->
  exists p',
    ThreadPool.run_tasks (_download_file w) ts p
    = (future_of (download_result w (self p)) <$> ts, p')
    /\ download_config (self p') (self p)
    /\ spawned (io p') = spawned (io p) ++ (ts ≫= download_calls w (self p)).
Proof.
  revert p. induction ts as [|[i key] ts IH]; intros p Hlo Hhi.
  - exists p. simpl. by rewrite app_nil_r.
  - cbn [length] in Hhi.
    destruct (_download_file_spec w i key p) as (line & p1 & Hrun & Hself & _ & _ & Hsp & _).
    { lia. }
    { apply in_float_range_intro; lia. }
    { intros e. by apply download_attempt_exceptions. }
    assert (download_config (self p1) (self p)) as Hcfg.
    { rewrite Hself. by destruct (is_success _). }
    destruct (IH p1) as (p2 & Hrun2 & Hcfg2 & Hsp2).
    { rewrite Hself. destruct (is_success _); cbn; lia. }
    { rewrite Hself. destruct (is_success _); cbn; lia. }
    exists p2. cbn [ThreadPool.run_tasks]. rewrite Hrun, Hrun2.
    split; [|split].
    + rewrite fmap_cons. do 2 f_equal. apply list_fmap_ext. intros _ t _.
      unfold future_of. by rewrite (download_config_result _ _ t Hcfg).
    + destruct Hcfg as (? & ? & ? & ?), Hcfg2 as (? & ? & ? & ?).
      repeat split; congruence.
    + rewrite Hsp2, Hsp, <-app_assoc. f_equal. rewrite bind_cons.
      f_equal. apply list_bind_ext; [|done]. intros t. by apply download_config_calls.
Qed.

Lemma run_pool_download workers items p :
  0 <= downloaded_count (self p) + failed_count (self p) ->
  downloaded_count (self p) + failed_count (self p) + Z.of_nat (length items) <= total_files (self p) ->
  (1 <= workers)%nat ->
  exists order yielded p',
    order ≡ₚ ThreadPool.submit_all items
    /\ yielded ≡ₚ order
    /\ ThreadPool.run_pool (_download_file w) workers (lock_order w)
         (completion_order w) items p
       = (future_of (download_result w (self p)) <$> yielded, p')
    /\ download_config (self p') (self p)
    /\ spawned (io p') = spawned (io p) ++ (order ≫= download_calls w (self p)).
Proof.
  intros Hlo Hhi Hwk. unfold ThreadPool.run_pool.
  set (ts := ThreadPool.submit_all items).
  set (order := ThreadPool.schedule (length ts) workers (lock_order w) ts).
  assert (length order = length items) as Hlen.
  { unfold order. rewrite schedule_length by done. apply submit_all_length. }
  destruct (run_tasks_download order p Hlo ltac:(by rewrite Hlen)) as (p' & Hrun & Hcfg & Hsp).
  rewrite Hrun, schedule_fmap, length_fmap.
  exists order, (ThreadPool.schedule (length order) (length order) (completion_order w) order), p'.
  split; [by apply schedule_perm|]. split; [|done].
  destruct order as [|t order']; [done|]. apply schedule_perm; simpl; lia.
Qed.

End DownloadRun.

Lemma omap_returned_future_of (result : nat * string -> outcome) (ts : list (nat * string)) :
  omap returned (future_of result <$> ts) = result <$> ts.
Proof. induction ts as [|t ts IH]; [done|]. cbn. by f_equal. Qed.

Lemma Forall_returned_future_of (result : nat * string -> outcome) (ts : list (nat * string)) :
  Forall (fun f => is_Some (returned f)) (future_of result <$> ts).
Proof. apply Forall_fmap, Forall_forall. intros t _. by eexists. Qed.

Lemma progress_lines_percentages (lines : list fstring) (N : Z) off :
  (forall k line, lines !! k = Some line ->
     progress_of_line line = Some (percent (Z.of_nat (off + k) + 1) N)) ->
  omap progress_of_line lines
  = (fun k => percent (Z.of_nat k + 1) N) <$> seq off (length lines).
Proof.
  revert off. induction lines as [|l lines IH]; intros off Hl; [done|].
  cbn [omap list_omap length seq fmap list_fmap].
  rewrite (Hl 0%nat l eq_refl), Nat.add_0_r. f_equal.
  apply IH. intros k line Hk. rewrite (Hl (S k) line Hk). do 3 f_equal. lia.
Qed.

Section DownloadListed.
Import Downloader.
Variable w : World.
Hypothesis Hw : worker_exceptions w.

(** The pool at work, from a state [p0] with fresh counters and the
    configuration of [d]. *)
Lemma download_pool_phase d workers items p0 :
  items <> [] -> (1 <= workers)%nat ->
  total_files (self p0) = Z.of_nat (length items) ->
  downloaded_count (self p0) = 0 -> failed_count (self p0) = 0 ->
  download_config (self p0) d ->
  exists order yielded lines p1,
    order ≡ₚ ThreadPool.submit_all items
    /\ yielded ≡ₚ order
    /\ ThreadPool.run_pool (_download_file w) workers (lock_order w)
         (completion_order w) items p0
       = (future_of (download_result w d) <$> yielded, p1)
    /\ total_files (self p1) = Z.of_nat (length items)
    /\ downloaded_count (self p1)
       = Z.of_nat (length (filter is_success (download_result w d <$> yielded)))
    /\ failed_count (self p1)
       = Z.of_nat (length (filter is_failure (download_result w d <$> yielded)))
    /\ spawned (io p1) = spawned (io p0) ++ (order ≫= download_calls w d)
    /\ stdout (io p1) = stdout (io p0) ++ lines
    /\ length lines = length items
    /\ (forall k line, lines !! k = Some line ->
          progress_of_line line
          = Some (percent (Z.of_nat k + 1) (Z.of_nat (length items))))
    /\ clock_reads (io p1) = clock_reads (io p0).
Proof.
  intros Hne Hwk Ht Hs0 Hf0 Hcfg.
  assert (total_files (self p0) <> 0) as Ht0.
  { rewrite Ht. destruct items; [done | simpl; lia]. }
  assert (0 <= downloaded_count (self p0) + failed_count (self p0)) as Hlo by lia.
  assert (downloaded_count (self p0) + failed_count (self p0) + Z.of_nat (length items)
          <= total_files (self p0)) as Hhi by lia.
  destruct (run_pool_accounting _ (download_completes_one w Hw) workers
              (lock_order w) (completion_order w) items p0 Hlo Hhi Hwk)
    as (fs & lines & p1 & Hrun & _ & _ & _ & Ht1 & Hs & Hf & Hout & Hlen & Hpct & Hclock).
  destruct (run_pool_download w Hw workers items p0 Hlo Hhi Hwk)
    as (order & yielded & p1' & Hord & Hyld & Hrun' & _ & Hsp).
  rewrite Hrun' in Hrun. injection Hrun as <- <-.
  rewrite omap_returned_future_of in Hs, Hf.
  cbn [total succeeded failed downloader_tracker] in *.
  assert (forall l : list (nat * string),
            download_result w (self p0) <$> l = download_result w d <$> l) as Hres.
  { intros l. apply list_fmap_ext. intros _ t _. by apply download_config_result. }
  exists order, yielded, lines, p1'.
  split; [done|]. split; [done|]. split.
  { rewrite Hrun'. f_equal. apply list_fmap_ext. intros _ t _.
    unfold future_of. by rewrite (download_config_result w _ d t Hcfg). }
  split; [congruence|].
  split; [rewrite Hs, Hs0, Hres; lia|].
  split; [rewrite Hf, Hf0, Hres; lia|].
  split.
  { rewrite Hsp. f_equal. apply list_bind_ext; [|done].
    intros t. by apply download_config_calls. }
  split; [done|]. split; [done|]. split; [|done].
  intros k line Hk. rewrite (Hpct k line Hk), Hs0, Hf0, Ht. do 2 f_equal.
Qed.

(** The whole of a non-empty dispatch, from the state [p] in which it is
    entered: [order] is the order in which the tasks update the
    counters, [yielded] the order in which their futures are collected. *)
Lemma download_listed_run p items prefix pattern :
  items <> [] -> 1 <= max_workers (self p) ->
  exists order yielded p1 p0 p2,
    order ≡ₚ ThreadPool.submit_all items
    /\ yielded ≡ₚ order
    /\ download_listed w items prefix pattern p
       = (inl (summary4 (downloaded_count (self p1)) (failed_count (self p1))
                 (entry_of <$> filter is_failure (download_result w (self p) <$> yielded))
                 (Float.sub (sys_time w (S (clock_reads (io p))))
                            (sys_time w (clock_reads (io p))))),
          p2)
    /\ self p2 = self p1
    /\ total_files (self p1) = Z.of_nat (length items)
    /\ downloaded_count (self p1)
       = Z.of_nat (length (filter is_success (download_result w (self p) <$> yielded)))
    /\ failed_count (self p1)
       = Z.of_nat (length (filter is_failure (download_result w (self p) <$> yielded)))
    /\ spawned (io p2) = spawned (io p) ++ (order ≫= download_calls w (self p))
    /\ omap progress_of_line (stdout (io p2))
       = omap progress_of_line (stdout (io p)) ++ run_percentages (length items)
/\ downloaded_count (self p0) = 0 /\ failed_count (self p0) = 0
/\ total_files (self p0) = Z.of_nat (length items)
/\ p1 = (ThreadPool.run_pool (_download_file w) (Z.to_nat (max_workers (self p)))
          (lock_order w) (completion_order w) items p0).2.
Proof.
  intros Hne Hmw.
  assert ((max_workers (self p) <=? 0) = false) as Hmw' by lia.
  unfold download_listed, run_downloads, ThreadPool.executor_init.
  destruct items as [|x rest] eqn:Hitems; [done|]. rewrite <-Hitems in *.
  munfold. cbn -[Z.of_nat length dashes Float.sub Float.div Float.of_int]. rewrite Hmw'.
  destruct (Str.truthy prefix); destruct (opt_truthy pattern);
    cbn -[Z.of_nat length dashes Float.sub Float.div Float.of_int].
  all: match goal with
       | |- context [ThreadPool.run_pool ?f ?n ?a ?b ?its ?P0] =>
           destruct (download_pool_phase (self p) n its P0)
             as (order & yielded & lines & p1 & Hord & Hyld & Hrun & Ht & Hs & Hf
                 & Hsp & Hout & Hlen & Hpct & Hclock);
           [done | lia | reflexivity | reflexivity | reflexivity | by repeat split |];
           exists order, yielded, p1, P0
       end.
  all: cbn [self io clock_reads stdout spawned] in *.
  all: rewrite Hrun, (collect_errors_returned _ [] p1 (Forall_returned_future_of _ _)).
  all: rewrite omap_returned_future_of; cbn [app].
  all: rewrite Hclock.
  all: pose proof (progress_lines_percentages lines _ 0%nat Hpct) as Hlines;
       rewrite Hlen in Hlines.
  all: destruct (0 <? downloaded_count (self p1)); eexists.
  all: split; [exact Hord|]; split; [exact Hyld|]; split; [reflexivity|].
  all: split; [reflexivity|]; split; [exact Ht|]; split; [exact Hs|].
  all: split; [exact Hf|]; split; [exact Hsp|].
all: split; [|by repeat split].
  all: cbn [self io stdout]; rewrite Hout, !omap_app, Hlines.
  all: cbn [omap list_omap progress_of_line]; by rewrite ?app_nil_r.
Qed.
End DownloadListed.

(** ** A pool run of uploads *)

Section UploadRun.
Import Uploader.
Variable w : World.
Hypothesis Hw : worker_exceptions w.

Lemma upload_config_result u u' t :
  upload_config u u' -> upload_result w u t = upload_result w u' t.
Proof.
  intros (Hb & Hp & Ha & _).
  unfold upload_result, upload_attempt, upload_command, make_s3_key, _build_aws_command.
  by rewrite Hb, Hp, Ha.
Qed.

Lemma upload_config_calls u u' t :
  upload_config u u' -> upload_calls u t = upload_calls u' t.
Proof.
  intros (Hb & Hp & Ha & _).
  unfold upload_calls, upload_command, make_s3_key, _build_aws_command.
  by rewrite Hb, Hp, Ha.
Qed.

Lemma run_tasks_upload ts p :
  0 <= uploaded_count (self p) + failed_count (self p) ->
  uploaded_count (self p) + failed_count (self p) + Z.of_nat (length ts) <= total_files (self p) ->
  exists p',
    ThreadPool.run_tasks (_upload_file w) ts p
    = (future_of (upload_result w (self p)) <$> ts, p')
    /\ upload_config (self p') (self p)
    /\ spawned (io p') = spawned (io p) ++ (ts ≫= upload_calls (self p)).
Proof.
  revert p. induction ts as [|[i f] ts IH]; intros p Hlo Hhi.
  - exists p. simpl. by rewrite app_nil_r.
  - cbn [length] in Hhi.
    destruct (_upload_file_spec w i f p) as (line & p1 & Hrun & Hself & _ & _ & Hsp & _).
    { lia. }
    { apply in_float_range_intro; lia. }
    { intros e. by apply upload_attempt_exceptions. }
    assert (upload_config (self p1) (self p)) as Hcfg.
    { rewrite Hself. by destruct (is_success _). }
    destruct (IH p1) as (p2 & Hrun2 & Hcfg2 & Hsp2).
    { rewrite Hself. destruct (is_success _); cbn; lia. }
    { rewrite Hself. destruct (is_success _); cbn; lia. }
    exists p2. cbn [ThreadPool.run_tasks]. rewrite Hrun, Hrun2.
    split; [|split].
    + rewrite fmap_cons. do 2 f_equal. apply list_fmap_ext. intros _ t _.
      unfold future_of. by rewrite (upload_config_result _ _ t Hcfg).
    + destruct Hcfg as (? & ? & ? & ?), Hcfg2 as (? & ? & ? & ?).
      repeat split; congruence.
    + rewrite Hsp2, Hsp, <-app_assoc. f_equal. rewrite bind_cons.
      f_equal. apply list_bind_ext; [|done]. intros t. by apply upload_config_calls.
Qed.

Lemma run_pool_upload workers items p :
  0 <= uploaded_count (self p) + failed_count (self p) ->
  uploaded_count (self p) + failed_count (self p) + Z.of_nat (length items) <= total_files (self p) ->
  (1 <= workers)%nat ->
  exists order yielded p',
    order ≡ₚ ThreadPool.submit_all items
    /\ yielded ≡ₚ order
    /\ ThreadPool.run_pool (_upload_file w) workers (lock_order w)
         (completion_order w) items p
       = (future_of (upload_result w (self p)) <$> yielded, p')
    /\ upload_config (self p') (self p)
    /\ spawned (io p') = spawned (io p) ++ (order ≫= upload_calls (self p)).
Proof.
  intros Hlo Hhi Hwk. unfold ThreadPool.run_pool.
  set (ts := ThreadPool.submit_all items).
  set (order := ThreadPool.schedule (length ts) workers (lock_order w) ts).
  assert (length order = length items) as Hlen.
  { unfold order. rewrite schedule_length by done. apply submit_all_length. }
  destruct (run_tasks_upload order p Hlo ltac:(by rewrite Hlen)) as (p' & Hrun & Hcfg & Hsp).
  rewrite Hrun, schedule_fmap, length_fmap.
  exists order, (ThreadPool.schedule (length order) (length order) (completion_order w) order), p'.
  split; [by apply schedule_perm|]. split; [|done].
  destruct order as [|t order']; [done|]. apply schedule_perm; simpl; lia.
Qed.

Lemma upload_pool_phase u workers items p0 :
  items <> [] -> (1 <= workers)%nat ->
  total_files (self p0) = Z.of_nat (length items) ->
  uploaded_count (self p0) = 0 -> failed_count (self p0) = 0 ->
  upload_config (self p0) u ->
  exists order yielded lines p1,
    order ≡ₚ ThreadPool.submit_all items
    /\ yielded ≡ₚ order
    /\ ThreadPool.run_pool (_upload_file w) workers (lock_order w)
         (completion_order w) items p0
       = (future_of (upload_result w u) <$> yielded, p1)
    /\ total_files (self p1) = Z.of_nat (length items)
    /\ uploaded_count (self p1)
       = Z.of_nat (length (filter is_success (upload_result w u <$> yielded)))
    /\ failed_count (self p1)
       = Z.of_nat (length (filter is_failure (upload_result w u <$> yielded)))
    /\ spawned (io p1) = spawned (io p0) ++ (order ≫= upload_calls u)
    /\ stdout (io p1) = stdout (io p0) ++ lines
    /\ length lines = length items
    /\ (forall k line, lines !! k = Some line ->
          progress_of_line line
          = Some (percent (Z.of_nat k + 1) (Z.of_nat (length items))))
    /\ clock_reads (io p1) = clock_reads (io p0).
Proof.
  intros Hne Hwk Ht Hs0 Hf0 Hcfg.
  assert (total_files (self p0) <> 0) as Ht0.
  { rewrite Ht. destruct items; [done | simpl; lia]. }
  assert (0 <= uploaded_count (self p0) + failed_count (self p0)) as Hlo by lia.
  assert (uploaded_count (self p0) + failed_count (self p0) + Z.of_nat (length items)
          <= total_files (self p0)) as Hhi by lia.
  destruct (run_pool_accounting _ (upload_completes_one w Hw) workers
              (lock_order w) (completion_order w) items p0 Hlo Hhi Hwk)
    as (fs & lines & p1 & Hrun & _ & _ & _ & Ht1 & Hs & Hf & Hout & Hlen & Hpct & Hclock).
  destruct (run_pool_upload workers items p0 Hlo Hhi Hwk)
    as (order & yielded & p1' & Hord & Hyld & Hrun' & _ & Hsp).
  rewrite Hrun' in Hrun. injection Hrun as <- <-.
  rewrite omap_returned_future_of in Hs, Hf.
  cbn [total succeeded failed uploader_tracker] in *.
  assert (forall l : list (nat * string),
            upload_result w (self p0) <$> l = upload_result w u <$> l) as Hres.
  { intros l. apply list_fmap_ext. intros _ t _. by apply upload_config_result. }
  exists order, yielded, lines, p1'.
  split; [done|]. split; [done|]. split.
  { rewrite Hrun'. f_equal. apply list_fmap_ext. intros _ t _.
    unfold future_of. by rewrite (upload_config_result _ u t Hcfg). }
  split; [congruence|].
  split; [rewrite Hs, Hs0, Hres; lia|].
  split; [rewrite Hf, Hf0, Hres; lia|].
  split.
  { rewrite Hsp. f_equal. apply list_bind_ext; [|done].
    intros t. by apply upload_config_calls. }
  split; [done|]. split; [done|]. split; [|done].
  intros k line Hk. rewrite (Hpct k line Hk), Hs0, Hf0, Ht. do 2 f_equal.
Qed.

Lemma upload_valid_run p items :
  items <> [] -> 1 <= max_workers (self p) ->
  exists order yielded p1 p0 p2,
    order ≡ₚ ThreadPool.submit_all items
    /\ yielded ≡ₚ order
    /\ upload_valid w items p
       = (inl (summary4 (uploaded_count (self p1)) (failed_count (self p1))
                 (entry_of <$> filter is_failure (upload_result w (self p) <$> yielded))
                 (Float.sub (sys_time w (S (clock_reads (io p))))
                            (sys_time w (clock_reads (io p))))),
          p2)
    /\ self p2 = self p1
    /\ total_files (self p1) = Z.of_nat (length items)
    /\ uploaded_count (self p1)
       = Z.of_nat (length (filter is_success (upload_result w (self p) <$> yielded)))
    /\ failed_count (self p1)
       = Z.of_nat (length (filter is_failure (upload_result w (self p) <$> yielded)))
    /\ spawned (io p2) = spawned (io p) ++ (order ≫= upload_calls (self p))
    /\ omap progress_of_line (stdout (io p2))
       = omap progress_of_line (stdout (io p)) ++ run_percentages (length items)
/\ uploaded_count (self p0) = 0 /\ failed_count (self p0) = 0
/\ total_files (self p0) = Z.of_nat (length items)
/\ p1 = (ThreadPool.run_pool (_upload_file w) (Z.to_nat (max_workers (self p)))
          (lock_order w) (completion_order w) items p0).2.
Proof.
  intros Hne Hmw.
  assert ((max_workers (self p) <=? 0) = false) as Hmw' by lia.
  unfold upload_valid, run_uploads, ThreadPool.executor_init.
  destruct items as [|x rest] eqn:Hitems; [done|]. rewrite <-Hitems in *.
  munfold. cbn -[Z.of_nat length dashes Float.sub Float.div Float.of_int]. rewrite Hmw'.
  destruct (Str.truthy (s3_prefix (self p)));
    cbn -[Z.of_nat length dashes Float.sub Float.div Float.of_int].
  all: match goal with
       | |- context [ThreadPool.run_pool ?f ?n ?a ?b ?its ?P0] =>
           destruct (upload_pool_phase (self p) n its P0)
             as (order & yielded & lines & p1 & Hord & Hyld & Hrun & Ht & Hs & Hf
                 & Hsp & Hout & Hlen & Hpct & Hclock);
           [done | lia | reflexivity | reflexivity | reflexivity | by repeat split |];
           exists order, yielded, p1, P0
       end.
  all: cbn [self io clock_reads stdout spawned] in *.
  all: rewrite Hrun, (collect_errors_returned _ [] p1 (Forall_returned_future_of _ _)).
  all: rewrite omap_returned_future_of; cbn [app].
  all: rewrite Hclock.
  all: pose proof (progress_lines_percentages lines _ 0%nat Hpct) as Hlines;
       rewrite Hlen in Hlines.
  all: destruct (0 <? uploaded_count (self p1)); eexists.
  all: split; [exact Hord|]; split; [exact Hyld|]; split; [reflexivity|].
  all: split; [reflexivity|]; split; [exact Ht|]; split; [exact Hs|].
  all: split; [exact Hf|]; split; [exact Hsp|].
all: split; [|by repeat split].
  all: cbn [self io stdout]; rewrite Hout, !omap_app, Hlines.
  all: cbn [omap list_omap progress_of_line]; by rewrite ?app_nil_r.
Qed.

(** The filtering loop keeps the regular files, in order, and touches
    nothing but the log. *)
Lemma filter_valid_run file_list acc p :
  exists p',
    filter_valid w file_list acc p = (inl (acc ++ filter (sys_isfile w) file_list), p')
    /\ self p' = self p
    /\ spawned (io p') = spawned (io p)
    /\ clock_reads (io p') = clock_reads (io p)
    /\ omap progress_of_line (stdout (io p')) = omap progress_of_line (stdout (io p)).
Proof.
  revert acc p. induction file_list as [|f l IH]; intros acc p.
  - exists p. simpl. by rewrite app_nil_r.
  - cbn [filter_valid]. destruct (sys_isfile w f) eqn:Hf.
    + rewrite filter_cons_True by by rewrite Hf.
      destruct (IH (acc ++ [f]) p) as (p' & Hrun & ?). exists p'.
      by rewrite Hrun, <-app_assoc.
    + rewrite filter_cons_False by (rewrite Hf; cbv; tauto).
      munfold.
      match goal with |- context [filter_valid w l acc ?P] =>
        destruct (IH acc P) as (p' & Hrun & Hs & Hsp & Hc & Hout) end.
      exists p'. rewrite Hrun. cbn [self io stdout spawned clock_reads] in *.
      repeat split; try done.
      rewrite Hout, omap_app. cbn. by rewrite app_nil_r.
Qed.

End UploadRun.

(** ** The sample world *)

Lemma sample_world_exceptions : worker_exceptions sample_world.
Proof.
  split.
  - intros i cmd t e. cbn. destruct i as [|[|i]]; intros [= <-] || discriminate. done.
  - intros i path e. cbn. discriminate.
Defined.

(** ** Outcomes *)

Lemma outcome_of_failure_reason msg f1 f2 a :
  is_failure (outcome_of msg f1 f2 a) -> is_Some (outcome_of msg f1 f2 a).2.
Proof.
  destruct a as [| |e]; cbn; [done | by eexists |].
  destruct (is_TimeoutExpired e); cbn; by eexists.
Qed.

Lemma failure_entries_have_reason (result : nat * string -> outcome) (ts : list (nat * string)) :
  (forall t, is_failure (result t) -> is_Some (result t).2) ->
  Forall (fun e => is_Some (error e)) (entry_of <$> filter is_failure (result <$> ts)).
Proof.
  intros Hr. apply Forall_fmap, Forall_forall. intros o [Hf Ho]%list_elem_of_filter.
  apply list_elem_of_fmap in Ho as (t & -> & _). by apply Hr.
Qed.

(** ** Counts of a dispatch run *)

(** C1.  For every non-empty work list and every [max_workers >= 1], a
    dispatch run returns; one outcome is produced per submitted item (the
    outcomes collected rearrange those of the submitted tasks); the
    returned [success] and [failed] add up to the number of items;
    [failed] is the length of the returned error list, which holds one
    [{file, error}] entry, with a reason, per failed outcome.  This holds
    for downloads ([download_files] once the listing is known) and for
    uploads ([upload_files] once the valid files are known). *)
Theorem dispatch_counts (w : World)
    (pd : Proc Downloader.S3Downloader) (keys : list string) (prefix : string)
    (pattern : option string)
    (pu : Proc Uploader.S3Uploader) (files : list string) :
  worker_exceptions w ->
  keys <> [] -> 1 <= Downloader.max_workers (self pd) ->
  files <> [] -> 1 <= Uploader.max_workers (self pu) ->
  counted_run (Downloader.download_listed w keys prefix pattern pd)
    (download_result w (self pd) <$> ThreadPool.submit_all keys) (length keys)
  /\ counted_run (Uploader.upload_valid w files pu)
       (upload_result w (self pu) <$> ThreadPool.submit_all files) (length files).
Proof.
  intros Hw Hk Hd Hf Hu. split.
  - destruct (download_listed_run w Hw pd keys prefix pattern Hk Hd)
      as (order & yielded & p1 & p0 & p2 & Hord & Hyld & Hrun & _ & _ & Hs & Hfl & _).
    assert (length (download_result w (self pd) <$> yielded) = length keys) as Hlen.
    { by rewrite length_fmap, Hyld, Hord, submit_all_length. }
    eexists (download_result w (self pd) <$> yielded), _, _, _, _, p2.
    split; [exact Hrun|]. split; [by rewrite Hyld, Hord|]. split; [done|].
    split; [done|]. split; [done|]. split.
    { pose proof (success_or_failure (download_result w (self pd) <$> yielded)).
      rewrite Hs, Hfl. lia. }
    split; [done|]. split; [by rewrite Hfl, length_fmap|].
    apply failure_entries_have_reason. intros t. apply outcome_of_failure_reason.
  - destruct (upload_valid_run w Hw pu files Hf Hu)
      as (order & yielded & p1 & p0 & p2 & Hord & Hyld & Hrun & _ & _ & Hs & Hfl & _).
    assert (length (upload_result w (self pu) <$> yielded) = length files) as Hlen.
    { by rewrite length_fmap, Hyld, Hord, submit_all_length. }
    eexists (upload_result w (self pu) <$> yielded), _, _, _, _, p2.
    split; [exact Hrun|]. split; [by rewrite Hyld, Hord|]. split; [done|].
    split; [done|]. split; [done|]. split.
    { pose proof (success_or_failure (upload_result w (self pu) <$> yielded)).
      rewrite Hs, Hfl. lia. }
    split; [done|]. split; [by rewrite Hfl, length_fmap|].
    apply failure_entries_have_reason. intros t. apply outcome_of_failure_reason.
Qed.

Lemma dispatch_counts_witness :
  counted_run (Downloader.download_listed sample_world sample_keys "" None sample_downloader)
    (download_result sample_world (self sample_downloader)
       <$> ThreadPool.submit_all sample_keys) 3
  /\ counted_run (Uploader.upload_valid sample_world sample_files sample_uploader)
       (upload_result sample_world (self sample_uploader)
          <$> ThreadPool.submit_all sample_files) 4.
Proof.
  apply (dispatch_counts sample_world sample_downloader sample_keys "" None
           sample_uploader sample_files).
  - exact sample_world_exceptions.
  - discriminate.
  - cbn. lia.
  - discriminate.
  - cbn. lia.
Defined.

(** ** The empty work list *)

(** Counterexample to C2 as stated: on the empty work list the returned
    dict is not [{success: 0, failed: 0, errors: [], elapsed}] for any
    elapsed time, zero included: it has no such entry. *)
Lemma empty_dispatch_no_elapsed :
  ~ (exists elapsed p',
       Downloader.download_listed sample_world [] "" None sample_downloader
       = (inl (summary4 0 0 [] elapsed), p')).
Proof.
  intros (elapsed & p' & Hrun).
  assert ((Downloader.download_listed sample_world [] "" None sample_downloader).1
          = inl (summary3 0 0 [])) as Hd by reflexivity.
  rewrite Hrun in Hd. cbn [fst] in Hd.
  apply (f_equal (fun r : gmap string value + exn =>
                    match r with inl m => m !! "total_time" | inr _ => None end)) in Hd.
  vm_compute in Hd. discriminate Hd.
Qed.

(** C2, amended.  On the empty work list the dispatch returns at once the
    three-key dict [{success: 0, failed: 0, errors: []}], which has no
    elapsed-time entry; it starts no child process, reads no clock, leaves
    the object (its counters and total included) as it was, and prints
    one line.  This holds for downloads and for uploads. *)
Theorem empty_dispatch (w : World)
    (pd : Proc Downloader.S3Downloader) (prefix : string) (pattern : option string)
    (pu : Proc Uploader.S3Uploader) :
  (exists line,
     Downloader.download_listed w [] prefix pattern pd
     = (inl (summary3 0 0 []),
        {| self := self pd;
           io := {| stdout := stdout (io pd) ++ [line];
                    spawned := spawned (io pd);
                    clock_reads := clock_reads (io pd) |} |}))
  /\ (exists line,
        Uploader.upload_valid w [] pu
        = (inl (summary3 0 0 []),
           {| self := self pu;
              io := {| stdout := stdout (io pu) ++ [line];
                       spawned := spawned (io pu);
                       clock_reads := clock_reads (io pu) |} |}))
  /\ summary3 0 0 [] !! "success" = Some (VInt 0)
  /\ summary3 0 0 [] !! "failed" = Some (VInt 0)
  /\ summary3 0 0 [] !! "errors" = Some (VErrors [])
  /\ summary3 0 0 [] !! "total_time" = None.
Proof.
  split; [by eexists|]. split; [by eexists|].
  repeat split; by vm_compute.
Qed.

(** ** Exit codes *)

(** C3 fails in the download direction.  When the AWS CLI is available
    and the listing succeeds but yields no key (an empty bucket, a prefix
    or pattern that matches nothing), [main()] of the downloader ends with
    [sys.exit(0)]: the empty work list is reported as a success. *)
Theorem downloader_exit_zero_on_empty_listing (w : World) (args : Downloader.Args)
    (io0 : IO) (version out err : string) :
  sys_mkdir w MainThread (Pathlib.to_str (Pathlib.of_str (Downloader.arg_output args))) = None ->
  sys_run w MainThread ["aws"; "--version"] 10 = CompletedProcess 0 version "" ->
  sys_run w MainThread
    (Downloader._build_aws_list_command (downloader_of_args args) (Downloader.arg_prefix args))
    1800 = CompletedProcess 0 out err ->
  Downloader.parse_listing w (Downloader.arg_pattern args) out = [] ->
  (Downloader.main w args io0).1 = inr (SystemExit 0).
Proof.
  intros Hmk Hver Hls Hparse.
  unfold Downloader.main, Downloader.__init__, Downloader._check_aws_cli.
  fold (downloader_of_args args).
  munfold. cbn [self io Downloader.output_dir downloader_of_args].
  rewrite Hmk, Hver. cbn.
  unfold Downloader.download_files, Downloader._list_s3_files.
  munfold. cbn [self io].
  fold (downloader_of_args args). rewrite Hls. cbn. rewrite Hparse. reflexivity.
Qed.

Lemma downloader_exit_zero_witness :
  (Downloader.main sample_world sample_args IO0).1 = inr (SystemExit 0).
Proof.
  apply (downloader_exit_zero_on_empty_listing sample_world sample_args IO0
           "aws-cli/2.15.0" "" ""); reflexivity.
Defined.

(** ** The progress state along a run *)

Section Tracking.
Context {Obj : Type} `{Tracker Obj}.
Variable fn : nat -> string -> M (Proc Obj) outcome.
Hypothesis fn_completes : completes_one fn.

Lemma run_tasks_progress ts p :
  0 <= succeeded (self p) + failed (self p) ->
  succeeded (self p) + failed (self p) + Z.of_nat (length ts) <= total (self p) ->
  let p' := (ThreadPool.run_tasks fn ts p).2 in
  total (self p') = total (self p)
  /\ succeeded (self p) <= succeeded (self p')
  /\ failed (self p) <= failed (self p')
  /\ succeeded (self p') + failed (self p')
     = succeeded (self p) + failed (self p) + Z.of_nat (length ts).
Proof.
  revert p. induction ts as [|[i x] ts IH]; intros p Hlo Hhi; cbn zeta.
  - cbn. lia.
  - cbn [length] in Hhi.
    destruct (fn_completes i x p) as (o & line & p1 & Hfn & Ht1 & Hs1 & Hf1 & _);
      [lia|apply in_float_range_intro; lia|].
    cbn [ThreadPool.run_tasks]. rewrite Hfn.
    specialize (IH p1). cbn zeta in IH.
    destruct (ThreadPool.run_tasks fn ts p1) as [fs p2]. cbn [snd] in *.
    destruct IH as (Ht2 & Hs2 & Hf2 & Hsum);
      [rewrite Hs1, Hf1; destruct (is_success o); lia
      |rewrite Hs1, Hf1, Ht1; destruct (is_success o); lia|].
    rewrite Ht2, Ht1, Hsum, Hs1, Hf1. cbn [length].
    destruct (is_success o); lia.
Qed.

Lemma after_completions_step order p0 k t :
  0 <= succeeded (self p0) + failed (self p0) ->
  succeeded (self p0) + failed (self p0) + Z.of_nat (length order) <= total (self p0) ->
  order !! k = Some t ->
  let pk := after_completions fn order p0 k in
  let pk' := after_completions fn order p0 (S k) in
  (succeeded (self pk') = succeeded (self pk) + 1 /\ failed (self pk') = failed (self pk))
  \/ (succeeded (self pk') = succeeded (self pk) /\ failed (self pk') = failed (self pk) + 1).
Proof.
  intros Hlo Hhi Hk. cbn zeta. unfold after_completions.
  rewrite (take_S_r _ _ _ Hk), run_tasks_app.
  pose proof (lookup_lt_Some _ _ _ Hk) as Hlt.
  assert (length (take k order) = k) as Hlk by (rewrite length_take; lia).
  pose proof (run_tasks_progress (take k order) p0 Hlo) as Hpk.
  cbn zeta in Hpk. unfold ThreadPool.task in *. rewrite Hlk in Hpk.
  specialize (Hpk ltac:(lia)).
  destruct (ThreadPool.run_tasks fn (take k order) p0) as [fs pk]. cbn [snd] in *.
  destruct t as [i x]. cbn [ThreadPool.run_tasks].
  destruct Hpk as (Htk & _ & _ & Hsum).
  destruct (fn_completes i x pk) as (o & line & p1 & Hfn & _ & Hs1 & Hf1 & _);
    [lia|apply in_float_range_intro; lia|].
  rewrite Hfn. cbn [snd]. rewrite Hs1, Hf1. destruct (is_success o); [left|right]; lia.
Qed.

Lemma tracked_run_holds workers w items p0 :
  items <> [] -> (1 <= workers)%nat ->
  total (self p0) = Z.of_nat (length items) ->
  succeeded (self p0) = 0 -> failed (self p0) = 0 ->
  tracked_run fn workers w items p0.
Proof.
  intros Hne Hwk Ht Hs0 Hf0.
  assert (total (self p0) <> 0) as Ht0.
  { rewrite Ht. destruct items; [done | simpl; lia]. }
  assert (length (completion_sequence workers w items) = length items) as Hlen.
  { unfold completion_sequence. rewrite schedule_length by done. apply submit_all_length. }
  unfold tracked_run. cbn zeta. split; [done|]. split; [|split].
  - unfold ThreadPool.run_pool, after_completions.
    fold (completion_sequence workers w items).
    rewrite <-Hlen, firstn_all.
    by destruct (ThreadPool.run_tasks fn (completion_sequence workers w items) p0).
  - intros k Hk. unfold after_completions.
    assert (length (take k (completion_sequence workers w items)) = k) as Hlk.
    { unfold ThreadPool.task in *. rewrite length_take, Hlen. lia. }
    pose proof (run_tasks_progress (take k (completion_sequence workers w items)) p0
                  ltac:(lia)) as Hpk. cbn zeta in Hpk.
    unfold ThreadPool.task in *. rewrite Hlk in Hpk. specialize (Hpk ltac:(lia)).
    destruct Hpk as (Htk & Hsk & Hfk & Hsum). rewrite Htk, Hsum, Hs0, Hf0, Ht. lia.
  - intros k Hk.
    destruct (lookup_lt_is_Some_2 (completion_sequence workers w items) k) as [t Hlk];
      [lia|].
    apply (after_completions_step _ p0 k t); [lia| |done].
    unfold ThreadPool.task in *. rewrite Hlen. lia.
Qed.

End Tracking.

(** C7.  A dispatch over [N >= 1] items, with at least one worker, starts
    its pool from [succeeded = 0], [failed = 0], [total = N].  From there,
    after every completion [succeeded + failed <= total]; after [k]
    completions the sum is [k], so it equals the total exactly when the run
    has completed; each completion adds one to exactly one of the two
    counters; and the dispatch returns in the state after the [N]-th
    completion.  This holds for downloads and for uploads, whatever the
    world answers. *)
Theorem progress_invariant (w : World)
    (pd : Proc Downloader.S3Downloader) (keys : list string) (prefix : string)
    (pattern : option string)
    (pu : Proc Uploader.S3Uploader) (files : list string) :
  worker_exceptions w ->
  keys <> [] -> 1 <= Downloader.max_workers (self pd) ->
  files <> [] -> 1 <= Uploader.max_workers (self pu) ->
  tracked_dispatch (Downloader._download_file w)
    (Z.to_nat (Downloader.max_workers (self pd))) w keys
    (Downloader.download_listed w keys prefix pattern pd)
  /\ tracked_dispatch (Uploader._upload_file w)
       (Z.to_nat (Uploader.max_workers (self pu))) w files
       (Uploader.upload_valid w files pu).
Proof.
  intros Hw Hk Hd Hf Hu. split.
  - destruct (download_listed_run w Hw pd keys prefix pattern Hk Hd)
      as (order & yielded & p1 & p0 & p2 & _ & _ & Hrun & Hself & _ & _ & _ & _ & _
          & Hs0 & Hf0 & Ht0 & Hp1).
    assert (tracked_run (Downloader._download_file w)
              (Z.to_nat (Downloader.max_workers (self pd))) w keys p0) as Htr.
    { apply tracked_run_holds; [by apply download_completes_one|done|lia|done..]. }
    exists p0. split; [done|]. split; [done|]. split; [done|]. split; [done|].
    destruct Htr as (_ & Hend & _). cbn zeta in Hend.
    by rewrite Hrun, <-Hend, <-Hp1.
  - destruct (upload_valid_run w Hw pu files Hf Hu)
      as (order & yielded & p1 & p0 & p2 & _ & _ & Hrun & Hself & _ & _ & _ & _ & _
          & Hs0 & Hf0 & Ht0 & Hp1).
    assert (tracked_run (Uploader._upload_file w)
              (Z.to_nat (Uploader.max_workers (self pu))) w files p0) as Htr.
    { apply tracked_run_holds; [by apply upload_completes_one|done|lia|done..]. }
    exists p0. split; [done|]. split; [done|]. split; [done|]. split; [done|].
    destruct Htr as (_ & Hend & _). cbn zeta in Hend.
    by rewrite Hrun, <-Hend, <-Hp1.
Qed.

Lemma progress_invariant_witness :
  tracked_dispatch (Downloader._download_file sample_world) 2 sample_world sample_keys
    (Downloader.download_listed sample_world sample_keys "" None sample_downloader)
  /\ tracked_dispatch (Uploader._upload_file sample_world) 2 sample_world sample_files
       (Uploader.upload_valid sample_world sample_files sample_uploader).
Proof.
  apply (progress_invariant sample_world sample_downloader sample_keys "" None
           sample_uploader sample_files);
    first [exact sample_world_exceptions | discriminate | cbn; lia].
Defined.

(** ** The reported percentage *)

Lemma of_int_digit k : 0 <= k <= 9 -> Fmt.pad_left "0" 1 (Str.of_int k) = Str.of_int k.
Proof.
  intros Hk.
  assert (k = 0 \/ k = 1 \/ k = 2 \/ k = 3 \/ k = 4 \/ k = 5 \/ k = 6 \/ k = 7 \/ k = 8 \/ k = 9)
    as Hcases by lia.
  repeat (destruct Hcases as [->|Hcases]; [reflexivity|]). by subst k.
Qed.

Lemma shown_to_one_decimal_holds x : Float.is_finite x = true -> shown_to_one_decimal x.
Proof.
  intros Hx. exists (Fmt.scaled 1 x).
  pose proof (frac_pos x) as [Ha Hb].
  unfold nearest_tenths, Fmt.scaled. cbn [Fmt.render_frag]. unfold Fmt.fixed, Fmt.scaled.
  destruct (Float.frac x) as [a b] eqn:Hfr. cbn [fst snd] in Ha, Hb.
  change (10 ^ Z.of_nat 1) with 10.
  pose proof (round_half_even_nearest (a * 10) b Hb) as Hn.
  pose proof (round_half_even_tie (a * 10) b Hb) as Ht.
  set (n := Float.round_half_even (a * 10) b) in *.
  split; [apply round_half_even_nonneg; lia|]. split.
  - split; [lia|]. intros Heq. apply Ht. lia.
  - rewrite of_int_digit by (pose proof (Z.mod_pos_bound n 10); lia).
    by destruct x.
Qed.

Lemma percent_first_nonzero n :
  (1 <= n)%nat -> Z.of_nat n <= sys_maxsize ->
  Float.is_zero (percent 1 (Z.of_nat n)) = false.
Proof.
  intros Hn Hmax. unfold sys_maxsize in Hmax.
  destruct (percent_normal 1 (Z.of_nat n)) as (m & E & Hp & _); [lia..|].
  unfold percent. by rewrite Hp.
Qed.

Lemma percent_finite k n :
  0 < k -> k <= n -> n <= sys_maxsize -> Float.is_finite (percent k n) = true.
Proof.
  intros Hk Hkn Hmax. unfold sys_maxsize in Hmax.
  destruct (percent_normal k n) as (m & E & Hp & _); [lia..|].
  unfold percent. by rewrite Hp.
Qed.

Lemma percent_full n : (1 <= n)%nat -> percent (Z.of_nat n) (Z.of_nat n) = Float.of_int 100.
Proof.
  intros Hn. unfold percent. rewrite div_int_same by lia. apply mul_one_hundred.
Qed.

Lemma run_percentages_shape n :
  (1 <= n)%nat ->
  length (run_percentages n) = n
  /\ head (run_percentages n) = Some (percent 1 (Z.of_nat n))
  /\ last (run_percentages n) = Some (percent (Z.of_nat n) (Z.of_nat n)).
Proof.
  intros Hn. unfold run_percentages.
  split; [by rewrite length_fmap, length_seq|]. split.
  - destruct n; [lia|]. reflexivity.
  - destruct n as [|m]; [lia|]. rewrite seq_S, fmap_app, list_fmap_singleton, last_snoc. cbn [plus].
    do 2 f_equal. lia.
Qed.

Lemma run_percentages_finite n :
  Z.of_nat n <= sys_maxsize ->
  Forall (fun x => Float.is_finite x = true) (run_percentages n).
Proof.
  intros Hmax. unfold run_percentages. apply Forall_fmap, Forall_forall.
  intros k Hk. apply elem_of_seq in Hk. cbn. apply percent_finite; lia.
Qed.

Lemma shown_percentages_intro {Obj} (r : (gmap string value + exn) * Proc Obj) p n :
  (1 <= n)%nat -> Z.of_nat n <= sys_maxsize ->
  omap progress_of_line (stdout (io r.2))
  = omap progress_of_line (stdout (io p)) ++ run_percentages n ->
  shown_percentages r p n.
Proof.
  intros Hn Hmax Hout. destruct (run_percentages_shape n Hn) as (Hlen & Hhd & Hlast).
  split; [done|]. split; [done|]. split; [by apply run_percentages_finite|].
  split; [done|]. split; [by apply percent_first_nonzero|]. split; [done|].
  split; [by apply percent_full|]. by rewrite percent_full.
Qed.

(** C6.  Each call that records a success or a failure adds one to the
    corresponding counter and prints the percentage
    [(succeeded + failed) / total * 100] computed, in floating point, from
    the counters after the increment ([completes_one]).  So a dispatch run
    over [N] items shows [k/N*100] for [k = 1..N]: the first completion
    shows [1/N*100], which is not zero, and the last shows 100, printed as
    [100.0].  The text of a percentage is its nearest number of tenths,
    the even one on a tie, written with one digit after the point
    ([shown_to_one_decimal]). *)
Theorem progress_reporting (w : World)
    (pd : Proc Downloader.S3Downloader) (keys : list string) (prefix : string)
    (pattern : option string)
    (pu : Proc Uploader.S3Uploader) (files : list string) :
  worker_exceptions w ->
  keys <> [] -> Z.of_nat (length keys) <= sys_maxsize ->
  1 <= Downloader.max_workers (self pd) ->
  files <> [] -> Z.of_nat (length files) <= sys_maxsize ->
  1 <= Uploader.max_workers (self pu) ->
  completes_one (Downloader._download_file w)
  /\ completes_one (Uploader._upload_file w)
  /\ shown_percentages (Downloader.download_listed w keys prefix pattern pd) pd (length keys)
  /\ shown_percentages (Uploader.upload_valid w files pu) pu (length files)
  /\ (forall x, Float.is_finite x = true -> shown_to_one_decimal x).
Proof.
  intros Hw Hk Hkmax Hd Hf Hfmax Hu.
  split; [by apply download_completes_one|]. split; [by apply upload_completes_one|].
  split; [|split; [|apply shown_to_one_decimal_holds]].
  - destruct (download_listed_run w Hw pd keys prefix pattern Hk Hd)
      as (order & yielded & p1 & p0 & p2 & _ & _ & Hrun & _ & _ & _ & _ & _ & Hout & _).
    apply shown_percentages_intro; [destruct keys; [done | simpl; lia]|done|].
    by rewrite Hrun.
  - destruct (upload_valid_run w Hw pu files Hf Hu)
      as (order & yielded & p1 & p0 & p2 & _ & _ & Hrun & _ & _ & _ & _ & _ & Hout & _).
    apply shown_percentages_intro; [destruct files; [done | simpl; lia]|done|].
    by rewrite Hrun.
Qed.

Lemma progress_reporting_witness :
  completes_one (Downloader._download_file sample_world)
  /\ completes_one (Uploader._upload_file sample_world)
  /\ shown_percentages
       (Downloader.download_listed sample_world sample_keys "" None sample_downloader)
       sample_downloader 3
  /\ shown_percentages (Uploader.upload_valid sample_world sample_files sample_uploader)
       sample_uploader 4
  /\ (forall x, Float.is_finite x = true -> shown_to_one_decimal x).
Proof.
  apply (progress_reporting sample_world sample_downloader sample_keys "" None
           sample_uploader sample_files);
    first [exact sample_world_exceptions | discriminate | cbn; lia].
Defined.

(** ** Exceptions and timeouts inside a transfer *)

Lemma submit_all_elem (items : list string) i x :
  items !! i = Some x -> (i, x) ∈ ThreadPool.submit_all items.
Proof.
  intros Hi. apply list_elem_of_lookup. exists i.
  unfold ThreadPool.submit_all. by rewrite list_lookup_imap, Hi.
Qed.

Lemma failure_entry_listed (result : nat * string -> outcome)
    (yielded : list (nat * string)) t :
  t ∈ yielded -> is_failure (result t) ->
  entry_of (result t) ∈ entry_of <$> filter is_failure (result <$> yielded).
Proof.
  intros Ht Hf. apply list_elem_of_fmap. exists (result t). split; [done|].
  apply list_elem_of_filter. split; [done|]. apply list_elem_of_fmap. by exists t.
Qed.

Lemma accounted (outs : list outcome) n :
  length outs = n ->
  Z.of_nat (length (filter is_success outs)) + Z.of_nat (length (filter is_failure outs))
  = Z.of_nat n.
Proof. intros <-. pose proof (success_or_failure outs). lia. Qed.

Lemma download_calls_timeout w d (ts : list (nat * string)) :
  Forall (fun c => call_timeout c = 3600) (ts ≫= download_calls w d).
Proof.
  apply Forall_forall. intros c (t & Hc & _)%list_elem_of_bind.
  unfold download_calls, started in Hc. destruct (download_mkdir w d t.1 t.2).
  - by apply elem_of_nil in Hc.
  - by apply list_elem_of_singleton in Hc as ->.
Qed.

Lemma upload_calls_timeout u (ts : list (nat * string)) :
  Forall (fun c => call_timeout c = 3600) (ts ≫= upload_calls u).
Proof.
  apply Forall_forall. intros c (t & Hc & _)%list_elem_of_bind.
  unfold upload_calls in Hc. by apply list_elem_of_singleton in Hc as ->.
Qed.

Lemma download_raised_result w d i key e :
  download_attempt w d i key = Raised e ->
  exists reason,
    download_result w d (i, key) = (false, key, Some reason)
    /\ (is_TimeoutExpired e = true -> reason = download_timeout_msg).
Proof.
  intros Ha. unfold download_result. cbn [fst snd]. rewrite Ha. cbn.
  destruct (is_TimeoutExpired e); eexists; split; done.
Qed.

Lemma upload_raised_result w u i f e :
  upload_attempt w u i f = Raised e ->
  exists reason,
    upload_result w u (i, f) = (false, f, Some reason)
    /\ (is_TimeoutExpired e = true -> reason = upload_timeout_msg).
Proof.
  intros Ha. unfold upload_result. cbn [fst snd]. rewrite Ha. cbn.
  destruct (is_TimeoutExpired e); eexists; split; done.
Qed.

Section RaisedInRun.
Variable w : World.
Hypothesis Hw : worker_exceptions w.

(** A download run, and its tasks whose attempt raises. *)
Lemma download_run_records p keys prefix pattern :
  keys <> [] -> 1 <= Downloader.max_workers (self p) ->
  exists s f errors elapsed p' calls,
    Downloader.download_listed w keys prefix pattern p
    = (inl (summary4 s f errors elapsed), p')
    /\ s + f = Z.of_nat (length keys)
    /\ f = Z.of_nat (length errors)
    /\ spawned (io p') = spawned (io p) ++ calls
    /\ Forall (fun c => call_timeout c = 3600) calls
    /\ (forall i key e,
          keys !! i = Some key -> download_attempt w (self p) i key = Raised e ->
          exists reason,
            1 <= f
            /\ {| file := key; error := Some reason |} ∈ errors
            /\ (is_TimeoutExpired e = true -> reason = download_timeout_msg)).
Proof.
  intros Hk Hmw.
  destruct (download_listed_run w Hw p keys prefix pattern Hk Hmw)
    as (order & yielded & p1 & p0 & p2 & Hord & Hyld & Hrun & _ & _ & Hs & Hf & Hsp & _).
  eexists _, _, _, _, p2, _. split; [exact Hrun|].
  split. { rewrite Hs, Hf. apply accounted.
           by rewrite length_fmap, Hyld, Hord, submit_all_length. }
  split; [by rewrite Hf, length_fmap|].
  split; [exact Hsp|]. split; [apply download_calls_timeout|].
  intros i key e Hi Ha.
  destruct (download_raised_result w (self p) i key e Ha) as (reason & Hres & Hto).
  assert ({| file := key; error := Some reason |}
          ∈ entry_of <$> filter is_failure (download_result w (self p) <$> yielded)) as Hin.
  { change {| file := key; error := Some reason |} with (entry_of (false, key, Some reason)).
    rewrite <-Hres. apply failure_entry_listed; [|by rewrite Hres].
    rewrite Hyld, Hord. by apply submit_all_elem. }
  exists reason. split; [|done].
  rewrite Hf. apply list_elem_of_fmap in Hin as (o & _ & Ho).
  destruct (filter _ _); [by apply elem_of_nil in Ho | simpl; lia].
Qed.

Lemma upload_run_records p files :
  files <> [] -> 1 <= Uploader.max_workers (self p) ->
  exists s fl errors elapsed p' calls,
    Uploader.upload_valid w files p
    = (inl (summary4 s fl errors elapsed), p')
    /\ s + fl = Z.of_nat (length files)
    /\ fl = Z.of_nat (length errors)
    /\ spawned (io p') = spawned (io p) ++ calls
    /\ Forall (fun c => call_timeout c = 3600) calls
    /\ (forall i f e,
          files !! i = Some f -> upload_attempt w (self p) i f = Raised e ->
          exists reason,
            1 <= fl
            /\ {| file := f; error := Some reason |} ∈ errors
            /\ (is_TimeoutExpired e = true -> reason = upload_timeout_msg)).
Proof.
  intros Hk Hmw.
  destruct (upload_valid_run w Hw p files Hk Hmw)
    as (order & yielded & p1 & p0 & p2 & Hord & Hyld & Hrun & _ & _ & Hs & Hf & Hsp & _).
  eexists _, _, _, _, p2, _. split; [exact Hrun|].
  split. { rewrite Hs, Hf. apply accounted.
           by rewrite length_fmap, Hyld, Hord, submit_all_length. }
  split; [by rewrite Hf, length_fmap|].
  split; [exact Hsp|]. split; [apply upload_calls_timeout|].
  intros i f e Hi Ha.
  destruct (upload_raised_result w (self p) i f e Ha) as (reason & Hres & Hto).
  assert ({| file := f; error := Some reason |}
          ∈ entry_of <$> filter is_failure (upload_result w (self p) <$> yielded)) as Hin.
  { change {| file := f; error := Some reason |} with (entry_of (false, f, Some reason)).
    rewrite <-Hres. apply failure_entry_listed; [|by rewrite Hres].
    rewrite Hyld, Hord. by apply submit_all_elem. }
  exists reason. split; [|done].
  rewrite Hf. apply list_elem_of_fmap in Hin as (o & _ & Ho).
  destruct (filter _ _); [by apply elem_of_nil in Ho | simpl; lia].
Qed.

End RaisedInRun.

(** A call whose attempt raises a subclass of [Exception]. *)
Lemma download_call_caught w : catches (Downloader._download_file w) (download_attempt w).
Proof.
  intros i key e p He Ht Hr Ha.
  destruct (_download_file_spec w i key p Ht Hr) as (line & p' & Hrun & Hself & _).
  { intros e' He'. rewrite Ha in He'. by injection He' as <-. }
  destruct (download_raised_result w (self p) i key e Ha) as (reason & Hres & _).
  unfold download_result in Hres. cbn [fst snd] in Hres. rewrite Hres in Hrun, Hself.
  exists reason, p'. split; [done|]. cbn [is_success fst] in Hself.
  cbn [failed succeeded downloader_tracker]. by rewrite Hself.
Qed.

Lemma upload_call_caught w : catches (Uploader._upload_file w) (upload_attempt w).
Proof.
  intros i f e p He Ht Hr Ha.
  destruct (_upload_file_spec w i f p Ht Hr) as (line & p' & Hrun & Hself & _).
  { intros e' He'. rewrite Ha in He'. by injection He' as <-. }
  destruct (upload_raised_result w (self p) i f e Ha) as (reason & Hres & _).
  unfold upload_result in Hres. cbn [fst snd] in Hres. rewrite Hres in Hrun, Hself.
  exists reason, p'. split; [done|]. cbn [is_success fst] in Hself.
  cbn [failed succeeded uploader_tracker]. by rewrite Hself.
Qed.

(** C4.  Whatever subclass of [Exception] a call made for one item's
    transfer raises, a timeout included, the per-file function returns a
    failure outcome that carries the item and a reason, and counts it as
    a failure: nothing is raised to the pool ([catches]).  Every dispatch
    run over a non-empty list returns a summary that accounts for every
    item, and every item whose transfer raised appears in its error list
    ([failures_recorded]).  Each of the four statements stands on its
    own: the two about downloads say nothing of uploads, and the two
    about uploads nothing of downloads. *)
Theorem exceptions_become_failures (w : World) :
  worker_exceptions w ->
  catches (Downloader._download_file w) (download_attempt w)
  /\ (forall (pd : Proc Downloader.S3Downloader) keys prefix pattern,
        keys <> [] -> 1 <= Downloader.max_workers (self pd) ->
        failures_recorded (Downloader.download_listed w keys prefix pattern pd) keys
          (fun i key => exists e, download_attempt w (self pd) i key = Raised e))
  /\ catches (Uploader._upload_file w) (upload_attempt w)
  /\ (forall (pu : Proc Uploader.S3Uploader) files,
        files <> [] -> 1 <= Uploader.max_workers (self pu) ->
        failures_recorded (Uploader.upload_valid w files pu) files
          (fun j f => exists e, upload_attempt w (self pu) j f = Raised e)).
Proof.
  intros Hw.
  split; [apply download_call_caught|]. split; [|split; [apply upload_call_caught|]].
  - intros pd keys prefix pattern Hk Hmw.
    destruct (download_run_records w Hw pd keys prefix pattern Hk Hmw)
      as (s & fl & errors & elapsed & p' & calls & Hrun & Hsum & Hlen & _ & _ & Hin).
    exists s, fl, errors, elapsed, p'. split; [done|]. split; [done|]. split; [done|].
    intros i key Hi [e Ha]. destruct (Hin i key e Hi Ha) as (reason & _ & Hr & _).
    by exists reason.
  - intros pu files Hf Hmu.
    destruct (upload_run_records w Hw pu files Hf Hmu)
      as (s & fl & errors & elapsed & p' & calls & Hrun & Hsum & Hlen & _ & _ & Hin).
    exists s, fl, errors, elapsed, p'. split; [done|]. split; [done|]. split; [done|].
    intros j f Hj [e Ha]. destruct (Hin j f e Hj Ha) as (reason & _ & Hr & _).
    by exists reason.
Qed.

Lemma exceptions_become_failures_witness :
  caught (Downloader._download_file sample_world 1 "logs/b.txt" sample_download_run)
    sample_download_run "logs/b.txt"
  /\ failures_recorded
       (Downloader.download_listed sample_world sample_keys "" None sample_downloader)
       sample_keys
       (fun i key => exists e,
          download_attempt sample_world (self sample_downloader) i key = Raised e)
  /\ caught (Uploader._upload_file sample_world 1 "missing.txt" sample_upload_run)
       sample_upload_run "missing.txt"
  /\ failures_recorded (Uploader.upload_valid sample_world sample_files sample_uploader)
       sample_files
       (fun j f => exists e,
          upload_attempt sample_world (self sample_uploader) j f = Raised e).
Proof.
  destruct (exceptions_become_failures sample_world sample_world_exceptions)
    as (Hd & Hdr & Hu & Hur).
  split; [|split; [|split]].
  - apply (Hd 1%nat "logs/b.txt" (TimeoutExpired "timed out after 3600 seconds"));
      first [discriminate | reflexivity].
  - apply Hdr; first [discriminate | cbn; lia].
  - apply (Hu 1%nat "missing.txt" (TimeoutExpired "timed out after 3600 seconds"));
      first [discriminate | reflexivity].
  - apply Hur; first [discriminate | cbn; lia].
Defined.

(** C5.  Every child process a transfer starts is given a timeout of 3600
    seconds, in every dispatch run.  Every item whose process exceeds it
    is listed among the errors with a reason that mentions the timeout
    and is counted in [failed], and the run still returns a summary that
    accounts for every item.  The reason is
    ["Download timeout (1 hour exceeded)"] for a download and
    ["Upload timeout (5 minutes exceeded)"] for an upload.  The statement
    about downloads says nothing of uploads, and conversely. *)
Theorem timeouts_become_failures (w : World) :
  worker_exceptions w ->
  (forall (pd : Proc Downloader.S3Downloader) keys prefix pattern,
     keys <> [] -> 1 <= Downloader.max_workers (self pd) ->
     timeouts_recorded (Downloader.download_listed w keys prefix pattern pd) pd keys
       (download_times_out w (self pd)) "Download timeout (1 hour exceeded)")
  /\ (forall (pu : Proc Uploader.S3Uploader) files,
        files <> [] -> 1 <= Uploader.max_workers (self pu) ->
        timeouts_recorded (Uploader.upload_valid w files pu) pu files
          (upload_times_out w (self pu)) "Upload timeout (5 minutes exceeded)").
Proof.
  intros Hw. split.
  - intros pd keys prefix pattern Hk Hmw.
    destruct (download_run_records w Hw pd keys prefix pattern Hk Hmw)
      as (s & fl & errors & elapsed & p' & calls & Hrun & Hsum & Hlen & Hsp & Hcalls & Hin).
    exists s, fl, errors, elapsed, p', calls.
    split; [done|]. split; [done|]. split; [done|]. split; [done|]. split; [done|].
    split; [reflexivity|].
    intros i key Hi (Hmk & msg & Hto).
    assert (download_attempt w (self pd) i key = Raised (TimeoutExpired msg)) as Ha.
    { unfold download_attempt. by rewrite Hmk, Hto. }
    destruct (Hin i key _ Hi Ha) as (reason & Hone & Hr & Hmsg).
    by rewrite (Hmsg eq_refl) in Hr.
  - intros pu files Hf Hmu.
    destruct (upload_run_records w Hw pu files Hf Hmu)
      as (s & fl & errors & elapsed & p' & calls & Hrun & Hsum & Hlen & Hsp & Hcalls & Hin).
    exists s, fl, errors, elapsed, p', calls.
    split; [done|]. split; [done|]. split; [done|]. split; [done|]. split; [done|].
    split; [reflexivity|].
    intros j f Hj (msg & Hto).
    assert (upload_attempt w (self pu) j f = Raised (TimeoutExpired msg)) as Ha.
    { unfold upload_attempt. by rewrite Hto. }
    destruct (Hin j f _ Hj Ha) as (reason & Hone & Hr & Hmsg).
    by rewrite (Hmsg eq_refl) in Hr.
Qed.

Lemma timeouts_become_failures_witness :
  timeouts_recorded
    (Downloader.download_listed sample_world sample_keys "" None sample_downloader)
    sample_downloader sample_keys (download_times_out sample_world (self sample_downloader))
    "Download timeout (1 hour exceeded)"
  /\ download_times_out sample_world (self sample_downloader) 1 "logs/b.txt"
  /\ timeouts_recorded (Uploader.upload_valid sample_world sample_files sample_uploader)
       sample_uploader sample_files (upload_times_out sample_world (self sample_uploader))
       "Upload timeout (5 minutes exceeded)"
  /\ upload_times_out sample_world (self sample_uploader) 1 "missing.txt".
Proof.
  destruct (timeouts_become_failures sample_world sample_world_exceptions) as (Hd & Hu).
  split; [|split; [|split]].
  - apply Hd; first [discriminate | cbn; lia].
  - split; [reflexivity|]. by eexists.
  - apply Hu; first [discriminate | cbn; lia].
  - by eexists.
Defined.

(** ** Paths that are not regular files *)

Lemma submit_all_elem_inv (items : list string) t :
  t ∈ ThreadPool.submit_all items -> t.2 ∈ items.
Proof.
  intros (i & Hi)%list_elem_of_lookup. unfold ThreadPool.submit_all in Hi.
  rewrite list_lookup_imap in Hi. destruct (items !! i) as [x|] eqn:Hx; [|done].
  injection Hi as <-. cbn. apply list_elem_of_lookup. by exists i.
Qed.

Lemma upload_result_file w u t :
  (upload_result w u t).1.2 = t.2
  \/ (upload_result w u t).1.2 = Pathlib.to_str (Pathlib.of_str t.2).
Proof.
  unfold upload_result, outcome_of. destruct (upload_attempt w u t.1 t.2) as [| |e]; cbn; auto.
  destruct (is_TimeoutExpired e); cbn; auto.
Qed.

Lemma upload_command_source u f :
  upload_command u f !! 3%nat = Some (Pathlib.to_str (Pathlib.of_str f)).
Proof.
  unfold upload_command, Uploader._build_aws_command, extend_profile.
  destruct (Uploader.aws_profile u) as [pr|]; [destruct (Str.truthy pr)|]; reflexivity.
Qed.

Lemma summary3_errors s f errors : summary3 s f errors !! "errors" = Some (VErrors errors).
Proof. by vm_compute. Qed.

Lemma summary4_errors s f errors t :
  summary4 s f errors t !! "errors" = Some (VErrors errors).
Proof. by vm_compute. Qed.

Lemma upload_files_filtered w p file_list :
  worker_exceptions w -> isfile_normalized w ->
  1 <= Uploader.max_workers (self p) ->
  upload_filtered w (Uploader.upload_files w file_list p) p file_list.
Proof.
  intros Hw Hnorm Hmw. unfold upload_filtered. cbn zeta.
  unfold Uploader.upload_files. unfold mbind at 1, M_bind.
  destruct (filter_valid_run w file_list [] p) as (pf & Hfv & Hself & Hsp & _ & Hout).
  rewrite Hfv. cbn [app].
  destruct (filter (sys_isfile w) file_list) as [|x rest] eqn:Hvalid.
  - eexists _, _, [], []. split; [reflexivity|]. split; [apply summary3_errors|].
    cbn [self io spawned]. rewrite app_nil_r. split; [done|].
    split; [constructor|]. split; [constructor|]. split; [done|]. done.
  - rewrite <-Hvalid.
    assert (filter (sys_isfile w) file_list <> []) as Hne by by rewrite Hvalid.
    assert (1 <= Uploader.max_workers (self pf)) as Hmw' by by rewrite Hself.
    destruct (upload_valid_run w Hw pf _ Hne Hmw')
      as (order & yielded & p1 & p0 & p2 & Hord & Hyld & Hrun & Hs2 & Ht & Hs & Hf & Hsp2 & Hout2 & _).
    rewrite Hrun. rewrite Hself in *.
    eexists _, p2, _, _. split; [reflexivity|].
    split; [apply summary4_errors|]. split; [by rewrite Hsp2, Hsp|].
    split; [|split; [|split; [done|]]].
    + apply Forall_forall. intros c (t & Hc & Ht')%list_elem_of_bind.
      apply list_elem_of_singleton in Hc as ->. cbn [call_argv].
      eexists. split; [apply upload_command_source|]. apply Hnorm.
      rewrite Hord in Ht'. apply submit_all_elem_inv in Ht'.
      apply list_elem_of_filter in Ht' as [Hfile _]. by apply Is_true_true.
    + apply Forall_fmap, Forall_forall. intros o [_ Ho]%list_elem_of_filter.
      apply list_elem_of_fmap in Ho as (t & -> & Ht').
      rewrite Hyld, Hord in Ht'. apply submit_all_elem_inv in Ht'.
      apply list_elem_of_filter in Ht' as [Hfile%Is_true_true _].
      cbn. destruct (upload_result_file w (self p) t) as [-> | ->]; [done|by apply Hnorm].
    + intros _. eexists _, _, _. split; [reflexivity|].
      split. { rewrite Hs, Hf. apply accounted.
               by rewrite length_fmap, Hyld, Hord, submit_all_length. }
      split; [by rewrite Hf, length_fmap|]. split; [by rewrite Hs2|]. by rewrite Hout2, Hout.
Qed.

(** C8.  [upload_files] drops every input path that is not an existing
    regular file before the dispatch: no child process is started for it
    (every transfer has a regular file as its source), it is no failure
    and no error entry (every entry names a regular file, and [failed] is
    the number of entries), and the total behind the counts and the
    percentages is the number of regular files.  When no path is a regular
    file the result is [{success: 0, failed: 0, errors: []}]. *)
Theorem upload_skips_missing_files (w : World) (p : Proc Uploader.S3Uploader)
    (file_list : list string) (path : string) :
  worker_exceptions w -> isfile_normalized w ->
  1 <= Uploader.max_workers (self p) ->
  sys_isfile w path = false ->
  upload_filtered w (Uploader.upload_files w file_list p) p file_list
  /\ skipped (Uploader.upload_files w file_list p) p path.
Proof.
  intros Hw Hnorm Hmw Hpath.
  pose proof (upload_files_filtered w p file_list Hw Hnorm Hmw) as Hfil.
  split; [done|].
  destruct Hfil as (res & p' & calls & errors & Hrun & Herr & Hsp & Hcalls & Herrs & _).
  split.
  - intros res' p'' errors' Hrun' Herr'. rewrite Hrun in Hrun'.
    injection Hrun' as <- <-. rewrite Herr in Herr'. injection Herr' as <-.
    intros (e & -> & He)%list_elem_of_fmap.
    rewrite Forall_forall in Herrs. specialize (Herrs e He). congruence.
  - intros c. rewrite Hrun. cbn [snd]. rewrite Hsp.
    intros [Hc|Hc]%elem_of_app; [by left|right].
    rewrite Forall_forall in Hcalls. destruct (Hcalls c Hc) as (src & -> & Hsrc).
    intros [= ->]. congruence.
Qed.

Lemma sample_world_normalized : isfile_normalized sample_world.
Proof.
  intros f. cbn.
  destruct (String.eqb_spec f "a.txt") as [->|_]; [reflexivity|].
  destruct (String.eqb_spec f "b.txt") as [->|_]; [reflexivity|].
  destruct (String.eqb_spec f "c.txt") as [->|_]; [reflexivity|discriminate].
Defined.

Lemma upload_skips_missing_files_witness :
  upload_filtered sample_world (Uploader.upload_files sample_world sample_files sample_uploader)
    sample_uploader sample_files
  /\ skipped (Uploader.upload_files sample_world sample_files sample_uploader)
       sample_uploader "missing.txt".
Proof.
  apply (upload_skips_missing_files sample_world sample_uploader sample_files "missing.txt").
  - exact sample_world_exceptions.
  - exact sample_world_normalized.
  - cbn. lia.
  - reflexivity.
Defined.

(** ** Destinations *)










(** The uploader holds its prefix without trailing slashes. *)
Lemma uploader_init_prefix w bucket workers prefix profile io0 u io1 :
  Uploader.__init__ w bucket workers prefix profile io0 = (inl u, io1) ->
  Uploader.s3_prefix u = Str.rstrip_slash prefix
  /\ Uploader.bucket_name u = bucket.
Proof.
  unfold Uploader.__init__, Uploader._check_aws_cli. munfold. cbn [self io].
  destruct (sys_run w MainThread ["aws"; "--version"] 10) as [rc out err|e].
  - destruct (negb (rc =? 0)); cbn; [discriminate|]. by intros [= <- _].
  - cbn. destruct (is_Exception e); cbn; [discriminate|]. discriminate.
Qed.

Section Collisions.
Variable w : World.
Hypothesis Hw : worker_exceptions w.



End Collisions.



(** ** Parsing the listing *)

Lemma append_cons c s t : String c s +:+ t = String c (s +:+ t).
Proof. reflexivity. Qed.

Lemma append_nil_l t : "" +:+ t = t.
Proof. reflexivity. Qed.

Lemma append_nil_r s : s +:+ "" = s.
Proof. induction s as [|c s IH]; [done|]. by rewrite append_cons, IH. Qed.

Lemma is_ascii_not_continuation c : Str.is_ascii c = true -> Str.is_continuation c = false.
Proof.
  unfold Str.is_ascii, Str.is_continuation. intros Hc%Nat.ltb_lt.
  apply andb_false_iff. left. apply Nat.leb_gt. lia.
Qed.

Lemma chars_cons c s : exists r rest, Str.chars (String c s) = String c r :: rest.
Proof.
  cbn [Str.chars]. destruct (Str.chars s) as [|[|c' ch] rest]; [by eexists _, _..|].
  destruct (negb (Str.is_ascii c) && Str.is_continuation c'); by eexists _, _.
Qed.

Lemma chars_ascii c s :
  Str.is_ascii c = true -> Str.chars (String c s) = String c "" :: Str.chars s.
Proof.
  intros Hc. cbn [Str.chars]. destruct (Str.chars s) as [|[|c' ch] rest]; [done..|].
  by rewrite Hc.
Qed.

(** An ASCII character starts a character wherever it stands. *)
Lemma chars_app_ascii a c b :
  Str.is_ascii c = true ->
  Str.chars (a +:+ String c b) = Str.chars a ++ Str.chars (String c b).
Proof.
  intros Hc. rewrite (chars_ascii c b Hc). induction a as [|x a IH].
  { by rewrite <-(chars_ascii c b Hc). }
  change (String x a +:+ String c b) with (String x (a +:+ String c b)).
  cbn [Str.chars]. rewrite IH. destruct a as [|y a'].
  - cbn [Str.chars app].
    by rewrite (is_ascii_not_continuation c Hc), andb_false_r.
  - destruct (chars_cons y a') as (r & rest & ->). cbn [app].
    by destruct (negb (Str.is_ascii x) && Str.is_continuation y).
Qed.

Lemma chars_encoded s : Forall encoded_char (Str.chars s).
Proof.
  induction s as [|c s IH]; [constructor|].
  assert (encoded_char (String c "")) as Hone.
  { cbn [encoded_char free_of]. destruct (Str.is_ascii c) eqn:Hc; [done|].
    destruct (Ascii.eqb_spec c " ") as [->|]; [done|]. done. }
  cbn [Str.chars]. destruct (Str.chars s) as [|[|c' ch] rest]; [by repeat constructor| |].
  - by constructor.
  - inversion_clear IH as [|? ? Hch Hrest].
    destruct (Str.is_ascii c) eqn:Hc; cbn [negb andb]; [by repeat constructor|].
    destruct (Str.is_continuation c') eqn:Hc'; [|by repeat constructor].
    constructor; [|done]. cbn [encoded_char]. rewrite Hc.
    cbn [encoded_char] in Hch.
    destruct (Str.is_ascii c') eqn:Ha.
    { by rewrite (is_ascii_not_continuation c' Ha) in Hc'. }
    change (free_of " " (String c (String c' ch)))
      with (negb (Ascii.eqb c " ") && free_of " " (String c' ch)).
    rewrite Hch, andb_true_r.
    destruct (Ascii.eqb_spec c " ") as [->|]; [done|]. done.
Qed.

Lemma encoded_char_word ch :
  encoded_char ch -> Str.isspace ch = false -> ch <> "" /\ free_of " " ch = true.
Proof.
  destruct ch as [|c r]; [done|]. cbn [encoded_char].
  destruct (Str.is_ascii c) eqn:Hc; [|done].
  intros -> Hsp. split; [done|]. cbn [free_of].
  destruct (Ascii.eqb_spec c " ") as [->|]; [done|]. done.
Qed.

Lemma free_of_app sep a b : free_of sep (a +:+ b) = free_of sep a && free_of sep b.
Proof.
  induction a as [|c a IH]; [done|].
  change (String c a +:+ b) with (String c (a +:+ b)). cbn [free_of].
  by rewrite IH, andb_assoc.
Qed.

Lemma append_not_empty a b : a <> "" -> a +:+ b <> "".
Proof. by destruct a. Qed.

Lemma split_chars_nonspace_cons ch l :
  Str.isspace ch = false -> exists w ws, Str.split_chars (ch :: l) = (ch +:+ w) :: ws.
Proof.
  intros Hc. cbn [Str.split_chars]. rewrite Hc.
  destruct l as [|ch' l']; [exists "", []; by rewrite append_nil_r|].
  destruct (Str.isspace ch'); [eexists "", _; by rewrite append_nil_r|].
  destruct (Str.split_chars (ch' :: l')); [exists "", []; by rewrite append_nil_r|by eexists _, _].
Qed.

(** The fields of [s.split()] are not empty and hold no space. *)
Lemma split_chars_fields l :
  Forall encoded_char l ->
  Forall (fun f => f <> "" /\ free_of " " f = true) (Str.split_chars l).
Proof.
  induction l as [|ch l IH]; [constructor|].
  intros Hall. inversion_clear Hall as [|? ? Hch Hl]. specialize (IH Hl).
  cbn [Str.split_chars]. destruct (Str.isspace ch) eqn:Hc; [done|].
  pose proof (encoded_char_word ch Hch Hc) as Hone.
  destruct l as [|ch' l']; [constructor; [exact Hone|constructor]|].
  destruct (Str.isspace ch') eqn:Hc'; [by constructor|].
  destruct (Str.split_chars (ch' :: l')) as [|w ws]; [constructor; [exact Hone|constructor]|].
  inversion_clear IH as [|? ? [_ Hw] Hws]. constructor; [|done].
  destruct Hone as [Hne Hfree]. split; [by apply append_not_empty|].
  by rewrite free_of_app, Hfree, Hw.
Qed.

Lemma split_fields s :
  Forall (fun f => f <> "" /\ free_of " " f = true) (Str.split s).
Proof. apply split_chars_fields, chars_encoded. Qed.

Lemma split_chars_app_space l1 sp l2 :
  Str.isspace sp = true ->
  Str.split_chars (l1 ++ sp :: l2) = Str.split_chars l1 ++ Str.split_chars l2.
Proof.
  intros Hsp. induction l1 as [|ch l1 IH]; [by cbn; rewrite Hsp|].
  cbn [app Str.split_chars]. destruct (Str.isspace ch) eqn:Hc; [done|].
  destruct l1 as [|ch' l1'].
  - cbn [app] in *. by rewrite Hsp, IH.
  - cbn [app] in *. destruct (Str.isspace ch') eqn:Hc'.
    + by rewrite IH.
    + rewrite IH. destruct (split_chars_nonspace_cons ch' l1' Hc') as (w & ws & ->). done.
Qed.

Lemma split_app_space a b :
  Str.split (a +:+ String " " b) = Str.split a ++ Str.split b.
Proof.
  unfold Str.split. rewrite chars_app_ascii, chars_ascii by done.
  by apply split_chars_app_space.
Qed.

Lemma split_repeat_space n s :
  Str.split (Str.repeat_char " " n +:+ s) = Str.split s.
Proof.
  induction n as [|n IH]; [done|].
  change (Str.repeat_char " " (S n) +:+ s) with (String " " (Str.repeat_char " " n +:+ s)).
  unfold Str.split in *. by rewrite chars_ascii.
Qed.

Lemma split_ls_line date time pad size key :
  Str.split date = [date] -> Str.split time = [time] -> Str.split size = [size] ->
  Str.split (ls_line date time pad size key) = [date; time; size] ++ Str.split key.
Proof.
  intros Hd Ht Hs. unfold ls_line.
  change (date +:+ " " +:+ ?r) with (date +:+ String " " r).
  rewrite split_app_space, Hd.
  change (time +:+ " " +:+ ?r) with (time +:+ String " " r).
  rewrite split_app_space, Ht, split_repeat_space.
  change (size +:+ " " +:+ key) with (size +:+ String " " key).
  by rewrite split_app_space, Hs.
Qed.

Lemma prefix_two_spaces c s : c <> " "%char -> String.prefix "  " (String c s) = false.
Proof.
  intros Hc. cbn [String.prefix]. destruct (ascii_dec " " c) as [Heq|]; [|done].
  by destruct Hc.
Qed.

Lemma prefix_space_then c s :
  c <> " "%char -> String.prefix "  " (String " " (String c s)) = false.
Proof.
  intros Hc. cbn [String.prefix].
  destruct (ascii_dec " " " ") as [_|]; [|done].
  destruct (ascii_dec " " c) as [Heq|]; [|done]. by destruct Hc.
Qed.

Lemma free_of_head c s : free_of " " (String c s) = true -> c <> " "%char.
Proof. cbn [free_of]. intros [Hc _]%andb_prop ->. done. Qed.

Lemma word_then_space f r :
  f <> "" -> free_of " " f = true ->
  r <> "" -> String.prefix " " r = false -> Str.contains "  " r = false ->
  Str.contains "  " (f +:+ " " +:+ r) = false.
Proof.
  intros Hf Hn Hr Hp Hc. induction f as [|c f IH]; [done|].
  pose proof (free_of_head c f Hn) as Hc1.
  cbn [free_of] in Hn. apply andb_prop in Hn as [_ Hn].
  change (String c f +:+ " " +:+ r) with (String c (f +:+ " " +:+ r)).
  cbn [Str.contains]. rewrite prefix_two_spaces by done.
  cbn [orb]. destruct f as [|c' f'].
  - change ("" +:+ " " +:+ r) with (String " " r). cbn [Str.contains].
    destruct r as [|c2 r]; [done|].
    assert (c2 <> " "%char) as Hc2.
    { intros ->. cbn [String.prefix] in Hp.
      destruct (ascii_dec " " " ") as [_|Hd]; [by destruct r|by destruct Hd]. }
    rewrite prefix_space_then by done. exact Hc.
  - by apply IH.
Qed.

Lemma word_no_double_space f : free_of " " f = true -> Str.contains "  " f = false.
Proof.
  induction f as [|c f IH]; [done|]. intros Hn.
  pose proof (free_of_head c f Hn) as Hc. cbn [free_of] in Hn.
  apply andb_prop in Hn as [_ Hn]. cbn [Str.contains].
  rewrite prefix_two_spaces by done. by apply IH.
Qed.

Lemma word_prefix f r : f <> "" -> free_of " " f = true -> String.prefix " " (f +:+ r) = false.
Proof.
  intros Hf Hn. destruct f as [|c f]; [done|].
  pose proof (free_of_head c f Hn) as Hc.
  change (String c f +:+ r) with (String c (f +:+ r)). cbn [String.prefix].
  destruct (ascii_dec " " c) as [Heq|]; [|done]. by destruct Hc.
Qed.

(** Fields joined by single spaces never show two spaces in a row. *)
Lemma join_fields_single_spaced (fields : list string) :
  Forall (fun f => f <> "" /\ free_of " " f = true) fields ->
  Str.contains "  " (Str.join " " fields) = false
  /\ (fields <> [] ->
      Str.join " " fields <> "" /\ String.prefix " " (Str.join " " fields) = false).
Proof.
  induction fields as [|f fields IH]; [done|].
  intros Hall. inversion_clear Hall as [|? ? [Hf Hn] Hrest].
  destruct fields as [|g fields].
  - cbn [Str.join]. split; [by apply word_no_double_space|]. intros _. split; [done|].
    pose proof (word_prefix f "" Hf Hn) as Hp. by rewrite append_nil_r in Hp.
  - destruct (IH Hrest) as [Hc Hs]. destruct (Hs ltac:(done)) as [Hne Hp].
    change (Str.join " " (f :: g :: fields)) with (f +:+ " " +:+ Str.join " " (g :: fields)).
    split; [by apply word_then_space|]. intros _.
    split; [by apply append_not_empty|by apply word_prefix].
Qed.

Lemma chars_not_empty s : Forall (fun ch => ch <> "") (Str.chars s).
Proof.
  eapply Forall_impl; [apply chars_encoded|]. intros ch Hch ->. done.
Qed.

Lemma strip_chars_truthy l :
  Forall (fun ch => ch <> "") l -> Str.split_chars l <> [] ->
  Str.truthy (fold_right String.append "" (Str.rstrip_chars (Str.lstrip_chars l))) = true.
Proof.
  induction l as [|ch l IH]; [done|].
  intros Hall. inversion_clear Hall as [|? ? Hch Hl].
  cbn [Str.split_chars Str.lstrip_chars]. destruct (Str.isspace ch) eqn:Hc; [by apply IH|].
  intros _. cbn [Str.rstrip_chars]. destruct (Str.rstrip_chars l).
  - rewrite Hc. cbn. by destruct ch.
  - cbn [fold_right]. by destruct ch.
Qed.

Lemma split_strip_truthy line : Str.split line <> [] -> Str.truthy (Str.strip line) = true.
Proof. apply strip_chars_truthy, chars_not_empty. Qed.

Lemma strip_blank_split line : Str.truthy (Str.strip line) = false -> Str.split line = [].
Proof.
  intros Hs. destruct (Str.split line) as [|f fs] eqn:Hf; [done|].
  rewrite split_strip_truthy in Hs; [done|]. by rewrite Hf.
Qed.

Lemma filter_all {A} (f : A -> bool) (l : list A) :
  (forall x, f x = true) -> filter f l = l.
Proof.
  intros Hf. induction l as [|x l IH]; [done|].
  rewrite filter_cons_True by (by rewrite Hf). by rewrite IH.
Qed.



Lemma key_of_line_single_spaced line key :
  key_of_line line = Some key -> Str.contains "  " key = false.
Proof.
  unfold key_of_line. cbn zeta. destruct (4 <=? length (Str.split line))%nat; [|done].
  intros [= <-]. apply join_fields_single_spaced, Forall_drop, split_fields.
Qed.

Section ParseListing.
Variable w : World.

Lemma parse_line_key pattern files line :
  Downloader.parse_line w pattern files line
  = files ++ filter (matches w pattern) (omap key_of_line [line]).
Proof.
  unfold Downloader.parse_line. cbn [omap list_omap]. unfold key_of_line. cbn zeta.
  destruct (Str.truthy (Str.strip line)) eqn:Hs.
  - destruct (4 <=? length (Str.split line))%nat; [|by rewrite app_nil_r].
    destruct pattern as [pat|].
    + unfold matches. destruct (Str.truthy pat); cbn [negb andb orb].
      * destruct (sys_fnmatch w _ pat) eqn:Hm; cbn [negb].
        -- rewrite filter_cons_True by (by rewrite Hm). done.
        -- rewrite filter_cons_False by (rewrite Hm; cbv; tauto). by rewrite app_nil_r.
      * by rewrite filter_cons_True.
    + by rewrite filter_cons_True.
  - rewrite (strip_blank_split _ Hs). cbn. by rewrite app_nil_r.
Qed.

Lemma parse_lines_keys pattern lines acc :
  fold_left (Downloader.parse_line w pattern) lines acc
  = acc ++ filter (matches w pattern) (omap key_of_line lines).
Proof.
  revert acc. induction lines as [|line lines IH]; intros acc; cbn [fold_left].
  - by rewrite app_nil_r.
  - rewrite IH, parse_line_key, <-app_assoc. f_equal.
    cbn [omap list_omap]. destruct (key_of_line line) as [key|]; [|done].
    destruct (matches w pattern key) eqn:Hm.
    + rewrite !filter_cons_True by (by rewrite Hm). done.
    + rewrite !filter_cons_False by (rewrite Hm; cbv; tauto). done.
Qed.

Lemma parse_listing_keys pattern out :
  Downloader.parse_listing w pattern out
  = filter (matches w pattern)
      (omap key_of_line (Str.split_on Str.newline (Str.strip out))).
Proof. unfold Downloader.parse_listing. by rewrite parse_lines_keys. Qed.

Lemma parse_listing_single_spaced pattern out key :
  key ∈ Downloader.parse_listing w pattern out -> Str.contains "  " key = false.
Proof.
  rewrite parse_listing_keys.
  intros [_ (line & _ & Hk)%list_elem_of_omap]%list_elem_of_filter.
  by apply (key_of_line_single_spaced line).
Qed.

End ParseListing.

Lemma _list_s3_files_single_spaced w prefix pattern p keys p' key :
  Downloader._list_s3_files w prefix pattern p = (inl keys, p') ->
  key ∈ keys -> Str.contains "  " key = false.
Proof.
  unfold Downloader._list_s3_files. munfold. cbn [self io].
  destruct (sys_run w MainThread _ 1800) as [rc out err|e].
  - destruct (negb (rc =? 0)); cbn; intros [= <- _] Hk.
    + by apply elem_of_nil in Hk.
    + by apply (parse_listing_single_spaced w pattern out).
  - cbn. destruct (is_Exception e); cbn; [|discriminate].
    intros [= <- _] Hk. by apply elem_of_nil in Hk.
Qed.


Lemma download_files_listed w p prefix pattern out err :
  sys_run w MainThread (Downloader._build_aws_list_command (self p) prefix) 1800
  = CompletedProcess 0 out err ->
  Downloader.download_files w prefix pattern p
  = Downloader.download_listed w (Downloader.parse_listing w pattern out) prefix pattern
      (called p [listing_line (self p) prefix] [list_call (self p) prefix]).
Proof.
  intros Hls. unfold Downloader.download_files, Downloader._list_s3_files.
  munfold. cbn [self io]. rewrite Hls. reflexivity.
Qed.



(** ** Sample runs *)

Example path_examples :
  Pathlib.to_str (Pathlib.of_str "a//b/./c/") = "a/b/c"
  /\ Pathlib.name (Pathlib.of_str "uploads/2023/report.txt") = "report.txt"
  /\ Pathlib.name (Pathlib.of_str "/") = ""
  /\ Pathlib.to_str (Pathlib.of_str "") = "."
  /\ Pathlib.to_str (Pathlib.of_str "//x") = "//x"
  /\ Pathlib.to_str (Pathlib.of_str "///x") = "/x"
  /\ Pathlib.to_str (Pathlib.truediv (Pathlib.of_str "./downloads") "f.txt") = "downloads/f.txt".
Proof. repeat split; reflexivity. Qed.

Example str_examples :
  Str.split "2023-12-01 10:30:45     123456 path/to  file.txt"
  = ["2023-12-01"; "10:30:45"; "123456"; "path/to"; "file.txt"]
  /\ Str.split_on "/" "a//b" = ["a"; ""; "b"]
  /\ Str.strip "  x y  " = "x y"
  /\ Str.rstrip_slash "uploads///" = "uploads"
  /\ Str.join " " ["a"; "b"; "c"] = "a b c".
Proof. repeat split; reflexivity. Qed.

(** White space beyond ASCII separates fields and is stripped; a
    character whose encoding holds the byte 0xA0, as U+00E0 does, or that
    is no white space, as U+200B, does not. *)
Example unicode_examples :
  Str.split ("a b c" +:+ no_break_space +:+ "d") = ["a"; "b"; "c"; "d"]
  /\ key_of_line ("a b c" +:+ no_break_space +:+ "d") = Some "d"
  /\ Str.split ("report" +:+ no_break_space +:+ "final.txt") = ["report"; "final.txt"]
  /\ Str.strip (ideographic_space +:+ " x" +:+ line_separator +:+ "y " +:+ next_line)
     = "x" +:+ line_separator +:+ "y"
  /\ Str.split ("caf" +:+ utf8 [195; 160] +:+ " " +:+ utf8 [195; 169] +:+ "t")
     = ["caf" +:+ utf8 [195; 160]; utf8 [195; 169] +:+ "t"]
  /\ Str.split ("a" +:+ zero_width_space +:+ "b") = ["a" +:+ zero_width_space +:+ "b"]
  /\ Str.chars ("🚀 go") = [utf8 [240; 159; 154; 128]; " "; "g"; "o"]
  /\ Str.split ("x" +:+ utf8 [225; 154; 128] +:+ "y" +:+ utf8 [226; 128; 131] +:+ "z"
                +:+ utf8 [226; 129; 159] +:+ utf8 [226; 128; 175] +:+ "w")
     = ["x"; "y"; "z"; "w"]
  /\ Str.split (utf8 [97; 28; 98; 31; 99; 11; 100]) = ["a"; "b"; "c"; "d"].
Proof. repeat apply conj; vm_compute; reflexivity. Qed.

(** Floats as CPython prints them: [23/80*100] is just below 28.75, and
    [1/400*100] and [1/16*100] lie half-way between two tenths. *)
Example fixed_examples :
  Fmt.fixed 5 1 (percent 1 3) = " 33.3"
  /\ Fmt.fixed 5 1 (percent 2 3) = " 66.7"
  /\ Fmt.fixed 5 1 (percent 3 3) = "100.0"
  /\ Fmt.fixed 5 1 (percent 23 80) = " 28.7"
  /\ Fmt.fixed 5 1 (percent 1 400) = "  0.2"
  /\ Fmt.fixed 5 1 (percent 1 16) = "  6.2"
  /\ Fmt.fixed 5 1 (percent 7 2000) = "  0.4"
  /\ Fmt.fixed 5 1 (percent 1 2001) = "  0.0"
  /\ Fmt.fixed 5 1 (percent 1999 2000) = "100.0"
  /\ Fmt.fixed 0 2 (Float.div_int 1234567 1000) = "1234.57"
  /\ Fmt.fixed 0 2 (Float.div_int 1 8) = "0.12"
  /\ Fmt.fixed 5 1 (Float.div_int 0 (-5)) = " -0.0"
  /\ Fmt.fixed 0 2 (Float.sub (Float.div_int 5 2) (Float.of_int 1)) = "1.50"
  /\ Fmt.fixed 5 1 (Float.mul (Float.of_int (10 ^ 300)) (Float.of_int (10 ^ 10))) = "  inf".
Proof. repeat apply conj; vm_compute; reflexivity. Qed.

(** The arithmetic agrees with the IEEE 754 operations of the Standard
    Library ([SpecFloat], at 53 bits of precision) on samples: integers
    up to the largest float and beyond, quotients of small integers,
    their percentages, differences and quotients of such floats, and
    quotients below the smallest normal float. *)
Example float_examples :
  forallb (fun z => same_float (Float.of_int z) (binary64_of_int z))
    [0; 1; -1; 100; 2 ^ 53 + 1; 2 ^ 53 + 3; - (2 ^ 54 + 2); 2 ^ 1023;
     2 ^ 1024 - 2 ^ 970 - 1; 2 ^ 1024 - 2 ^ 970; 2 ^ 1024] = true
  /\ forallb (fun '(a, b) =>
        (b =? 0)
        || same_float (Float.div_int a b)
             (SFdiv 53 1024 (binary64_of_int a) (binary64_of_int b)))
       (sample_pairs 8) = true
  /\ forallb (fun '(a, b) =>
        (b =? 0)
        || same_float (Float.mul (Float.div_int a b) (Float.of_int 100))
             (SFmul 53 1024 (SFdiv 53 1024 (binary64_of_int a) (binary64_of_int b))
                (binary64_of_int 100)))
       (sample_pairs 8) = true
  /\ forallb (fun '(a, b) =>
        same_float (Float.sub (Float.div_int a 7) (Float.div_int b 3))
          (SFsub 53 1024 (SFdiv 53 1024 (binary64_of_int a) (binary64_of_int 7))
             (SFdiv 53 1024 (binary64_of_int b) (binary64_of_int 3))))
       (sample_pairs 6) = true
  /\ forallb (fun '(a, b) =>
        (b =? 0)
        || same_float (Float.div (Float.div_int a 7) (Float.of_int b))
             (SFdiv 53 1024 (SFdiv 53 1024 (binary64_of_int a) (binary64_of_int 7))
                (binary64_of_int b)))
       (sample_pairs 6) = true
  /\ forallb (fun '(a, b) =>
        same_float (Float.div_int a (b * 2 ^ 1020))
          (SFdiv 53 1024 (binary64_of_int a) (binary64_of_int (b * 2 ^ 1020))))
       [(1, 1); (3, 1); (5, 3); (1, 15); (1, 13); (1, 11); (7, 9); (1, 5); (3, 7)] = true.
Proof. repeat apply conj; vm_compute; reflexivity. Qed.

(** A download of the sample listing with five workers: what is printed,
    and the exit status. *)
Example sample_download :
  (Downloader.main sample_listing_world sample_args IO0).1 = inr (SystemExit 1)
  /\ Fmt.render <$> stdout (Downloader.main sample_listing_world sample_args IO0).2
     = ["✓ AWS CLI detected: aws-cli/2.15.0";
        "🔍 Listing files in s3://my-bucket/";
        "🚀 Starting download of 3 files from s3://my-bucket/";
        "📊 Using 5 concurrent workers"; "📁 Output directory: downloads";
        "------------------------------------------------------------";
        "❌ [ 33.3%] Timeout: b c.txt - Download timeout (1 hour exceeded)";
        "✓ [ 66.7%] Downloaded: path/to/a.txt -> downloads/a.txt";
        "❌ [100.0%] Failed: d.txt - fatal error: Access Denied";
        "------------------------------------------------------------";
        "📈 Download Summary:"; "   ✓ Successful: 1"; "   ❌ Failed: 2";
        "   ⏱️  Total time: 1.00 seconds";
        "   📊 Average time per file: 1.00 seconds";
        "
⚠️  Some downloads failed. Check the errors above."].
Proof. split; reflexivity. Qed.

(** An upload whose only path is no regular file passes the test of
    [main()] on [files_to_upload], finds no valid file, and ends with
    [sys.exit(0)]. *)
Example sample_upload_of_missing_file :
  (Uploader.main sample_world sample_upload_args IO0).1 = inr (SystemExit 0)
  /\ Fmt.render <$> stdout (Uploader.main sample_world sample_upload_args IO0).2
     = ["✓ AWS CLI detected: aws-cli/2.15.0";
        "⚠️  Warning: File not found, skipping: missing.txt";
        "❌ No valid files to upload"; "
🎉 All 0 files uploaded successfully!"].
Proof. split; reflexivity. Qed.

(** Outside a dispatch run the total is zero: the percentage cannot be
    computed, first in the [try] body and then in the [except] clause, and
    the call raises after it moved both counters. *)
Example download_file_outside_a_run :
  (Downloader._download_file sample_world 0 "logs/a.txt" sample_downloader).1
  = inr ZeroDivisionError
  /\ Downloader.downloaded_count
       (self (Downloader._download_file sample_world 0 "logs/a.txt" sample_downloader).2) = 1
  /\ Downloader.failed_count
       (self (Downloader._download_file sample_world 0 "logs/a.txt" sample_downloader).2) = 1.
Proof. repeat split; reflexivity. Qed.

(** * Further properties *)

(** ** More on strings *)

Lemma append_assoc s t u : (s +:+ t) +:+ u = s +:+ (t +:+ u).
Proof. induction s as [|a s IH]; [done|]. by rewrite !append_cons, IH. Qed.

Lemma rstrip_by_snoc p s c :
  p c = true -> Str.rstrip_by p (s +:+ String c "") = Str.rstrip_by p s.
Proof.
  intros Hc. induction s as [|a s IH].
  - rewrite append_nil_l. cbn. by rewrite Hc.
  - rewrite append_cons. cbn [Str.rstrip_by]. by rewrite IH.
Qed.

Lemma rstrip_by_repeat p s c n :
  p c = true -> Str.rstrip_by p (s +:+ Str.repeat_char c n) = Str.rstrip_by p s.
Proof.
  intros Hc. revert s. induction n as [|n IH]; intros s; cbn [Str.repeat_char].
  - by rewrite append_nil_r.
  - change (String c (Str.repeat_char c n)) with (String c "" +:+ Str.repeat_char c n).
    by rewrite <-append_assoc, IH, rstrip_by_snoc.
Qed.

Lemma rstrip_by_length p s : (String.length (Str.rstrip_by p s) <= String.length s)%nat.
Proof.
  induction s as [|a s IH]; cbn; [lia|].
  destruct (Str.rstrip_by p s); [destruct (p a)|]; cbn in *; lia.
Qed.

Lemma rstrip_by_idem p s : Str.rstrip_by p (Str.rstrip_by p s) = Str.rstrip_by p s.
Proof.
  induction s as [|a s IH]; [done|]. cbn [Str.rstrip_by].
  destruct (Str.rstrip_by p s) as [|b r] eqn:Hr.
  - destruct (p a) eqn:Ha; [done|]. cbn. by rewrite Ha.
  - change (Str.rstrip_by p (String a (String b r)))
      with (match Str.rstrip_by p (String b r) with
            | "" => if p a then "" else String a ""
            | String x y => String a (String x y)
            end).
    by rewrite IH.
Qed.

Lemma length_snoc s c : String.length (s +:+ String c "") = S (String.length s).
Proof. induction s as [|a s IH]; [done|]. rewrite append_cons. cbn. by f_equal. Qed.

Lemma rstrip_by_last p s t c : Str.rstrip_by p s = t +:+ String c "" -> p c = false.
Proof.
  intros Hs. destruct (p c) eqn:Hc; [|done].
  pose proof (rstrip_by_idem p s) as Hi. rewrite Hs, rstrip_by_snoc in Hi by done.
  pose proof (rstrip_by_length p t) as Hl. rewrite Hi, length_snoc in Hl. lia.
Qed.

(** ** The further sample worlds *)

Lemma sample_listing_world_exceptions : worker_exceptions sample_listing_world.
Proof.
  split.
  - intros i cmd t e. cbn.
    destruct cmd as [|? [|? [|? [|? [|? [|? ?]]]]]]; destruct i as [|[|i]];
      intros [= <-] || discriminate; done.
  - intros i path e. cbn. discriminate.
Defined.

Lemma sample_directory_world_exceptions : worker_exceptions sample_directory_world.
Proof.
  split.
  - intros i cmd t e. cbn. destruct i as [|[|i]]; intros [= <-] || discriminate. done.
  - intros i path e. cbn. discriminate.
Defined.

Lemma obliging_world_exceptions : worker_exceptions obliging_world.
Proof. split; intros i x y e; cbn; discriminate. Defined.

Lemma refusing_world_exceptions : worker_exceptions refusing_world.
Proof. split; intros i x y e; cbn; discriminate. Defined.

Lemma with_schedule_exceptions w lo co :
  worker_exceptions w -> worker_exceptions (with_schedule w lo co).
Proof. intros [Hr Hm]. split; [exact Hr|exact Hm]. Qed.

(** ** The keys of a listing *)

(** X1.  The keys [_list_s3_files] reads from the text of a listing are,
    in the order of the lines, the keys of the lines that have at least
    four whitespace-separated fields (the test [if line.strip()] excludes
    nothing more), less those whose basename [fnmatch] rejects.  So a
    listing filtered by a pattern is the unfiltered listing with the
    rejected keys removed, and the empty pattern filters nothing. *)
Theorem listing_keys (w : World) (pattern : option string) (out : string) :
  Downloader.parse_listing w pattern out
  = filter (matches w pattern)
      (omap key_of_line (Str.split_on Str.newline (Str.strip out)))
  /\ Downloader.parse_listing w pattern out
     = filter (matches w pattern) (Downloader.parse_listing w None out)
  /\ Downloader.parse_listing w (Some "") out = Downloader.parse_listing w None out.
Proof.
  rewrite !parse_listing_keys.
  split; [done|]. split.
  - by rewrite (filter_all (matches w None)).
  - by rewrite !filter_all.
Qed.

Lemma split_join_words (fields : list string) :
  Forall (fun f => Str.split f = [f]) fields ->
  Str.split (Str.join " " fields) = fields.
Proof.
  induction fields as [|f fields IH]; [done|].
  intros Hall. inversion_clear Hall as [|? ? Hf Hrest].
  destruct fields as [|g fields]; [done|].
  change (Str.join " " (f :: g :: fields)) with (f +:+ String " " (Str.join " " (g :: fields))).
  by rewrite split_app_space, Hf, IH.
Qed.

(** X2.  A line of [aws s3 ls] is read back as exactly its key when the
    key is made of words separated by single spaces, a word being a
    string [f] with [f.split() == [f]]: for such a key, whatever the
    padding in front of the size, the key of the line is the key itself,
    and the parsing loop appends it. *)
Theorem single_spaced_key_listed (w : World) (files : list string)
    (date time : string) (pad : nat) (size : string) (fields : list string) :
  Str.split date = [date] -> Str.split time = [time] -> Str.split size = [size] ->
  fields <> [] ->
  Forall (fun f => Str.split f = [f]) fields ->
  key_of_line (ls_line date time pad size (Str.join " " fields)) = Some (Str.join " " fields)
  /\ Downloader.parse_line w None files (ls_line date time pad size (Str.join " " fields))
     = files ++ [Str.join " " fields].
Proof.
  intros Hd Ht Hs Hne Hall.
  assert (key_of_line (ls_line date time pad size (Str.join " " fields))
          = Some (Str.join " " fields)) as Hkey.
  { unfold key_of_line. cbn zeta.
    rewrite (split_ls_line _ _ _ _ _ Hd Ht Hs), split_join_words by done.
    destruct fields; [done|]. reflexivity. }
  split; [done|]. rewrite parse_line_key. cbn [omap list_omap]. rewrite Hkey.
  by rewrite filter_cons_True.
Qed.

Lemma single_spaced_key_listed_witness :
  key_of_line (ls_line "2023-12-01" "10:30:45" 5 "123456" (Str.join " " ["my"; "file.txt"]))
  = Some (Str.join " " ["my"; "file.txt"])
  /\ Downloader.parse_line sample_world None ["a.txt"]
       (ls_line "2023-12-01" "10:30:45" 5 "123456" (Str.join " " ["my"; "file.txt"]))
     = ["a.txt"] ++ [Str.join " " ["my"; "file.txt"]].
Proof.
  apply (single_spaced_key_listed sample_world ["a.txt"] "2023-12-01" "10:30:45" 5 "123456"
           ["my"; "file.txt"]); try reflexivity; [discriminate|].
  repeat constructor.
Defined.

(** ** Prefixes, targets and duplicates *)

(** X3.  Trailing slashes of a non-empty [--prefix] do not change the
    listing command: the path listed is [s3://bucket/], the prefix without
    its trailing slashes, and one slash. *)
Theorem list_command_ignores_trailing_slashes (d : Downloader.S3Downloader)
    (prefix : string) (n : nat) :
  Str.truthy prefix = true ->
  Downloader._build_aws_list_command d (prefix +:+ Str.repeat_char "/" n)
  = Downloader._build_aws_list_command d prefix
  /\ Downloader._build_aws_list_command d prefix !! 3%nat
     = Some ("s3://" +:+ Downloader.bucket_name d +:+ "/" +:+ Str.rstrip_slash prefix +:+ "/")
  /\ forall t, Str.rstrip_slash prefix <> t +:+ "/".
Proof.
  intros Hp. unfold Downloader._build_aws_list_command, Str.rstrip_slash.
  assert (Str.truthy (prefix +:+ Str.repeat_char "/" n) = true) as ->.
  { destruct prefix; [done|]. by rewrite append_cons. }
  rewrite Hp, rstrip_by_repeat by done. split; [done|]. split.
  - unfold extend_profile.
    destruct (Downloader.aws_profile d) as [pr|]; [destruct (Str.truthy pr)|]; reflexivity.
  - intros t Ht. by apply rstrip_by_last in Ht.
Qed.

Lemma list_command_ignores_trailing_slashes_witness :
  Downloader._build_aws_list_command (self sample_downloader)
    ("uploads/2023" +:+ Str.repeat_char "/" 2)
  = Downloader._build_aws_list_command (self sample_downloader) "uploads/2023"
  /\ Downloader._build_aws_list_command (self sample_downloader) "uploads/2023" !! 3%nat
     = Some ("s3://" +:+ Downloader.bucket_name (self sample_downloader) +:+ "/"
             +:+ Str.rstrip_slash "uploads/2023" +:+ "/")
  /\ forall t, Str.rstrip_slash "uploads/2023" <> t +:+ "/".
Proof.
  apply (list_command_ignores_trailing_slashes (self sample_downloader) "uploads/2023" 2).
  reflexivity.
Defined.

(** X4.  An [S3Uploader] holds its prefix without trailing slashes:
    constructing it with further slashes at the end of the prefix gives
    the same object, the prefix held never ends in a slash, and the key of
    a path is [prefix/basename] with exactly one slash in between, or the
    basename alone when nothing is left of the prefix. *)
Theorem uploader_prefix_normalised (w : World) (bucket : string) (workers : Z)
    (prefix : string) (profile : option string) (io0 : IO) (n : nat)
    (u : Uploader.S3Uploader) (io1 : IO) :
  Uploader.__init__ w bucket workers prefix profile io0 = (inl u, io1) ->
  Uploader.__init__ w bucket workers (prefix +:+ Str.repeat_char "/" n) profile io0
  = (inl u, io1)
  /\ Uploader.s3_prefix u = Str.rstrip_slash prefix
  /\ (forall t, Uploader.s3_prefix u <> t +:+ "/")
  /\ forall path,
       Uploader.make_s3_key u (Pathlib.of_str path)
       = if Str.truthy (Str.rstrip_slash prefix)
         then Str.rstrip_slash prefix +:+ "/" +:+ Pathlib.name (Pathlib.of_str path)
         else Pathlib.name (Pathlib.of_str path).
Proof.
  intros Hinit.
  destruct (uploader_init_prefix _ _ _ _ _ _ _ _ Hinit) as [Hp _].
  split; [|split; [done|split]].
  - rewrite <-Hinit. unfold Uploader.__init__, Str.rstrip_slash.
    by rewrite rstrip_by_repeat.
  - intros t Ht. rewrite Hp in Ht. by apply rstrip_by_last in Ht.
  - intros path. unfold Uploader.make_s3_key. by rewrite Hp.
Qed.

Lemma uploader_prefix_normalised_witness :
  Uploader.__init__ sample_world "my-bucket" 2 ("uploads/" +:+ Str.repeat_char "/" 1) None IO0
  = (Uploader.__init__ sample_world "my-bucket" 2 "uploads/" None IO0)
  /\ Uploader.s3_prefix (self sample_uploader) = Str.rstrip_slash "uploads/"
  /\ (forall t, Uploader.s3_prefix (self sample_uploader) <> t +:+ "/")
  /\ forall path,
       Uploader.make_s3_key (self sample_uploader) (Pathlib.of_str path)
       = if Str.truthy (Str.rstrip_slash "uploads/")
         then Str.rstrip_slash "uploads/" +:+ "/" +:+ Pathlib.name (Pathlib.of_str path)
         else Pathlib.name (Pathlib.of_str path).
Proof.
  apply (uploader_prefix_normalised sample_world "my-bucket" 2 "uploads/" None IO0 1
           (self sample_uploader)
           (Uploader.__init__ sample_world "my-bucket" 2 "uploads/" None IO0).2).
  reflexivity.
Defined.



Lemma fromkeys_snoc l x :
  Uploader.fromkeys (l ++ [x])
  = if bool_decide (x ∈ Uploader.fromkeys l) then Uploader.fromkeys l
    else Uploader.fromkeys l ++ [x].
Proof. unfold Uploader.fromkeys. by rewrite fold_left_app. Qed.

Lemma fromkeys_elem l x : x ∈ Uploader.fromkeys l <-> x ∈ l.
Proof.
  induction l as [|y l IH] using rev_ind; [done|].
  rewrite fromkeys_snoc, elem_of_app, list_elem_of_singleton, <-IH.
  case_bool_decide as Hy.
  - split; [by left|]. by intros [?| ->].
  - by rewrite elem_of_app, list_elem_of_singleton.
Qed.

Lemma fromkeys_NoDup l : NoDup (Uploader.fromkeys l).
Proof.
  induction l as [|y l IH] using rev_ind; [constructor|].
  rewrite fromkeys_snoc. case_bool_decide as Hy; [done|].
  apply NoDup_app. split; [done|]. split; [|apply NoDup_singleton].
  by intros x Hx ->%list_elem_of_singleton.
Qed.

Lemma fromkeys_app_fresh acc l :
  NoDup (acc ++ l) ->
  fold_left (fun (acc : list string) x => if bool_decide (x ∈ acc) then acc else acc ++ [x])
    l acc = acc ++ l.
Proof.
  revert acc. induction l as [|x l IH]; intros acc Hnd; cbn [fold_left].
  - by rewrite app_nil_r.
  - apply NoDup_app in Hnd as Hnd'. destruct Hnd' as (_ & Hdisj & _).
    rewrite bool_decide_eq_false_2.
    + rewrite IH; [by rewrite <-app_assoc|]. by rewrite <-app_assoc.
    + intros Hx. apply (Hdisj x Hx). by left.
Qed.

Lemma fromkeys_cons x l :
  Uploader.fromkeys (x :: l) = x :: filter (fun y => y <> x) (Uploader.fromkeys l).
Proof.
  induction l as [|y l IH] using rev_ind; [done|].
  rewrite app_comm_cons, !fromkeys_snoc, IH.
  destruct (decide (y = x)) as [->|Hyx].
  - rewrite bool_decide_eq_true_2 by by left.
    destruct (bool_decide (x ∈ Uploader.fromkeys l)); [done|].
    rewrite filter_app, filter_cons_False, filter_nil, app_nil_r by (by intros []). done.
  - destruct (decide (y ∈ Uploader.fromkeys l)) as [Hin|Hin].
    + rewrite !bool_decide_eq_true_2; [done|done|].
      right. by apply list_elem_of_filter.
    + rewrite !bool_decide_eq_false_2; [|done|].
      * by rewrite filter_app, filter_cons_True, filter_nil.
      * intros [?|[_ ?]%list_elem_of_filter]%elem_of_cons; done.
Qed.

(** X6.  [list(dict.fromkeys(l))], by which [main()] removes duplicate
    paths: the result has no duplicates and the same elements as [l]; it
    keeps the first occurrence of each (the head stays in front, and is
    removed from what follows); it is a sublist of [l]; and doing it twice
    changes nothing. *)
Theorem fromkeys_first_occurrences (l : list string) :
  NoDup (Uploader.fromkeys l)
  /\ (forall x, x ∈ Uploader.fromkeys l <-> x ∈ l)
  /\ (forall x rest, Uploader.fromkeys (x :: rest)
                     = x :: filter (fun y => y <> x) (Uploader.fromkeys rest))
  /\ Uploader.fromkeys (Uploader.fromkeys l) = Uploader.fromkeys l
  /\ Uploader.fromkeys l `sublist_of` l.
Proof.
  split; [apply fromkeys_NoDup|]. split; [apply fromkeys_elem|].
  split; [intros; apply fromkeys_cons|]. split.
  - pose proof (fromkeys_app_fresh [] (Uploader.fromkeys l)) as Hf.
    apply Hf. apply fromkeys_NoDup.
  - induction l as [|x l IH]; [done|]. rewrite fromkeys_cons.
    apply sublist_skip. etrans; [apply sublist_filter|exact IH].
Qed.

(** ** The files to upload *)

Lemma logged_nil {Obj} (p : Proc Obj) : logged p [] = p.
Proof. destruct p as [s [o sp c]]. unfold logged. cbn. by rewrite app_nil_r. Qed.

Lemma logged_logged {Obj} (p : Proc Obj) l1 l2 : logged (logged p l1) l2 = logged p (l1 ++ l2).
Proof. unfold logged. cbn. by rewrite app_assoc. Qed.

Lemma print_logged {Obj} (line : fstring) (p : Proc Obj) :
  print line p = (inl tt, logged p [line]).
Proof. reflexivity. Qed.

Lemma expand_loop_run w pats acc p :
  Uploader.expand_loop w pats acc p
  = (inl (acc ++ (pats ≫= expansion w)),
     logged p (unmatched_warning <$> filter (unmatched w) pats)).
Proof.
  revert acc p. induction pats as [|pat pats IH]; intros acc p.
  - cbn. by rewrite app_nil_r, logged_nil.
  - cbn [Uploader.expand_loop]. fold (has_wildcard pat).
    rewrite bind_cons. unfold expansion at 1.
    destruct (has_wildcard pat) eqn:Hw; cbn [orb].
    + destruct (sys_glob w pat) as [|f fs] eqn:Hg.
      * rewrite filter_cons_True by (unfold unmatched; rewrite Hw, Hg; done).
        munfold. rewrite IH. cbn [app fmap list_fmap].
        f_equal. unfold logged. cbn. by rewrite <-app_assoc.
      * rewrite filter_cons_False
          by (unfold unmatched; rewrite Hw, Hg; cbv; tauto).
        rewrite IH. by rewrite <-app_assoc.
    + rewrite filter_cons_False by (unfold unmatched; rewrite Hw; cbv; tauto).
      rewrite IH. by rewrite <-app_assoc.
Qed.

(** X7.  [expand_file_patterns] never raises and starts nothing.  It
    returns, in the order of the arguments, the matches of [glob.glob] for
    each argument that holds [*] or [?] and the argument itself for every
    other one (existing or not, and also when it holds [[...]]); it
    prints one warning per glob pattern without a match, and nothing
    else. *)
Theorem expand_file_patterns_spec (w : World) (file_patterns : list string)
    (p : Proc unit) :
  Uploader.expand_file_patterns w file_patterns p
  = (inl (file_patterns ≫= expansion w),
     logged p (unmatched_warning <$> filter (unmatched w) file_patterns)).
Proof. unfold Uploader.expand_file_patterns. by rewrite expand_loop_run. Qed.

Lemma get_files_from_directory_run w directory pattern recursive p :
  exists lines,
    Uploader.get_files_from_directory w directory pattern recursive p
    = (directory_files w directory pattern recursive, logged p lines).
Proof.
  unfold Uploader.get_files_from_directory, directory_files. cbn zeta.
  destruct (sys_exists w _); cbn [negb].
  - exists []. rewrite logged_nil.
    destruct (sys_path_glob w recursive _ pattern) as [files|e]; [|done].
    munfold. by rewrite list_fmap_alt || done.
  - eexists [_]. reflexivity.
Qed.

Lemma directory_files_regular w directory pattern recursive files :
  directory_files w directory pattern recursive = inl files ->
  Forall (fun f => sys_isfile w f = true) files.
Proof.
  unfold directory_files. cbn zeta. destruct (sys_exists w _).
  - destruct (sys_path_glob w recursive _ pattern) as [paths|e]; [|done].
    intros [= <-]. apply Forall_fmap, Forall_forall.
    intros f [Hf _]%list_elem_of_filter. cbn. by apply Is_true_true.
  - intros [= <-]. constructor.
Qed.

Lemma gather_files_run w args p :
  exists lines, Uploader.gather_files w args p = (gathered w args, logged p lines).
Proof.
  unfold Uploader.gather_files, gathered, found_files, Uploader.expand_file_patterns.
  destruct (Uploader.arg_files args) as [[|f fs]|];
    destruct (opt_truthy (Uploader.arg_directory args)) eqn:Hd;
    unfold mbind, M_bind, mret, M_ret, raise;
    cbn -[print Uploader.expand_loop Uploader.get_files_from_directory Uploader.fromkeys
          directory_files logged expansion unmatched] in *;
    rewrite ?print_logged, ?expand_loop_run, ?logged_logged, ?logged_nil in *; cbn [app].
  all: repeat match goal with
       | |- context [Uploader.get_files_from_directory ?w' ?d ?pa ?r ?P] =>
           let lines := fresh "lines" in
           destruct (get_files_from_directory_run w' d pa r P) as [lines ->]
       end; rewrite ?logged_logged.
  all: cbn [mbind list_bind].
  all: try change (Uploader.fromkeys []) with (@nil string).
  all: repeat change (list_bind string string (expansion w) ?l) with (l ≫= expansion w).
  all: try match goal with
       | |- context [directory_files ?w' ?d ?pa ?r] =>
           destruct (directory_files w' d pa r) as [dir_files|e]; [|by eexists]
       end.
  all: try match goal with
       | |- context [Uploader.fromkeys ?l] => destruct (Uploader.fromkeys l) eqn:Hk
       end; rewrite ?print_logged, ?logged_logged, ?logged_nil.
  all: try by eexists.
  all: try (by exists []; rewrite logged_nil).
Qed.

(** ** The check of the AWS CLI *)

(** X8.  When [aws --version] exits with a status other than 0, or the
    call raises an [Exception], both scripts end with [sys.exit(1)] in the
    constructor: [aws --version] is the only child process they started,
    so nothing is listed and nothing is transferred. *)
Theorem cli_check_failure_is_fatal (w : World) (dargs : Downloader.Args)
    (uargs : Uploader.Args) (io0 : IO) (files : list string) :
  cli_check_fails w ->
  sys_mkdir w MainThread (Pathlib.to_str (Pathlib.of_str (Downloader.arg_output dargs))) = None ->
  found_files w uargs = inl files -> files <> [] ->
  exits_after (Downloader.main w dargs io0) io0 1 [version_call]
  /\ exits_after (Uploader.main w uargs io0) io0 1 [version_call].
Proof.
  intros Hcli Hmk Hfound Hne. unfold cli_check_fails in Hcli. split.
  - unfold exits_after, Downloader.main, Downloader.__init__, Downloader._check_aws_cli.
    munfold. cbn [self io Downloader.output_dir]. rewrite Hmk.
    destruct (sys_run w MainThread ["aws"; "--version"] 10) as [rc out err|e].
    + apply Z.eqb_neq in Hcli. rewrite Hcli. cbn. done.
    + rewrite Hcli. cbn. done.
  - unfold exits_after, Uploader.main.
    destruct (gather_files_run w uargs {| self := tt; io := io0 |}) as [lines ->].
    unfold gathered. rewrite Hfound. destruct files as [|f fs]; [done|].
    unfold Uploader.__init__, Uploader._check_aws_cli.
    munfold. cbn [self io logged].
    destruct (sys_run w MainThread ["aws"; "--version"] 10) as [rc out err|e].
    + apply Z.eqb_neq in Hcli. rewrite Hcli. cbn. done.
    + rewrite Hcli. cbn. done.
Qed.

Lemma cli_check_failure_is_fatal_witness :
  exits_after (Downloader.main broken_cli_world sample_args IO0) IO0 1 [version_call]
  /\ exits_after (Uploader.main broken_cli_world sample_upload_files_args IO0) IO0 1
       [version_call].
Proof.
  apply (cli_check_failure_is_fatal broken_cli_world sample_args sample_upload_files_args
           IO0 ["a.txt"; "notes/b.txt"]).
  - cbn. lia.
  - reflexivity.
  - reflexivity.
  - discriminate.
Defined.

(** ** A listing that fails *)

Lemma app_two {A} (l : list A) x y : l ++ [x; y] = (l ++ [x]) ++ [y].
Proof. by rewrite <-app_assoc. Qed.

(** X9.  [_list_s3_files] does not report a failed listing to its
    caller: when [aws s3 ls] exits with a status other than 0, or the call
    raises an [Exception], it prints one line and returns the empty list,
    after this one call, made with a timeout of 1800 seconds; the object
    is unchanged. *)
Theorem listing_errors_are_swallowed (w : World) (prefix : string)
    (pattern : option string) (p : Proc Downloader.S3Downloader) :
  listing_fails w (self p) prefix ->
  exists line,
    Downloader._list_s3_files w prefix pattern p
    = (inl [], called p [line] [list_call (self p) prefix]).
Proof.
  unfold listing_fails, Downloader._list_s3_files, called, list_call. intros Hls.
  munfold. cbn [self io].
  destruct (sys_run w MainThread _ 1800) as [rc out err|e].
  - apply Z.eqb_neq in Hls. rewrite Hls. cbn. by eexists.
  - rewrite Hls. cbn. by eexists.
Qed.

Lemma listing_errors_are_swallowed_witness :
  exists line,
    Downloader._list_s3_files failing_listing_world "logs" None sample_downloader
    = (inl [], called sample_downloader [line] [list_call (self sample_downloader) "logs"]).
Proof.
  apply (listing_errors_are_swallowed failing_listing_world "logs" None sample_downloader).
  cbn. lia.
Defined.

(** X10.  A listing that fails is an empty listing to [main()]: when the
    AWS CLI is available and [aws s3 ls] fails, the downloader ends with
    [sys.exit(0)], having started the version check and the listing and
    no transfer. *)
Theorem failed_listing_exits_zero (w : World) (args : Downloader.Args) (io0 : IO)
    (version err : string) :
  sys_mkdir w MainThread (Pathlib.to_str (Pathlib.of_str (Downloader.arg_output args))) = None ->
  sys_run w MainThread ["aws"; "--version"] 10 = CompletedProcess 0 version err ->
  listing_fails w (downloader_of_args args) (Downloader.arg_prefix args) ->
  exits_after (Downloader.main w args io0) io0 0
    [version_call; list_call (downloader_of_args args) (Downloader.arg_prefix args)].
Proof.
  intros Hmk Hver Hls. unfold listing_fails in Hls.
  unfold exits_after, Downloader.main, Downloader.__init__, Downloader._check_aws_cli.
  fold (downloader_of_args args).
  munfold. cbn [self io Downloader.output_dir downloader_of_args].
  rewrite Hmk, Hver. cbn.
  unfold Downloader.download_files, Downloader._list_s3_files.
  munfold. cbn [self io].
  fold (downloader_of_args args).
  destruct (sys_run w MainThread _ 1800) as [rc out err'|e].
  - apply Z.eqb_neq in Hls. rewrite Hls. split; [reflexivity|].
    rewrite app_two. reflexivity.
  - rewrite Hls. split; [reflexivity|]. rewrite app_two. reflexivity.
Qed.

Lemma failed_listing_exits_zero_witness :
  exits_after (Downloader.main failing_listing_world sample_args IO0) IO0 0
    [version_call; list_call (downloader_of_args sample_args) (Downloader.arg_prefix sample_args)].
Proof.
  apply (failed_listing_exits_zero failing_listing_world sample_args IO0 "aws-cli/2.15.0" "").
  - reflexivity.
  - reflexivity.
  - cbn. lia.
Defined.

(** X11.  [KeyboardInterrupt] is no [Exception], so [_list_s3_files]
    lets it through: when it is raised while the listing runs, the
    downloader prints that it was interrupted and ends with
    [sys.exit(1)], without a transfer. *)
Theorem interrupted_listing_exits_one (w : World) (args : Downloader.Args) (io0 : IO)
    (version err : string) :
  sys_mkdir w MainThread (Pathlib.to_str (Pathlib.of_str (Downloader.arg_output args))) = None ->
  sys_run w MainThread ["aws"; "--version"] 10 = CompletedProcess 0 version err ->
  sys_run w MainThread
    (Downloader._build_aws_list_command (downloader_of_args args) (Downloader.arg_prefix args))
    1800 = Raises KeyboardInterrupt ->
  exits_after (Downloader.main w args io0) io0 1
    [version_call; list_call (downloader_of_args args) (Downloader.arg_prefix args)]
  /\ List.last (stdout (Downloader.main w args io0).2) []
     = [Lit "

⚠️  Download interrupted by user"].
Proof.
  intros Hmk Hver Hls.
  unfold exits_after, Downloader.main, Downloader.__init__, Downloader._check_aws_cli.
  fold (downloader_of_args args).
  munfold. cbn [self io Downloader.output_dir downloader_of_args].
  rewrite Hmk, Hver. cbn.
  unfold Downloader.download_files, Downloader._list_s3_files.
  munfold. cbn [self io].
  fold (downloader_of_args args). rewrite Hls. cbn.
  split; [split; [reflexivity|by rewrite app_two]|]. by rewrite List.last_last.
Qed.

Lemma interrupted_listing_exits_one_witness :
  exits_after (Downloader.main interrupted_listing_world sample_args IO0) IO0 1
    [version_call; list_call (downloader_of_args sample_args) (Downloader.arg_prefix sample_args)]
  /\ List.last (stdout (Downloader.main interrupted_listing_world sample_args IO0).2) []
     = [Lit "

⚠️  Download interrupted by user"].
Proof.
  apply (interrupted_listing_exits_one interrupted_listing_world sample_args IO0
           "aws-cli/2.15.0" ""); reflexivity.
Defined.

(** ** [main()] around a run *)

Lemma summary3_failed s f errors : summary3 s f errors !! "failed" = Some (VInt f).
Proof. by vm_compute. Qed.

Lemma summary3_success s f errors : summary3 s f errors !! "success" = Some (VInt s).
Proof. by vm_compute. Qed.

Lemma summary4_failed s f errors t : summary4 s f errors t !! "failed" = Some (VInt f).
Proof. by vm_compute. Qed.

Lemma summary4_success s f errors t : summary4 s f errors t !! "success" = Some (VInt s).
Proof. by vm_compute. Qed.

Lemma downloader_init_ok w bucket workers out profile io0 version err :
  sys_mkdir w MainThread (Pathlib.to_str (Pathlib.of_str out)) = None ->
  sys_run w MainThread ["aws"; "--version"] 10 = CompletedProcess 0 version err ->
  Downloader.__init__ w bucket workers out profile io0
  = (inl {| Downloader.bucket_name := bucket; Downloader.max_workers := workers;
            Downloader.output_dir := Pathlib.of_str out; Downloader.aws_profile := profile;
            Downloader.downloaded_count := 0; Downloader.failed_count := 0;
            Downloader.total_files := 0 |},
     checked io0 version).
Proof.
  intros Hmk Hver. unfold Downloader.__init__, Downloader._check_aws_cli.
  munfold. cbn [self io Downloader.output_dir]. by rewrite Hmk, Hver.
Qed.

Lemma uploader_init_ok w bucket workers prefix profile io0 version err :
  sys_run w MainThread ["aws"; "--version"] 10 = CompletedProcess 0 version err ->
  Uploader.__init__ w bucket workers prefix profile io0
  = (inl {| Uploader.bucket_name := bucket; Uploader.max_workers := workers;
            Uploader.s3_prefix := Str.rstrip_slash prefix; Uploader.aws_profile := profile;
            Uploader.uploaded_count := 0; Uploader.failed_count := 0;
            Uploader.total_files := 0 |},
     checked io0 version).
Proof.
  intros Hver. unfold Uploader.__init__, Uploader._check_aws_cli.
  munfold. cbn [self io]. by rewrite Hver.
Qed.

Lemma downloader_main_returned w args io0 version err res p2 s f :
  sys_mkdir w MainThread (Pathlib.to_str (Pathlib.of_str (Downloader.arg_output args))) = None ->
  sys_run w MainThread ["aws"; "--version"] 10 = CompletedProcess 0 version err ->
  Downloader.download_files w (Downloader.arg_prefix args) (Downloader.arg_pattern args)
    {| self := downloader_of_args args; io := checked io0 version |} = (inl res, p2) ->
  res !! "failed" = Some (VInt f) -> res !! "success" = Some (VInt s) ->
  exists io',
    Downloader.main w args io0 = (inr (SystemExit (if 0 <? f then 1 else 0)), io')
    /\ spawned io' = spawned (io p2).
Proof.
  intros Hmk Hver Hrun Hf Hs. unfold Downloader.main.
  rewrite (downloader_init_ok _ _ _ _ _ _ _ _ Hmk Hver). fold (downloader_of_args args).
  unfold try_except. unfold mbind at 1, M_bind at 1. rewrite Hrun.
  unfold mbind at 1, M_bind at 1, getitem_int at 1. rewrite Hf.
  unfold mret at 1, M_ret at 1.
  destruct (0 <? f).
  - unfold mbind, M_bind, print, modify, raise. eexists; split; reflexivity.
  - unfold mbind at 1, M_bind at 1, getitem_int. rewrite Hs.
    unfold mbind, M_bind, mret, M_ret, print, modify, raise. eexists; split; reflexivity.
Qed.

Lemma downloader_main_raised w args io0 version err e p2 :
  sys_mkdir w MainThread (Pathlib.to_str (Pathlib.of_str (Downloader.arg_output args))) = None ->
  sys_run w MainThread ["aws"; "--version"] 10 = CompletedProcess 0 version err ->
  Downloader.download_files w (Downloader.arg_prefix args) (Downloader.arg_pattern args)
    {| self := downloader_of_args args; io := checked io0 version |} = (inr e, p2) ->
  is_KeyboardInterrupt e || is_Exception e = true ->
  exists io',
    Downloader.main w args io0 = (inr (SystemExit 1), io')
    /\ spawned io' = spawned (io p2).
Proof.
  intros Hmk Hver Hrun He. unfold Downloader.main.
  rewrite (downloader_init_ok _ _ _ _ _ _ _ _ Hmk Hver). fold (downloader_of_args args).
  unfold try_except. unfold mbind at 1, M_bind at 1. rewrite Hrun.
  destruct (is_KeyboardInterrupt e).
  - unfold mbind, M_bind, print, modify, raise. eexists; split; reflexivity.
  - cbn [orb] in He. rewrite He. unfold mbind, M_bind, print, modify, raise.
    eexists; split; reflexivity.
Qed.

Lemma uploader_main_returned w args io0 version err files lines res p2 s f :
  gathered w args = inl files ->
  Uploader.gather_files w args {| self := tt; io := io0 |}
  = (inl files, logged {| self := tt; io := io0 |} lines) ->
  sys_run w MainThread ["aws"; "--version"] 10 = CompletedProcess 0 version err ->
  Uploader.upload_files w files
    {| self := uploader_of_args args;
       io := checked (io (logged {| self := tt; io := io0 |} lines)) version |}
  = (inl res, p2) ->
  res !! "failed" = Some (VInt f) -> res !! "success" = Some (VInt s) ->
  exists io',
    Uploader.main w args io0 = (inr (SystemExit (if 0 <? f then 1 else 0)), io')
    /\ spawned io' = spawned (io p2).
Proof.
  intros _ Hg Hver Hrun Hf Hs. unfold Uploader.main. rewrite Hg.
  rewrite (uploader_init_ok _ _ _ _ _ _ _ _ Hver). fold (uploader_of_args args).
  unfold try_except. unfold mbind at 1, M_bind at 1. rewrite Hrun.
  unfold mbind at 1, M_bind at 1, getitem_int at 1. rewrite Hf.
  unfold mret at 1, M_ret at 1.
  destruct (0 <? f).
  - unfold mbind, M_bind, print, modify, raise. eexists; split; reflexivity.
  - unfold mbind at 1, M_bind at 1, getitem_int. rewrite Hs.
    unfold mbind, M_bind, mret, M_ret, print, modify, raise. eexists; split; reflexivity.
Qed.

(** ** A pool without workers *)

Lemma uploader_main_raised w args io0 version err files lines e p2 :
  Uploader.gather_files w args {| self := tt; io := io0 |}
  = (inl files, logged {| self := tt; io := io0 |} lines) ->
  sys_run w MainThread ["aws"; "--version"] 10 = CompletedProcess 0 version err ->
  Uploader.upload_files w files
    {| self := uploader_of_args args;
       io := checked (io (logged {| self := tt; io := io0 |} lines)) version |}
  = (inr e, p2) ->
  is_KeyboardInterrupt e || is_Exception e = true ->
  exists io',
    Uploader.main w args io0 = (inr (SystemExit 1), io')
    /\ spawned io' = spawned (io p2).
Proof.
  intros Hg Hver Hrun He. unfold Uploader.main. rewrite Hg.
  rewrite (uploader_init_ok _ _ _ _ _ _ _ _ Hver). fold (uploader_of_args args).
  unfold try_except. unfold mbind at 1, M_bind at 1. rewrite Hrun.
  destruct (is_KeyboardInterrupt e).
  - unfold mbind, M_bind, print, modify, raise. eexists; split; reflexivity.
  - cbn [orb] in He. rewrite He. unfold mbind, M_bind, print, modify, raise.
    eexists; split; reflexivity.
Qed.

Lemma gathered_files w args io0 files :
  found_files w args = inl files -> files <> [] ->
  exists lines,
    Uploader.gather_files w args {| self := tt; io := io0 |}
    = (inl files, logged {| self := tt; io := io0 |} lines).
Proof.
  intros Hfound Hne.
  destruct (gather_files_run w args {| self := tt; io := io0 |}) as [lines Hg].
  exists lines. rewrite Hg. unfold gathered. rewrite Hfound. by destruct files.
Qed.

Lemma download_listed_refused w keys prefix pattern p :
  keys <> [] -> Downloader.max_workers (self p) <= 0 ->
  pool_refused (Downloader.download_listed w keys prefix pattern p) p (length keys).
Proof.
  intros Hne Hmw.
  assert ((Downloader.max_workers (self p) <=? 0) = true) as Hmw' by lia.
  unfold pool_refused, Downloader.download_listed, ThreadPool.executor_init.
  destruct keys as [|x rest] eqn:Hkeys; [done|]. rewrite <-Hkeys in *.
  munfold. cbn -[Z.of_nat length dashes Float.sub Float.div Float.of_int]. rewrite Hmw'.
  destruct (Str.truthy prefix); destruct (opt_truthy pattern);
    cbn -[Z.of_nat length dashes Float.sub Float.div Float.of_int]; done.
Qed.

Lemma upload_valid_refused w files p :
  files <> [] -> Uploader.max_workers (self p) <= 0 ->
  pool_refused (Uploader.upload_valid w files p) p (length files).
Proof.
  intros Hne Hmw.
  assert ((Uploader.max_workers (self p) <=? 0) = true) as Hmw' by lia.
  unfold pool_refused, Uploader.upload_valid, ThreadPool.executor_init.
  destruct files as [|x rest] eqn:Hfiles; [done|]. rewrite <-Hfiles in *.
  munfold. cbn -[Z.of_nat length dashes Float.sub Float.div Float.of_int]. rewrite Hmw'.
  destruct (Str.truthy (Uploader.s3_prefix (self p)));
    cbn -[Z.of_nat length dashes Float.sub Float.div Float.of_int]; done.
Qed.

(** X12.  With [max_workers <= 0] and something to transfer,
    [download_files] (once the keys are known) and [upload_files] raise
    the [ValueError] of [ThreadPoolExecutor]: by then the total is set to
    the number of items, the counters are reset and the clock is read, but
    no child process is started. *)
Theorem nonpositive_workers_refused (w : World)
    (pd : Proc Downloader.S3Downloader) (keys : list string) (prefix : string)
    (pattern : option string)
    (pu : Proc Uploader.S3Uploader) (files : list string) :
  keys <> [] -> Downloader.max_workers (self pd) <= 0 ->
  filter (sys_isfile w) files <> [] -> Uploader.max_workers (self pu) <= 0 ->
  pool_refused (Downloader.download_listed w keys prefix pattern pd) pd (length keys)
  /\ pool_refused (Uploader.upload_files w files pu) pu
       (length (filter (sys_isfile w) files)).
Proof.
  intros Hk Hd Hf Hu. split; [by apply download_listed_refused|].
  unfold Uploader.upload_files. unfold mbind at 1, M_bind.
  destruct (filter_valid_run w files [] pu) as (pf & Hfv & Hself & Hsp & Hc & _).
  rewrite Hfv. cbn [app].
  assert (Uploader.max_workers (self pf) <= 0) as Hu' by by rewrite Hself.
  destruct (upload_valid_refused w _ pf Hf Hu') as (Hr & Hs & Hcl & Hrest).
  unfold pool_refused. by rewrite Hr, Hs, Hcl, Hsp, Hc.
Qed.

Lemma nonpositive_workers_refused_witness :
  pool_refused
    (Downloader.download_listed sample_world sample_keys "" None
       {| self := downloader_of_args zero_workers_args; io := IO0 |})
    {| self := downloader_of_args zero_workers_args; io := IO0 |} (length sample_keys)
  /\ pool_refused
       (Uploader.upload_files sample_world sample_files
          {| self := uploader_of_args zero_workers_upload_args; io := IO0 |})
       {| self := uploader_of_args zero_workers_upload_args; io := IO0 |}
       (length (filter (sys_isfile sample_world) sample_files)).
Proof.
  apply (nonpositive_workers_refused sample_world
           {| self := downloader_of_args zero_workers_args; io := IO0 |} sample_keys "" None
           {| self := uploader_of_args zero_workers_upload_args; io := IO0 |} sample_files).
  - discriminate.
  - cbn. lia.
  - vm_compute. discriminate.
  - cbn. lia.
Defined.

Lemma filter_nil_not_nil {A} (f : A -> bool) (l : list A) : filter f l <> [] -> l <> [].
Proof. by destruct l. Qed.

Lemma failures_counted (l l' : list outcome) :
  l ≡ₚ l' ->
  (0 <? Z.of_nat (length (filter is_failure l))) = negb (forallb is_success l').
Proof.
  intros Hp. rewrite Hp. clear l Hp.
  induction l' as [|[[[] f] msg] l IH]; [done| |].
  - rewrite filter_cons_False by (cbv; tauto). exact IH.
  - rewrite filter_cons_True by done. cbn [forallb is_success fst andb negb length].
    apply Z.ltb_lt. lia.
Qed.

Lemma successes_counted (l l' : list outcome) :
  l ≡ₚ l' ->
  length (filter is_success l) = length (filter is_success l')
  /\ length (filter is_failure l) = length (filter is_failure l').
Proof. intros Hp. by rewrite Hp. Qed.

(** X13.  [--workers 0], or a negative number, ends the downloader with
    [sys.exit(1)] through [except Exception] of [main()] as soon as the
    listing holds a key: it has run the version check and the listing,
    and no transfer. *)
Theorem downloader_nonpositive_workers_exit_one (w : World) (args : Downloader.Args)
    (io0 : IO) (version err out err' : string) :
  sys_mkdir w MainThread (Pathlib.to_str (Pathlib.of_str (Downloader.arg_output args))) = None ->
  sys_run w MainThread ["aws"; "--version"] 10 = CompletedProcess 0 version err ->
  sys_run w MainThread
    (Downloader._build_aws_list_command (downloader_of_args args) (Downloader.arg_prefix args))
    1800 = CompletedProcess 0 out err' ->
  Downloader.parse_listing w (Downloader.arg_pattern args) out <> [] ->
  Downloader.arg_workers args <= 0 ->
  exits_after (Downloader.main w args io0) io0 1
    [version_call; list_call (downloader_of_args args) (Downloader.arg_prefix args)].
Proof.
  intros Hmk Hver Hls Hkeys Hdw.
  pose proof (download_files_listed w
                {| self := downloader_of_args args; io := checked io0 version |}
                (Downloader.arg_prefix args) (Downloader.arg_pattern args) out err' Hls)
    as Hrun.
  match type of Hrun with _ = Downloader.download_listed _ ?k ?pr ?pa ?P =>
    destruct (download_listed_refused w k pr pa P Hkeys Hdw) as (Hr & Hsp & _)
  end.
  destruct (Downloader.download_listed _ _ _ _ _) as [r p2]. cbn [fst snd] in Hr, Hsp.
  subst r.
  destruct (downloader_main_raised w args io0 version err _ p2 Hmk Hver Hrun eq_refl)
    as (io' & Hmain & Hsp').
  unfold exits_after. rewrite Hmain. split; [done|].
  cbn [snd]. rewrite Hsp', Hsp. cbn. by rewrite <-app_assoc.
Qed.

Lemma downloader_nonpositive_workers_exit_one_witness :
  exits_after (Downloader.main sample_listing_world zero_workers_args IO0) IO0 1
    [version_call;
     list_call (downloader_of_args zero_workers_args) (Downloader.arg_prefix zero_workers_args)].
Proof.
  apply (downloader_nonpositive_workers_exit_one sample_listing_world zero_workers_args
           IO0 "aws-cli/2.15.0" "" sample_listing "").
  - reflexivity.
  - reflexivity.
  - reflexivity.
  - vm_compute. discriminate.
  - cbn. lia.
Defined.

(** X24.  [--workers 0], or a negative number, ends the uploader with
    [sys.exit(1)] through [except Exception] of [main()] as soon as one
    of the files found is a regular file: it has run the version check
    and no transfer. *)
Theorem uploader_nonpositive_workers_exit_one (w : World) (args : Uploader.Args)
    (io0 : IO) (version err : string) (files : list string) :
  sys_run w MainThread ["aws"; "--version"] 10 = CompletedProcess 0 version err ->
  found_files w args = inl files ->
  filter (sys_isfile w) files <> [] ->
  Uploader.arg_workers args <= 0 ->
  exits_after (Uploader.main w args io0) io0 1 [version_call].
Proof.
  intros Hver Hfound Hvalid Huw.
  destruct (gathered_files w args io0 files Hfound (filter_nil_not_nil _ _ Hvalid))
    as [lines Hg].
  set (P := {| self := uploader_of_args args;
               io := checked (io (logged {| self := tt; io := io0 |} lines)) version |}).
  assert (pool_refused (Uploader.upload_files w files P) P
            (length (filter (sys_isfile w) files))) as (Hr & Hsp & _).
  { unfold Uploader.upload_files. unfold mbind at 1, M_bind.
    destruct (filter_valid_run w files [] P) as (pf & Hfv & Hself & Hsp & Hc & _).
    rewrite Hfv. cbn [app].
    assert (Uploader.max_workers (self pf) <= 0) as Hu' by by rewrite Hself.
    destruct (upload_valid_refused w _ pf Hvalid Hu') as (Hr & Hs & Hcl & Hrest).
    unfold pool_refused. by rewrite Hr, Hs, Hcl, Hsp, Hc. }
  destruct (Uploader.upload_files w files P) as [r p2] eqn:Hrun. cbn [fst snd] in Hr, Hsp.
  subst r.
  destruct (uploader_main_raised w args io0 version err files lines _ p2 Hg Hver Hrun eq_refl)
    as (io' & Hmain & Hsp').
  unfold exits_after. rewrite Hmain. split; [done|].
  cbn [snd]. by rewrite Hsp', Hsp.
Qed.

Lemma uploader_nonpositive_workers_exit_one_witness :
  exits_after (Uploader.main sample_listing_world zero_workers_upload_args IO0) IO0 1
    [version_call].
Proof.
  apply (uploader_nonpositive_workers_exit_one sample_listing_world
           zero_workers_upload_args IO0 "aws-cli/2.15.0" "" ["a.txt"; "notes/b.txt"]).
  - reflexivity.
  - reflexivity.
  - vm_compute. discriminate.
  - cbn. lia.
Defined.

(** ** Whole runs *)
Section ExitStatus.
Variable w : World.
Hypothesis Hw : worker_exceptions w.

Lemma download_files_counts p prefix pattern out err :
  sys_run w MainThread (Downloader._build_aws_list_command (self p) prefix) 1800
  = CompletedProcess 0 out err ->
  Downloader.parse_listing w pattern out <> [] ->
  1 <= Downloader.max_workers (self p) ->
  let results :=
    download_result w (self p)
      <$> ThreadPool.submit_all (Downloader.parse_listing w pattern out) in
  exists order errors elapsed p2,
    order ≡ₚ ThreadPool.submit_all (Downloader.parse_listing w pattern out)
    /\ Downloader.download_files w prefix pattern p
       = (inl (summary4 (Z.of_nat (length (filter is_success results)))
                 (Z.of_nat (length (filter is_failure results))) errors elapsed), p2)
    /\ errors ≡ₚ entry_of <$> filter is_failure results
    /\ spawned (io p2)
       = spawned (io p) ++ [list_call (self p) prefix]
         ++ (order ≫= download_calls w (self p)).
Proof.
  intros Hls Hne Hmw results. rewrite (download_files_listed w p prefix pattern out err Hls).
  match goal with |- context [Downloader.download_listed _ ?k ?pr ?pa ?P] =>
    destruct (download_listed_run w Hw P k pr pa Hne Hmw)
      as (order & yielded & p1 & p0 & p2 & Hord & Hyld & Hrun & _ & _ & Hs & Hf & Hsp & _)
  end.
  cbn [self io called spawned] in *.
  assert (download_result w (self p) <$> yielded ≡ₚ results) as Hperm.
  { unfold results. by rewrite Hyld, Hord. }
  destruct (successes_counted _ _ Hperm) as [Hls1 Hlf1].
  eexists order, _, _, p2. split; [done|]. split.
  - rewrite Hrun, Hs, Hf, Hls1, Hlf1. reflexivity.
  - split; [by rewrite Hperm|]. by rewrite Hsp, <-app_assoc.
Qed.

Lemma upload_files_counts p files :
  filter (sys_isfile w) files <> [] ->
  1 <= Uploader.max_workers (self p) ->
  let results :=
    upload_result w (self p) <$> ThreadPool.submit_all (filter (sys_isfile w) files) in
  exists order errors elapsed p2,
    order ≡ₚ ThreadPool.submit_all (filter (sys_isfile w) files)
    /\ Uploader.upload_files w files p
       = (inl (summary4 (Z.of_nat (length (filter is_success results)))
                 (Z.of_nat (length (filter is_failure results))) errors elapsed), p2)
    /\ errors ≡ₚ entry_of <$> filter is_failure results
    /\ spawned (io p2) = spawned (io p) ++ (order ≫= upload_calls (self p)).
Proof.
  intros Hne Hmw results.
  unfold Uploader.upload_files. unfold mbind at 1, M_bind.
  destruct (filter_valid_run w files [] p) as (pf & Hfv & Hself & Hsp0 & _ & _).
  rewrite Hfv. cbn [app].
  assert (1 <= Uploader.max_workers (self pf)) as Hmw' by by rewrite Hself.
  destruct (upload_valid_run w Hw pf _ Hne Hmw')
    as (order & yielded & p1 & p0 & p2 & Hord & Hyld & Hrun & _ & _ & Hs & Hf & Hsp & _).
  rewrite Hself in *.
  assert (upload_result w (self p) <$> yielded ≡ₚ results) as Hperm.
  { unfold results. by rewrite Hyld, Hord. }
  destruct (successes_counted _ _ Hperm) as [Hls1 Hlf1].
  eexists order, _, _, p2. split; [done|]. split.
  - rewrite Hrun, Hs, Hf, Hls1, Hlf1. reflexivity.
  - split; [by rewrite Hperm|]. by rewrite Hsp, Hsp0.
Qed.

End ExitStatus.

(** X14.  The exit status of a download with a non-empty listing: the
    downloader ends with [sys.exit(0)] when every transfer succeeded and
    with [sys.exit(1)] when at least one failed; it has then run the
    version check, the listing, and the transfers of all keys, each once. *)
Theorem downloader_exit_status (w : World) (args : Downloader.Args) (io0 : IO)
    (version err out err' : string) :
  worker_exceptions w ->
  sys_mkdir w MainThread (Pathlib.to_str (Pathlib.of_str (Downloader.arg_output args))) = None ->
  sys_run w MainThread ["aws"; "--version"] 10 = CompletedProcess 0 version err ->
  sys_run w MainThread
    (Downloader._build_aws_list_command (downloader_of_args args) (Downloader.arg_prefix args))
    1800 = CompletedProcess 0 out err' ->
  Downloader.parse_listing w (Downloader.arg_pattern args) out <> [] ->
  1 <= Downloader.arg_workers args ->
  exits_by_failures (Downloader.main w args io0) io0
    [version_call; list_call (downloader_of_args args) (Downloader.arg_prefix args)]
    (download_result w (downloader_of_args args)
       <$> ThreadPool.submit_all (Downloader.parse_listing w (Downloader.arg_pattern args) out))
    (ThreadPool.submit_all (Downloader.parse_listing w (Downloader.arg_pattern args) out))
    (download_calls w (downloader_of_args args)).
Proof.
  intros Hw Hmk Hver Hls Hne Hmw.
  destruct (download_files_counts w Hw
              {| self := downloader_of_args args; io := checked io0 version |}
              (Downloader.arg_prefix args) (Downloader.arg_pattern args) out err' Hls Hne Hmw)
    as (order & errors & elapsed & p2 & Hord & Hrun & _ & Hsp).
  destruct (downloader_main_returned w args io0 version err _ p2 _ _ Hmk Hver Hrun
              (summary4_failed _ _ _ _) (summary4_success _ _ _ _))
    as (io' & Hmain & Hsp').
  unfold exits_by_failures. rewrite Hmain. cbn [fst snd self io checked spawned] in *. split.
  - rewrite (failures_counted _ _ (reflexivity _)).
    by destruct (forallb is_success _).
  - exists order. split; [done|]. rewrite Hsp', Hsp. by rewrite <-!app_assoc.
Qed.

Lemma downloader_exit_status_witness :
  exits_by_failures (Downloader.main sample_listing_world sample_args IO0) IO0
    [version_call; list_call (downloader_of_args sample_args) (Downloader.arg_prefix sample_args)]
    (download_result sample_listing_world (downloader_of_args sample_args)
       <$> ThreadPool.submit_all
             (Downloader.parse_listing sample_listing_world
                (Downloader.arg_pattern sample_args) sample_listing))
    (ThreadPool.submit_all
       (Downloader.parse_listing sample_listing_world
          (Downloader.arg_pattern sample_args) sample_listing))
    (download_calls sample_listing_world (downloader_of_args sample_args)).
Proof.
  apply (downloader_exit_status sample_listing_world sample_args IO0 "aws-cli/2.15.0" ""
           sample_listing "").
  - exact sample_listing_world_exceptions.
  - reflexivity.
  - reflexivity.
  - reflexivity.
  - vm_compute. discriminate.
  - cbn. lia.
Defined.

(** X15.  The exit status of an upload with at least one regular file
    among the paths found: the uploader ends with [sys.exit(0)] when every
    transfer succeeded and with [sys.exit(1)] when at least one failed; it
    has then run the version check and the transfers of the regular
    files, each once. *)
Theorem uploader_exit_status (w : World) (args : Uploader.Args) (io0 : IO)
    (version err : string) (files : list string) :
  worker_exceptions w ->
  found_files w args = inl files ->
  filter (sys_isfile w) files <> [] ->
  sys_run w MainThread ["aws"; "--version"] 10 = CompletedProcess 0 version err ->
  1 <= Uploader.arg_workers args ->
  exits_by_failures (Uploader.main w args io0) io0 [version_call]
    (upload_result w (uploader_of_args args)
       <$> ThreadPool.submit_all (filter (sys_isfile w) files))
    (ThreadPool.submit_all (filter (sys_isfile w) files))
    (upload_calls (uploader_of_args args)).
Proof.
  intros Hw Hfound Hvalid Hver Hmw.
  destruct (gathered_files w args io0 files Hfound (filter_nil_not_nil _ _ Hvalid))
    as [lines Hg].
  destruct (upload_files_counts w Hw
              {| self := uploader_of_args args;
                 io := checked (io (logged {| self := tt; io := io0 |} lines)) version |}
              files Hvalid Hmw)
    as (order & errors & elapsed & p2 & Hord & Hrun & _ & Hsp).
  destruct (uploader_main_returned w args io0 version err files lines _ p2 _ _
              ltac:(unfold gathered; rewrite Hfound; destruct files; [done|reflexivity])
              Hg Hver Hrun (summary4_failed _ _ _ _) (summary4_success _ _ _ _))
    as (io' & Hmain & Hsp').
  unfold exits_by_failures. rewrite Hmain. cbn [fst snd self io checked logged spawned] in *.
  split.
  - rewrite (failures_counted _ _ (reflexivity _)).
    by destruct (forallb is_success _).
  - exists order. split; [done|]. rewrite Hsp', Hsp. by rewrite <-!app_assoc.
Qed.

Lemma uploader_exit_status_witness :
  exits_by_failures (Uploader.main sample_directory_world sample_directory_args IO0) IO0
    [version_call]
    (upload_result sample_directory_world (uploader_of_args sample_directory_args)
       <$> ThreadPool.submit_all
             (filter (sys_isfile sample_directory_world) ["a.txt"; "b.txt"; "c.txt"; "data/d.txt"]))
    (ThreadPool.submit_all
       (filter (sys_isfile sample_directory_world) ["a.txt"; "b.txt"; "c.txt"; "data/d.txt"]))
    (upload_calls (uploader_of_args sample_directory_args)).
Proof.
  apply (uploader_exit_status sample_directory_world sample_directory_args IO0
           "aws-cli/2.15.0" "" ["a.txt"; "b.txt"; "c.txt"; "data/d.txt"]).
  - exact sample_directory_world_exceptions.
  - reflexivity.
  - vm_compute. discriminate.
  - reflexivity.
  - cbn. lia.
Defined.

(** X16.  When paths are found but none of them is a regular file, the
    uploader ends with [sys.exit(0)]: the version check is the only child
    process it started. *)
Theorem uploader_exit_zero_without_regular_file (w : World) (args : Uploader.Args)
    (io0 : IO) (version err : string) (files : list string) :
  found_files w args = inl files -> files <> [] ->
  filter (sys_isfile w) files = [] ->
  sys_run w MainThread ["aws"; "--version"] 10 = CompletedProcess 0 version err ->
  exits_after (Uploader.main w args io0) io0 0 [version_call].
Proof.
  intros Hfound Hne Hvalid Hver.
  destruct (gathered_files w args io0 files Hfound Hne) as [lines Hg].
  set (P := {| self := uploader_of_args args;
               io := checked (io (logged {| self := tt; io := io0 |} lines)) version |}).
  assert (exists p2, Uploader.upload_files w files P = (inl (summary3 0 0 []), p2)
                     /\ spawned (io p2) = spawned (io P)) as (p2 & Hrun & Hsp).
  { unfold Uploader.upload_files. unfold mbind at 1, M_bind.
    destruct (filter_valid_run w files [] P) as (pf & Hfv & _ & Hsp & _).
    rewrite Hfv, Hvalid. cbn [app]. eexists. split; [reflexivity|]. exact Hsp. }
  destruct (uploader_main_returned w args io0 version err files lines _ p2 0 0
              ltac:(unfold gathered; rewrite Hfound; destruct files; [done|reflexivity])
              Hg Hver Hrun (summary3_failed _ _ _) (summary3_success _ _ _))
    as (io' & Hmain & Hsp').
  unfold exits_after. rewrite Hmain. split; [done|]. cbn [snd]. by rewrite Hsp', Hsp.
Qed.

Lemma uploader_exit_zero_without_regular_file_witness :
  exits_after (Uploader.main sample_world sample_upload_args IO0) IO0 0 [version_call].
Proof.
  apply (uploader_exit_zero_without_regular_file sample_world sample_upload_args IO0
           "aws-cli/2.15.0" "" ["missing.txt"]).
  - reflexivity.
  - discriminate.
  - reflexivity.
  - reflexivity.
Defined.

(** X17.  When no path is found (neither [--files] nor [--directory] is
    given, or the patterns and the directory yield nothing), the uploader
    ends with [sys.exit(1)] before it constructs an [S3Uploader]: it has
    started no child process, not even [aws --version]. *)
Theorem uploader_exits_one_without_files (w : World) (args : Uploader.Args) (io0 : IO) :
  found_files w args = inl [] ->
  exits_after (Uploader.main w args io0) io0 1 [].
Proof.
  intros Hfound. unfold exits_after, Uploader.main.
  destruct (gather_files_run w args {| self := tt; io := io0 |}) as [lines ->].
  unfold gathered. rewrite Hfound. cbn. by rewrite app_nil_r.
Qed.

Lemma uploader_exits_one_without_files_witness :
  exits_after (Uploader.main sample_world no_files_args IO0) IO0 1 [].
Proof.
  apply (uploader_exits_one_without_files sample_world no_files_args IO0). reflexivity.
Defined.

Lemma directory_files_found w directory pattern recursive files f :
  directory_files w directory pattern recursive = inl files -> f ∈ files ->
  sys_exists w (Pathlib.to_str (Pathlib.of_str directory)) = true
  /\ exists paths path,
       sys_path_glob w recursive (Pathlib.to_str (Pathlib.of_str directory)) pattern
       = inl paths
       /\ path ∈ paths
       /\ sys_isfile w (Pathlib.to_str path) = true
       /\ f = Pathlib.to_str path.
Proof.
  unfold directory_files. cbn zeta. destruct (sys_exists w _).
  - destruct (sys_path_glob w recursive _ pattern) as [paths|e]; [|done].
    intros [= <-] (path & -> & [Hfile Hin]%list_elem_of_filter)%list_elem_of_fmap.
    split; [done|]. exists paths, path. split; [done|]. split; [done|].
    split; [by apply Is_true_true|done].
  - intros [= <-] Hin. by apply elem_of_nil in Hin.
Qed.

(** X18.  The list of files [main()] hands to the uploader is not empty
    and names no path twice; each of its paths is an expansion of a
    [--files] argument, or a regular file that the glob of [--pattern]
    finds in the directory of [--directory] ([in_directory]); gathering
    it starts no child process. *)
Theorem gathered_files_distinct (w : World) (args : Uploader.Args) (p : Proc unit)
    (files : list string) (p' : Proc unit) :
  Uploader.gather_files w args p = (inl files, p') ->
  NoDup files
  /\ files <> []
  /\ spawned (io p') = spawned (io p)
  /\ forall f, f ∈ files ->
       f ∈ default [] (Uploader.arg_files args) ≫= expansion w \/ in_directory w args f.
Proof.
  destruct (gather_files_run w args p) as [lines ->]. intros [= Hg <-].
  unfold gathered, found_files in Hg. cbn zeta in Hg.
  destruct (opt_truthy (Uploader.arg_directory args)) eqn:Hopt.
  - destruct (directory_files w _ _ _) as [dir_files|e] eqn:Hdir; [|done].
    destruct (Uploader.fromkeys _) as [|x l] eqn:Hk; [done|]. injection Hg as <-.
    rewrite <-Hk. split; [apply fromkeys_NoDup|]. split; [by rewrite Hk|]. split; [done|].
    intros f Hf. apply (proj1 (fromkeys_elem _ _)) in Hf.
    apply elem_of_app in Hf as [Hf|Hf]; [by left|right].
    destruct (directory_files_found _ _ _ _ _ _ Hdir Hf)
      as (Hex & paths & path & Hglob & Hin & Hfile & ->).
    split; [done|]. split; [done|]. by exists paths, path.
  - destruct (Uploader.fromkeys _) as [|x l] eqn:Hk; [done|]. injection Hg as <-.
    rewrite <-Hk. split; [apply fromkeys_NoDup|]. split; [by rewrite Hk|]. split; [done|].
    intros f Hf. apply (proj1 (fromkeys_elem _ _)) in Hf. by left.
Qed.

Lemma gathered_files_distinct_witness :
  NoDup ["a.txt"; "b.txt"; "c.txt"; "data/d.txt"]
  /\ ["a.txt"; "b.txt"; "c.txt"; "data/d.txt"] <> []
  /\ spawned (io (Uploader.gather_files sample_directory_world sample_directory_args
                    {| self := tt; io := IO0 |}).2) = spawned (io {| self := tt; io := IO0 |})
  /\ forall f, f ∈ ["a.txt"; "b.txt"; "c.txt"; "data/d.txt"] ->
       f ∈ default [] (Uploader.arg_files sample_directory_args)
           ≫= expansion sample_directory_world
       \/ in_directory sample_directory_world sample_directory_args f.
Proof.
  apply (gathered_files_distinct sample_directory_world sample_directory_args
           {| self := tt; io := IO0 |} ["a.txt"; "b.txt"; "c.txt"; "data/d.txt"]
           (Uploader.gather_files sample_directory_world sample_directory_args
              {| self := tt; io := IO0 |}).2).
  reflexivity.
Defined.

(** X19.  [get_files_from_directory] returns regular files only, so
    [upload_files] skips none of them; it starts no child process; for a
    directory that does not exist it prints one line and returns the
    empty list, and otherwise it prints nothing. *)
Theorem directory_files_are_regular (w : World) (directory pattern : string)
    (recursive : bool) (p : Proc unit) (files : list string) (p' : Proc unit) :
  Uploader.get_files_from_directory w directory pattern recursive p = (inl files, p') ->
  Forall (fun f => sys_isfile w f = true) files
  /\ filter (sys_isfile w) files = files
  /\ spawned (io p') = spawned (io p)
  /\ (if sys_exists w (Pathlib.to_str (Pathlib.of_str directory))
      then p' = p
      else files = [] /\ p' = logged p [[Lit "❌ Directory not found: "; Lit directory]]).
Proof.
  intros Hrun.
  assert (directory_files w directory pattern recursive = inl files) as Hdir.
  { destruct (get_files_from_directory_run w directory pattern recursive p) as [lines Hr].
    rewrite Hr in Hrun. by injection Hrun as -> _. }
  pose proof (directory_files_regular _ _ _ _ _ Hdir) as Hreg.
  split; [done|]. split.
  { clear Hrun Hdir. induction Hreg as [|f l Hf _ IH]; [done|].
    rewrite filter_cons_True by (by rewrite Hf). by rewrite IH. }
  revert Hrun. unfold Uploader.get_files_from_directory.
  destruct (sys_exists w _); cbn [negb].
  - destruct (sys_path_glob w recursive _ pattern) as [paths|e]; [|done].
    by intros [= _ <-].
  - by intros [= <- <-].
Qed.

Lemma directory_files_are_regular_witness :
  Forall (fun f => sys_isfile sample_directory_world f = true) ["data/d.txt"]
  /\ filter (sys_isfile sample_directory_world) ["data/d.txt"] = ["data/d.txt"]
  /\ spawned (io {| self := tt; io := IO0 |}) = spawned (io {| self := tt; io := IO0 |})
  /\ (if sys_exists sample_directory_world (Pathlib.to_str (Pathlib.of_str "data/"))
      then {| self := tt; io := IO0 |} = {| self := tt; io := IO0 |}
      else ["data/d.txt"] = []
           /\ {| self := tt; io := IO0 |}
              = logged {| self := tt; io := IO0 |}
                  [[Lit "❌ Directory not found: "; Lit "data/"]]).
Proof.
  apply (directory_files_are_regular sample_directory_world "data/" "*" false
           {| self := tt; io := IO0 |} ["data/d.txt"] {| self := tt; io := IO0 |}).
  reflexivity.
Defined.

(** X20.  The summary of a download does not depend on the scheduling:
    with another number of workers and other picks of the thread
    scheduler, [download_files] returns the same [success], the same
    [failed], and the same error entries up to their order. *)
Theorem download_counts_independent_of_schedule (w : World)
    (lock completion : list nat) (n : Z)
    (pd : Proc Downloader.S3Downloader) (prefix : string) (pattern : option string)
    (out err : string) :
  worker_exceptions w -> 1 <= n ->
  sys_run w MainThread (Downloader._build_aws_list_command (self pd) prefix) 1800
  = CompletedProcess 0 out err ->
  Downloader.parse_listing w pattern out <> [] ->
  1 <= Downloader.max_workers (self pd) ->
  same_counts (Downloader.download_files w prefix pattern pd)
    (Downloader.download_files (with_schedule w lock completion) prefix pattern
       (downloader_with_workers n pd)).
Proof.
  intros Hw Hn Hls Hne Hmw.
  pose proof (with_schedule_exceptions w lock completion Hw) as Hw'.
  destruct (download_files_counts w Hw pd prefix pattern out err Hls Hne Hmw)
    as (order & errors & elapsed & p2 & _ & Hrun & Herr & _).
  destruct (download_files_counts (with_schedule w lock completion) Hw'
              (downloader_with_workers n pd) prefix pattern out err Hls Hne Hn)
    as (order' & errors' & elapsed' & p2' & _ & Hrun' & Herr' & _).
  unfold same_counts. eexists _, _, errors, errors', _, _, p2, p2'.
  split; [exact Hrun|]. split; [exact Hrun'|]. by rewrite Herr, Herr'.
Qed.

Lemma download_counts_independent_of_schedule_witness :
  same_counts
    (Downloader.download_files sample_listing_world "" None sample_downloader)
    (Downloader.download_files (with_schedule sample_listing_world [0; 0; 0]%nat [1; 1]%nat)
       "" None (downloader_with_workers 1 sample_downloader)).
Proof.
  apply (download_counts_independent_of_schedule sample_listing_world
           [0; 0; 0]%nat [1; 1]%nat 1 sample_downloader "" None sample_listing "").
  - exact sample_listing_world_exceptions.
  - lia.
  - reflexivity.
  - vm_compute. discriminate.
  - cbn. lia.
Defined.

(** X25.  The summary of an upload does not depend on the scheduling:
    with another number of workers and other picks of the thread
    scheduler, [upload_files] returns the same [success], the same
    [failed], and the same error entries up to their order. *)
Theorem upload_counts_independent_of_schedule (w : World)
    (lock completion : list nat) (n : Z)
    (pu : Proc Uploader.S3Uploader) (files : list string) :
  worker_exceptions w -> 1 <= n ->
  filter (sys_isfile w) files <> [] ->
  1 <= Uploader.max_workers (self pu) ->
  same_counts (Uploader.upload_files w files pu)
    (Uploader.upload_files (with_schedule w lock completion) files
       (uploader_with_workers n pu)).
Proof.
  intros Hw Hn Hvalid Hmu.
  pose proof (with_schedule_exceptions w lock completion Hw) as Hw'.
  destruct (upload_files_counts w Hw pu files Hvalid Hmu)
    as (order & errors & elapsed & p2 & _ & Hrun & Herr & _).
  destruct (upload_files_counts (with_schedule w lock completion) Hw'
              (uploader_with_workers n pu) files Hvalid Hn)
    as (order' & errors' & elapsed' & p2' & _ & Hrun' & Herr' & _).
  unfold same_counts. eexists _, _, errors, errors', _, _, p2, p2'.
  split; [exact Hrun|]. split; [exact Hrun'|]. by rewrite Herr, Herr'.
Qed.

Lemma upload_counts_independent_of_schedule_witness :
  same_counts (Uploader.upload_files sample_listing_world sample_files sample_uploader)
    (Uploader.upload_files (with_schedule sample_listing_world [0; 0; 0]%nat [1; 1]%nat)
       sample_files (uploader_with_workers 1 sample_uploader)).
Proof.
  apply (upload_counts_independent_of_schedule sample_listing_world
           [0; 0; 0]%nat [1; 1]%nat 1 sample_uploader sample_files).
  - exact sample_listing_world_exceptions.
  - lia.
  - vm_compute. discriminate.
  - cbn. lia.
Defined.

Lemma all_successes (results : list outcome) :
  Forall (fun o => is_success o = true) results ->
  filter is_failure results = [] /\ filter is_success results = results.
Proof.
  induction 1 as [|o l Ho _ [IH1 IH2]]; [done|].
  rewrite filter_cons_False by (unfold is_failure, is_success in *; rewrite Ho; cbv; tauto).
  rewrite filter_cons_True by (by rewrite Ho). by rewrite IH1, IH2.
Qed.

Lemma all_failures (results : list outcome) :
  Forall (fun o => is_success o = false) results ->
  filter is_failure results = results /\ filter is_success results = [].
Proof.
  induction 1 as [|o l Ho _ [IH1 IH2]]; [done|].
  rewrite filter_cons_True by (unfold is_failure, is_success in *; by rewrite Ho).
  rewrite filter_cons_False by (rewrite Ho; cbv; tauto). by rewrite IH1, IH2.
Qed.

Lemma outcome_of_success msg f1 f2 a :
  is_success (outcome_of msg f1 f2 a) = match a with Exit0 => true | _ => false end.
Proof. destruct a as [| |e]; [done|done|]. cbn. by destruct (is_TimeoutExpired e). Qed.

Lemma download_result_file w d t : (download_result w d t).1.2 = t.2.
Proof.
  unfold download_result, outcome_of. destruct (download_attempt w d t.1 t.2) as [| |e]; [done..|].
  by destruct (is_TimeoutExpired e).
Qed.

Lemma download_error_files w d (ts : list (nat * string)) :
  file <$> (entry_of <$> (download_result w d <$> ts)) = ts.*2.
Proof.
  induction ts as [|t ts IH]; [done|]. cbn [fmap list_fmap] in *. rewrite IH. f_equal.
  cbn. apply download_result_file.
Qed.

(** X21.  When every child process of a download run exits with status
    0, [download_files] returns [success] equal to the number of keys,
    [failed] equal to 0 and an empty error list. *)
Theorem all_downloads_succeed (w : World)
    (pd : Proc Downloader.S3Downloader) (prefix : string) (pattern : option string)
    (out err : string) :
  worker_exceptions w ->
  sys_run w MainThread (Downloader._build_aws_list_command (self pd) prefix) 1800
  = CompletedProcess 0 out err ->
  Downloader.parse_listing w pattern out <> [] ->
  1 <= Downloader.max_workers (self pd) ->
  Forall (fun t => download_attempt w (self pd) t.1 t.2 = Exit0)
    (ThreadPool.submit_all (Downloader.parse_listing w pattern out)) ->
  clean_run (Downloader.download_files w prefix pattern pd)
    (length (Downloader.parse_listing w pattern out)).
Proof.
  intros Hw Hls Hne Hmw Hdl.
  destruct (download_files_counts w Hw pd prefix pattern out err Hls Hne Hmw)
    as (order & errors & elapsed & p2 & _ & Hrun & Herr & _).
  destruct (all_successes
              (download_result w (self pd)
                 <$> ThreadPool.submit_all (Downloader.parse_listing w pattern out)))
    as [Hf Hs].
  { apply Forall_fmap. eapply Forall_impl; [exact Hdl|]. intros t Ht. cbn.
    unfold download_result. by rewrite outcome_of_success, Ht. }
  rewrite Hf, Hs in Hrun. rewrite Hf in Herr. apply Permutation_nil_r in Herr. subst errors.
  rewrite length_fmap, submit_all_length in Hrun.
  by exists elapsed, p2.
Qed.

Lemma all_downloads_succeed_witness :
  clean_run (Downloader.download_files obliging_world "" None sample_downloader)
    (length (Downloader.parse_listing obliging_world None sample_listing)).
Proof.
  apply (all_downloads_succeed obliging_world sample_downloader "" None sample_listing "").
  - exact obliging_world_exceptions.
  - reflexivity.
  - vm_compute. discriminate.
  - cbn. lia.
  - vm_compute. repeat constructor.
Defined.

(** X26.  When every child process of an upload run exits with status
    0, [upload_files] returns [success] equal to the number of regular
    files, [failed] equal to 0 and an empty error list. *)
Theorem all_uploads_succeed (w : World)
    (pu : Proc Uploader.S3Uploader) (files : list string) :
  worker_exceptions w ->
  filter (sys_isfile w) files <> [] ->
  1 <= Uploader.max_workers (self pu) ->
  Forall (fun t => upload_attempt w (self pu) t.1 t.2 = Exit0)
    (ThreadPool.submit_all (filter (sys_isfile w) files)) ->
  clean_run (Uploader.upload_files w files pu) (length (filter (sys_isfile w) files)).
Proof.
  intros Hw Hvalid Hmu Hul.
  destruct (upload_files_counts w Hw pu files Hvalid Hmu)
    as (order & errors & elapsed & p2 & _ & Hrun & Herr & _).
  destruct (all_successes
              (upload_result w (self pu)
                 <$> ThreadPool.submit_all (filter (sys_isfile w) files)))
    as [Hf Hs].
  { apply Forall_fmap. eapply Forall_impl; [exact Hul|]. intros t Ht. cbn.
    unfold upload_result. by rewrite outcome_of_success, Ht. }
  rewrite Hf, Hs in Hrun. rewrite Hf in Herr. apply Permutation_nil_r in Herr. subst errors.
  rewrite length_fmap, submit_all_length in Hrun.
  by exists elapsed, p2.
Qed.

Lemma all_uploads_succeed_witness :
  clean_run (Uploader.upload_files obliging_world sample_files sample_uploader)
    (length (filter (sys_isfile obliging_world) sample_files)).
Proof.
  apply (all_uploads_succeed obliging_world sample_uploader sample_files).
  - exact obliging_world_exceptions.
  - vm_compute. discriminate.
  - cbn. lia.
  - vm_compute. repeat constructor.
Defined.

(** X22.  When no transfer of a download run succeeds, [download_files]
    returns [success] equal to 0 and [failed] equal to the number of
    keys, with one error entry per key, each with a reason; the entries
    name the keys, each once. *)
Theorem all_downloads_fail (w : World)
    (pd : Proc Downloader.S3Downloader) (prefix : string) (pattern : option string)
    (out err : string) :
  worker_exceptions w ->
  sys_run w MainThread (Downloader._build_aws_list_command (self pd) prefix) 1800
  = CompletedProcess 0 out err ->
  Downloader.parse_listing w pattern out <> [] ->
  1 <= Downloader.max_workers (self pd) ->
  Forall (fun t => download_attempt w (self pd) t.1 t.2 <> Exit0)
    (ThreadPool.submit_all (Downloader.parse_listing w pattern out)) ->
  failed_run (Downloader.download_files w prefix pattern pd)
    (length (Downloader.parse_listing w pattern out))
    (fun names => names ≡ₚ Downloader.parse_listing w pattern out).
Proof.
  intros Hw Hls Hne Hmw Hdl.
  destruct (download_files_counts w Hw pd prefix pattern out err Hls Hne Hmw)
    as (order & errors & elapsed & p2 & _ & Hrun & Herr & _).
  destruct (all_failures
              (download_result w (self pd)
                 <$> ThreadPool.submit_all (Downloader.parse_listing w pattern out)))
    as [Hf Hs].
  { apply Forall_fmap. eapply Forall_impl; [exact Hdl|]. intros t Ht. cbn.
    unfold download_result. rewrite outcome_of_success.
    destruct (download_attempt w (self pd) t.1 t.2) eqn:E; [exfalso; exact (Ht E)|done..]. }
  assert (Forall (fun e => is_Some (error e)) errors) as Hreason.
  { rewrite Herr. apply failure_entries_have_reason. intros t.
    apply outcome_of_failure_reason. }
  rewrite Hf, Hs in Hrun. rewrite Hf in Herr.
  rewrite length_fmap, submit_all_length in Hrun.
  exists errors, elapsed, p2. split; [done|]. split.
  { by rewrite Herr, !length_fmap, submit_all_length. }
  split; [done|].
  by rewrite Herr, download_error_files, submit_all_snd.
Qed.

Lemma all_downloads_fail_witness :
  failed_run (Downloader.download_files refusing_world "" None sample_downloader)
    (length (Downloader.parse_listing refusing_world None sample_listing))
    (fun names => names ≡ₚ Downloader.parse_listing refusing_world None sample_listing).
Proof.
  apply (all_downloads_fail refusing_world sample_downloader "" None sample_listing "").
  - exact refusing_world_exceptions.
  - reflexivity.
  - vm_compute. discriminate.
  - cbn. lia.
  - vm_compute. repeat constructor; discriminate.
Defined.

(** X27.  When no transfer of an upload run succeeds, [upload_files]
    returns [success] equal to 0 and [failed] equal to the number of
    regular files, with one error entry per file, each with a reason; the
    entries name regular files, as given or as [pathlib] writes them. *)
Theorem all_uploads_fail (w : World)
    (pu : Proc Uploader.S3Uploader) (files : list string) :
  worker_exceptions w ->
  filter (sys_isfile w) files <> [] ->
  1 <= Uploader.max_workers (self pu) ->
  Forall (fun t => upload_attempt w (self pu) t.1 t.2 <> Exit0)
    (ThreadPool.submit_all (filter (sys_isfile w) files)) ->
  failed_run (Uploader.upload_files w files pu) (length (filter (sys_isfile w) files))
    (fun names => Forall (fun f => sys_isfile w f = true
                                   \/ exists g, sys_isfile w g = true
                                                /\ f = Pathlib.to_str (Pathlib.of_str g))
                    names).
Proof.
  intros Hw Hvalid Hmu Hul.
  destruct (upload_files_counts w Hw pu files Hvalid Hmu)
    as (order & errors & elapsed & p2 & _ & Hrun & Herr & _).
  destruct (all_failures
              (upload_result w (self pu)
                 <$> ThreadPool.submit_all (filter (sys_isfile w) files)))
    as [Hf Hs].
  { apply Forall_fmap. eapply Forall_impl; [exact Hul|]. intros t Ht. cbn.
    unfold upload_result. rewrite outcome_of_success.
    destruct (upload_attempt w (self pu) t.1 t.2) eqn:E; [exfalso; exact (Ht E)|done..]. }
  assert (Forall (fun e => is_Some (error e)) errors) as Hreason.
  { rewrite Herr. apply failure_entries_have_reason. intros t.
    apply outcome_of_failure_reason. }
  rewrite Hf, Hs in Hrun. rewrite Hf in Herr.
  rewrite length_fmap, submit_all_length in Hrun.
  exists errors, elapsed, p2. split; [done|]. split.
  { by rewrite Herr, !length_fmap, submit_all_length. }
  split; [done|].
  rewrite Herr. apply Forall_fmap, Forall_fmap, Forall_fmap, Forall_forall.
  intros t Ht%submit_all_elem_inv. cbn.
  apply list_elem_of_filter in Ht as [Hfile%Is_true_true _].
  destruct (upload_result_file w (self pu) t) as [-> | ->]; [by left|right].
  by exists t.2.
Qed.

Lemma all_uploads_fail_witness :
  failed_run (Uploader.upload_files refusing_world sample_files sample_uploader)
    (length (filter (sys_isfile refusing_world) sample_files))
    (fun names => Forall (fun f => sys_isfile refusing_world f = true
                                   \/ exists g, sys_isfile refusing_world g = true
                                                /\ f = Pathlib.to_str (Pathlib.of_str g))
                    names).
Proof.
  apply (all_uploads_fail refusing_world sample_uploader sample_files).
  - exact refusing_world_exceptions.
  - vm_compute. discriminate.
  - cbn. lia.
  - vm_compute. repeat constructor; discriminate.
Defined.

(** X23.  [_download_file] and [_upload_file] depend on the total that
    a dispatch sets: called while [total_files] is 0 they do not return a
    result but raise [ZeroDivisionError] from the progress computation,
    whatever the child process did; nothing is printed, and the call is
    counted as a failure, also when the transfer itself succeeded. *)
Theorem transfer_outside_a_run_raises (w : World) (i : nat) (key : string)
    (pd : Proc Downloader.S3Downloader) (local_file : string)
    (pu : Proc Uploader.S3Uploader) :
  worker_exceptions w ->
  Downloader.total_files (self pd) = 0 ->
  Uploader.total_files (self pu) = 0 ->
  division_by_zero (Downloader._download_file w i key pd) pd
  /\ division_by_zero (Uploader._upload_file w i local_file pu) pu.
Proof.
  intros [Hrun Hmk] Hd Hu. split.
  - unfold division_by_zero, Downloader._download_file, Downloader.progress_expr.
    munfold. cbn [self io total succeeded failed downloader_tracker].
    destruct (sys_mkdir w (Worker i) _) as [e|] eqn:Hm.
    + specialize (Hmk _ _ _ Hm).
      destruct e; try discriminate Hmk; cbn; repeat (rewrite Hd; cbn); repeat split; try reflexivity; try lia.
    + cbn [self io stdout spawned clock_reads].
      destruct (sys_run w (Worker i) _ 3600) as [rc out err|e] eqn:Hr.
      * destruct (rc =? 0); cbn; repeat (rewrite Hd; cbn); repeat split; try reflexivity; try lia.
      * specialize (Hrun _ _ _ _ Hr).
        destruct e; try discriminate Hrun; cbn; repeat (rewrite Hd; cbn); repeat split; try reflexivity; try lia.
  - unfold division_by_zero, Uploader._upload_file, Uploader.progress_expr.
    munfold. cbn [self io total succeeded failed uploader_tracker].
    destruct (sys_run w (Worker i) _ 3600) as [rc out err|e] eqn:Hr.
    + destruct (rc =? 0); cbn; repeat (rewrite Hu; cbn); repeat split; try reflexivity; try lia.
    + specialize (Hrun _ _ _ _ Hr).
      destruct e; try discriminate Hrun; cbn; repeat (rewrite Hu; cbn); repeat split; try reflexivity; try lia.
Qed.

Lemma transfer_outside_a_run_raises_witness :
  division_by_zero (Downloader._download_file sample_world 0 "logs/a.txt" sample_downloader)
    sample_downloader
  /\ division_by_zero (Uploader._upload_file sample_world 0 "a.txt" sample_uploader)
       sample_uploader.
Proof.
  apply (transfer_outside_a_run_raises sample_world 0 "logs/a.txt" sample_downloader
           "a.txt" sample_uploader).
  - exact sample_world_exceptions.
  - reflexivity.
  - reflexivity.
Defined.
